(** * Guardian-AI legal analyzer: ingestion, de-duplication and retrieval

    A shallow embedding of [Backend/Guardian-Legal-analyzer-main/legal_tool.py]
    and the properties its design document states about it.

    Python values are modelled as follows.
    - [str] is a list of Unicode code points ([pystr]); [str.encode()] is the
      strict UTF-8 codec, which raises on a surrogate code point.
    - [dict] is a [gmap], [set] a [gset], [list] a [list].
    - an exception is a value of [exn]; code that can raise lives in the
      monad [M], which threads the state of the outside world.
    - [hashlib.sha256] is SHA-256 as FIPS 180-4 defines it, on 32-bit words
      kept in [Z] with the wrap-around written out. *)

From Stdlib Require Import ZArith Lia String Ascii.
From stdpp Require Import gmap strings list fin_maps pretty.

Open Scope Z_scope.

(** ** Python strings *)

Abbreviation pystr := (list Z).

(** The code points of an ASCII literal. *)
Definition u (s : string) : pystr :=
  map (fun a => Z.of_N (N_of_ascii a)) (list_ascii_of_string s).

(** A code point that UTF-8 can encode: in range and not a surrogate. *)
Definition scalar_value (c : Z) : Prop :=
  0 <= c <= 0x10FFFF /\ ~ (0xD800 <= c <= 0xDFFF).

(** ** Exceptions *)

(** An exception, by its class, with the text [str(e)] gives.  [OSError] is
    an [OSError] that is neither a [PermissionError] nor a
    [FileNotFoundError]; [ValueError] is a [ValueError] of any subclass but
    [UnicodeEncodeError] (what [PyPDFLoader] raises for a path that is no
    file, what pydantic and chromadb raise for a bad argument);
    [DuplicateIDError] is chromadb's, a [ChromaError] and no [ValueError];
    [Exception_] is an exception of any other class. *)
Inductive exn : Type :=
| PermissionError (msg : pystr)
| FileNotFoundError (msg : pystr)
| OSError (msg : pystr)
| UnicodeEncodeError (msg : pystr)
| ValueError (msg : pystr)
| DuplicateIDError (msg : pystr)
| EOFError (msg : pystr)
| Exception_ (msg : pystr).

(** [str(e)] *)
Definition str_exn (e : exn) : pystr :=
  match e with
  | PermissionError m | FileNotFoundError m | OSError m
  | UnicodeEncodeError m | ValueError m | DuplicateIDError m
  | EOFError m | Exception_ m => m
  end.

(** [isinstance(e, PermissionError)] *)
Definition is_PermissionError (e : exn) : bool :=
  match e with PermissionError _ => true | _ => false end.

(** [isinstance(e, OSError)]: [PermissionError] and [FileNotFoundError] are
    subclasses of [OSError]. *)
Definition is_OSError (e : exn) : bool :=
  match e with
  | PermissionError _ | FileNotFoundError _ | OSError _ => true
  | _ => false
  end.

(** [isinstance(e, ValueError)]: [UnicodeEncodeError] is a subclass of
    [ValueError]. *)
Definition is_ValueError (e : exn) : bool :=
  match e with
  | ValueError _ | UnicodeEncodeError _ => true
  | _ => false
  end.

(** ** UTF-8: [str.encode()] *)

Module Utf8.

Definition encode_char (c : Z) : option (list Z) :=
  if decide (c < 0) then None
  else if decide (c < 0x80) then Some [c]
  else if decide (c < 0x800) then
    Some [Z.lor 0xC0 (Z.shiftr c 6); Z.lor 0x80 (Z.land c 0x3F)]
  else if decide (c < 0x10000) then
    if decide (0xD800 <= c <= 0xDFFF) then None
    else Some [Z.lor 0xE0 (Z.shiftr c 12);
               Z.lor 0x80 (Z.land (Z.shiftr c 6) 0x3F);
               Z.lor 0x80 (Z.land c 0x3F)]
  else if decide (c <= 0x10FFFF) then
    Some [Z.lor 0xF0 (Z.shiftr c 18);
          Z.lor 0x80 (Z.land (Z.shiftr c 12) 0x3F);
          Z.lor 0x80 (Z.land (Z.shiftr c 6) 0x3F);
          Z.lor 0x80 (Z.land c 0x3F)]
  else None.

(** The number of surrogate code points [s] begins with. *)
Fixpoint surrogates_ahead (s : pystr) : nat :=
  match s with
  | c :: r => if decide (0xD800 <= c <= 0xDFFF) then S (surrogates_ahead r) else O
  | [] => O
  end.

(** Four lower-case hexadecimal digits, as ['%04x'] prints them. *)
Definition hex4 (c : Z) : pystr :=
  map (fun i => let d := Z.land (Z.shiftr c (4 * i)) 0xF in
                if decide (d < 10) then 48 + d else 87 + d) [3; 2; 1; 0].

(** [str(e)] of the [UnicodeEncodeError] the codec raises at position
    [start] for the code point [c] found there: the codec reports the whole
    run of surrogates that begins at [start], [more] of them after [c], and
    names the code point when it is alone. *)
Definition cannot_encode (start : nat) (c : Z) (more : nat) : pystr :=
  match more with
  | O =>
      u "'utf-8' codec can't encode character '\u" ++ hex4 c ++
      u "' in position " ++ u (pretty start) ++ u ": surrogates not allowed"
  | S _ =>
      u "'utf-8' codec can't encode characters in position " ++
      u (pretty start) ++ u "-" ++ u (pretty (start + more)%nat) ++
      u ": surrogates not allowed"
  end.

(** The encoding of [s], whose first code point is at position [pos] of the
    string. *)
Fixpoint encode_from (pos : nat) (s : pystr) : exn + list Z :=
  match s with
  | [] => inr []
  | c :: r =>
      match encode_char c with
      | None => inl (UnicodeEncodeError (cannot_encode pos c (surrogates_ahead r)))
      | Some bs =>
          match encode_from (S pos) r with
          | inl e => inl e
          | inr rest => inr (bs ++ rest)
          end
      end
  end.

Definition encode (s : pystr) : exn + list Z := encode_from 0 s.

End Utf8.

(** ** SHA-256: [hashlib.sha256(data).hexdigest()] *)

Module Sha256.

Definition mask32 : Z := 0xFFFFFFFF.
Definition add32 (x y : Z) : Z := Z.land (x + y) mask32.
Definition rotr (n x : Z) : Z :=
  Z.lor (Z.shiftr x n) (Z.land (Z.shiftl x (32 - n)) mask32).
Definition shr (n x : Z) : Z := Z.shiftr x n.
Definition not32 (x : Z) : Z := Z.lxor x mask32.

Definition Ch (x y z : Z) : Z := Z.lxor (Z.land x y) (Z.land (not32 x) z).
Definition Maj (x y z : Z) : Z :=
  Z.lxor (Z.lxor (Z.land x y) (Z.land x z)) (Z.land y z).
Definition Sigma0 (x : Z) : Z := Z.lxor (Z.lxor (rotr 2 x) (rotr 13 x)) (rotr 22 x).
Definition Sigma1 (x : Z) : Z := Z.lxor (Z.lxor (rotr 6 x) (rotr 11 x)) (rotr 25 x).
Definition sigma0 (x : Z) : Z := Z.lxor (Z.lxor (rotr 7 x) (rotr 18 x)) (shr 3 x).
Definition sigma1 (x : Z) : Z := Z.lxor (Z.lxor (rotr 17 x) (rotr 19 x)) (shr 10 x).

(** The first [n] primes, by trial division. *)
Definition is_prime (p : Z) : bool :=
  forallb (fun d => negb (p mod d =? 0)) (Z.of_nat <$> seq 2 (Z.to_nat p - 2)).

Definition first_primes (n : nat) : list Z :=
  take n (List.filter is_prime (Z.of_nat <$> seq 2 400)).

(** The integer cube root below [2 ^ bits], one bit at a time. *)
Fixpoint cube_root_bits (bits : nat) (n r : Z) : Z :=
  match bits with
  | O => r
  | S b =>
      let r' := r + 2 ^ Z.of_nat b in
      cube_root_bits b n (if r' * r' * r' <=? n then r' else r)
  end.

(** The first 32 bits of the fractional part of a root of a prime. *)
Definition frac_cube_root (p : Z) : Z :=
  Z.land (cube_root_bits 36 (p * 2 ^ 96) 0) mask32.

Definition frac_square_root (p : Z) : Z :=
  Z.land (Z.sqrt (p * 2 ^ 64)) mask32.

(** The round constants: from the cube roots of the first 64 primes. *)
Definition K : list Z :=
  Eval vm_compute in (frac_cube_root <$> first_primes 64).

(** The eight working words. *)
Record words : Type := Words {
  wa : Z; wb : Z; wc : Z; wd : Z; we : Z; wf : Z; wg : Z; wh : Z
}.

Definition words_of_list (l : list Z) : words :=
  Words (nth 0 l 0) (nth 1 l 0) (nth 2 l 0) (nth 3 l 0)
        (nth 4 l 0) (nth 5 l 0) (nth 6 l 0) (nth 7 l 0).

(** The initial hash value: from the square roots of the first 8 primes. *)
Definition H0 : words :=
  Eval vm_compute in (words_of_list (frac_square_root <$> first_primes 8)).

(** Big-endian 32-bit words of a byte sequence. *)
Fixpoint be32 (bs : list Z) : list Z :=
  match bs with
  | b0 :: b1 :: b2 :: b3 :: r =>
      Z.lor (Z.lor (Z.lor (Z.shiftl b0 24) (Z.shiftl b1 16)) (Z.shiftl b2 8)) b3
      :: be32 r
  | _ => []
  end.

(** Message schedule: [w] holds W_0 .. W_(t-1); append [n] more words. *)
Fixpoint extend (n : nat) (w : list Z) : list Z :=
  match n with
  | O => w
  | S n' =>
      let t := length w in
      let g (i : nat) := nth (t - i)%nat w 0 in
      extend n'
        (w ++ [add32 (add32 (add32 (sigma1 (g 2%nat)) (g 7%nat))
                            (sigma0 (g 15%nat))) (g 16%nat)])
  end.

Definition round (s : words) (kw : Z * Z) : words :=
  let t1 := add32 (add32 (add32 (add32 (wh s) (Sigma1 (we s)))
                                (Ch (we s) (wf s) (wg s))) (fst kw)) (snd kw) in
  let t2 := add32 (Sigma0 (wa s)) (Maj (wa s) (wb s) (wc s)) in
  Words (add32 t1 t2) (wa s) (wb s) (wc s) (add32 (wd s) t1) (we s) (wf s) (wg s).

Definition compress (h : words) (block : list Z) : words :=
  let w := extend 48 (be32 block) in
  let s := foldl round h (zip K w) in
  Words (add32 (wa h) (wa s)) (add32 (wb h) (wb s)) (add32 (wc h) (wc s))
        (add32 (wd h) (wd s)) (add32 (we h) (we s)) (add32 (wf h) (wf s))
        (add32 (wg h) (wg s)) (add32 (wh h) (wh s)).

(** The 64-bit big-endian bit length. *)
Definition be64 (n : Z) : list Z :=
  map (fun i => Z.land (Z.shiftr n (8 * i)) 0xFF) [7; 6; 5; 4; 3; 2; 1; 0].

Definition pad (msg : list Z) : list Z :=
  let len := Z.of_nat (length msg) in
  msg ++ [0x80] ++ replicate (Z.to_nat ((55 - len) mod 64)) 0 ++ be64 (8 * len).

(** 64-byte blocks; [fuel] bounds the number of blocks. *)
Fixpoint blocks (fuel : nat) (bs : list Z) : list (list Z) :=
  match fuel with
  | O => []
  | S f =>
      match bs with
      | [] => []
      | _ => take 64 bs :: blocks f (drop 64 bs)
      end
  end.

Definition digest (msg : list Z) : words :=
  let p := pad msg in
  foldl compress H0 (blocks (length p) p).

Definition hex_digit (n : Z) : Z :=
  if decide (n < 10) then 48 + n else 87 + n.

Definition hex8 (w : Z) : pystr :=
  map (fun i => hex_digit (Z.land (Z.shiftr w (4 * i)) 0xF)) [7; 6; 5; 4; 3; 2; 1; 0].

Definition hexdigest (msg : list Z) : pystr :=
  let d := digest msg in
  hex8 (wa d) ++ hex8 (wb d) ++ hex8 (wc d) ++ hex8 (wd d) ++
  hex8 (we d) ++ hex8 (wf d) ++ hex8 (wg d) ++ hex8 (wh d).

End Sha256.

(** ** Content fingerprint (legal_tool.py, lines 79-80)

    [hashlib.sha256(chunk.page_content.encode()).hexdigest()[:16]] *)

Definition fingerprint (content : pystr) : exn + pystr :=
  match Utf8.encode content with
  | inl e => inl e
  | inr bytes => inr (take 16 (Sha256.hexdigest bytes))
  end.

Definition is_hex_char (c : Z) : Prop :=
  48 <= c <= 57 \/ 97 <= c <= 102.

(** [str(n)] for an [int]. *)
Definition str_int (n : Z) : pystr := u (pretty n).

(** [sep.join(parts)] *)
Fixpoint join (sep : pystr) (parts : list pystr) : pystr :=
  match parts with
  | [] => []
  | [p] => p
  | p :: rest => p ++ sep ++ join sep rest
  end.

(** [s.endswith(t)] *)
Definition endswith (s t : pystr) : bool := bool_decide (t `suffix_of` s).

(** [os.path.basename] of [posixpath]: what follows the last slash. *)
Fixpoint basename (p : pystr) : pystr :=
  match p with
  | [] => []
  | c :: r => if bool_decide (47 ∈ r) then basename r
              else if decide (c = 47) then r else p
  end.

(** ** Documents, the store directory and the outside world *)

Record Document : Type := mkDocument {
  page_content : pystr;
  metadata : gmap pystr pystr
}.

(** A file with what [os.path.getsize] returns for it ([None]: it raises
    [OSError]), or a directory with its named children. *)
#[local] Set Warnings "-register-all".
Inductive Node : Type :=
| File (size : option Z)
| Dir (children : list (pystr * Node)).
#[local] Set Warnings "register-all".

(** Induction on a node that has the property for every child of a
    directory. *)
Fixpoint Node_children_ind (P : Node -> Prop)
         (Hfile : forall sz, P (File sz))
         (Hdir : forall cs, Forall (fun c => P (snd c)) cs -> P (Dir cs))
         (n : Node) {struct n} : P n :=
  match n with
  | File sz => Hfile sz
  | Dir cs =>
      Hdir cs
           ((fix children (l : list (pystr * Node)) : Forall (fun c => P (snd c)) l :=
               match l with
               | [] => @List.Forall_nil _ _
               | c :: r =>
                   @List.Forall_cons _ _ c r
                     (Node_children_ind P Hfile Hdir (snd c)) (children r)
               end) cs)
  end.

(** What sits at a path: the files [os.walk] sees there and the entries of
    the Chroma collection persisted there (id to chunk).  How Chroma lays a
    collection out in files is opaque to the program, so the model keeps the
    two side by side and store operations leave [tree] alone. *)
Record Store : Type := mkStore {
  tree : Node;
  entries : gmap pystr Document
}.

(** Calls into the outside world that leave a mark, in program order. *)
Inductive Event : Type :=
| Print (line : pystr)
| Sleep (ms : Z)
| GcCollect
| Rmtree (path : pystr)
| Rename (src dst : pystr)
| AddDocuments (documents : list Document) (ids : list pystr)
| FromDocuments (documents : list Document) (ids : list pystr)
| Search (k : nat) (question : pystr)
| LlmInvoke (prompt : pystr).

(** Failures the outside world has in store.  [rmtree_script] lists, for the
    coming calls of [shutil.rmtree], the exception each raises and what it
    leaves at the path; once the script is empty [rmtree] succeeds. *)
Record Faults : Type := mkFaults {
  rmtree_script : list (exn * Store);
  rename_fault : option exn;
  embeddings_fault : option exn;
  open_fault : option exn;
  get_fault : option exn;
  write_fault : option exn;
  search_fault : option exn
}.

Record World : Type := mkWorld {
  fs : gmap pystr Store;
  clock_ms : Z;
  faults : Faults;
  stdin : list pystr;
  pdf_loader : pystr -> exn + list Document;
  text_splitter : list Document -> list Document;
  ranking : pystr -> list Document;
  llm : pystr -> exn + pystr;
  trace : list Event
}.

Definition set_fs (f : gmap pystr Store -> gmap pystr Store) (w : World) : World :=
  mkWorld (f (fs w)) (clock_ms w) (faults w) (stdin w) (pdf_loader w)
          (text_splitter w) (ranking w) (llm w) (trace w).

Definition set_clock (f : Z -> Z) (w : World) : World :=
  mkWorld (fs w) (f (clock_ms w)) (faults w) (stdin w) (pdf_loader w)
          (text_splitter w) (ranking w) (llm w) (trace w).

Definition set_rmtree_script (l : list (exn * Store)) (w : World) : World :=
  mkWorld (fs w) (clock_ms w)
          (mkFaults l (rename_fault (faults w)) (embeddings_fault (faults w))
                    (open_fault (faults w)) (get_fault (faults w))
                    (write_fault (faults w)) (search_fault (faults w)))
          (stdin w) (pdf_loader w) (text_splitter w) (ranking w) (llm w) (trace w).

Definition set_stdin (l : list pystr) (w : World) : World :=
  mkWorld (fs w) (clock_ms w) (faults w) l (pdf_loader w)
          (text_splitter w) (ranking w) (llm w) (trace w).

Definition log (e : Event) (w : World) : World :=
  mkWorld (fs w) (clock_ms w) (faults w) (stdin w) (pdf_loader w)
          (text_splitter w) (ranking w) (llm w) (trace w ++ [e]).

(** ** The monad of effectful code: state of the world, and exceptions *)

Definition M (A : Type) : Type := World -> (exn + A) * World.

#[export] Instance M_ret : MRet M := fun A a w => (inr a, w).

#[export] Instance M_bind : MBind M := fun A B f m w =>
  match m w with
  | (inl e, w') => (inl e, w')
  | (inr a, w') => f a w'
  end.

Definition raise {A : Type} (e : exn) : M A := fun w => (inl e, w).

(** [try: body / except ...: handler]; the handler answers [None] for an
    exception its [except] clause does not match. *)
Definition try_except {A : Type} (body : M A) (handler : exn -> option (M A)) : M A :=
  fun w =>
    match body w with
    | (inl e, w') =>
        match handler e with
        | Some h => h w'
        | None => (inl e, w')
        end
    | r => r
    end.

Definition get_world : M World := fun w => (inr w, w).
Definition modify (f : World -> World) : M unit := fun w => (inr tt, f w).
Definition lift {A : Type} (r : exn + A) : M A := fun w => (r, w).

Definition fault {A : Type} (sel : Faults -> option exn) (ok : M A) : M A :=
  w ← get_world;
  match sel (faults w) with
  | Some e => raise e
  | None => ok
  end.

(** ** Primitive operations of the outside world

    The vector store (Chroma), the embedding client, the PDF loader, the
    text splitter and the language model are third-party libraries.  They
    are modelled by the contract the design document gives for them: a
    store is a finite map from ids to chunks with a count, a lookup of ids,
    an insert and a similarity search that returns at most [k] chunks; each
    call may raise, as the [Faults] of the world say, and the insert also
    raises for a batch that chromadb refuses: an empty one, or one that
    holds an id twice.

    What the model leaves out: the files chromadb keeps under the store
    path.  [tree] is what [os.walk] finds there; opening the store and
    writing to it leave [tree] as it is, so the model says nothing about
    the files these calls create or rewrite, only about the path and the
    entries. *)

Definition print (line : pystr) : M unit := modify (log (Print line)).

Definition sleep (ms : Z) : M unit :=
  modify (fun w => log (Sleep ms) (set_clock (Z.add ms) w)).

Definition gc_collect : M unit := modify (log GcCollect).

(** [int(time.time())] *)
Definition time_time : M Z := w ← get_world; mret (clock_ms w / 1000).

(** [os.path.exists(p)] *)
Definition path_exists (p : pystr) : M bool :=
  w ← get_world; mret (bool_decide (is_Some (fs w !! p))).

(** [shutil.rmtree(p)] *)
Definition rmtree (p : pystr) : M unit := fun w0 =>
  let w := log (Rmtree p) w0 in
  match fs w !! p with
  | None => (inl (FileNotFoundError p), w)
  | Some _ =>
      match rmtree_script (faults w) with
      | [] => (inr tt, set_fs (delete p) w)
      | (e, residue) :: rest =>
          (inl e, set_rmtree_script rest (set_fs (insert p residue) w))
      end
  end.

(** [os.rename(src, dst)] *)
Definition rename (src dst : pystr) : M unit := fun w0 =>
  let w := log (Rename src dst) w0 in
  match rename_fault (faults w) with
  | Some e => (inl e, w)
  | None =>
      match fs w !! src with
      | None => (inl (FileNotFoundError src), w)
      | Some s => (inr tt, set_fs (fun f => <[dst := s]> (delete src f)) w)
      end
  end.

(** [input(prompt)] *)
Definition input (prompt : pystr) : M pystr := fun w =>
  match stdin w with
  | [] => (inl (EOFError (u "EOF when reading a line")), log (Print prompt) w)
  | line :: rest => (inr line, set_stdin rest (log (Print prompt) w))
  end.

(** [GoogleGenerativeAIEmbeddings(model=...)] *)
Definition new_embeddings : M unit := fault embeddings_fault (mret tt).

(** The collection persisted under [dir]; empty when nothing is there. *)
Definition collection_at (dir : pystr) (w : World) : gmap pystr Document :=
  match fs w !! dir with
  | Some s => entries s
  | None => ∅
  end.

Definition put_collection (dir : pystr) (c : gmap pystr Document) (w : World) : World :=
  set_fs (fun f =>
            match f !! dir with
            | Some s => <[dir := mkStore (tree s) c]> f
            | None => <[dir := mkStore (Dir []) c]> f
            end) w.

(** [Chroma(persist_directory=dir, embedding_function=embeddings)]: the
    entries are as they were; a directory that is not there is created,
    empty. *)
Definition chroma_open (dir : pystr) : M unit :=
  fault open_fault
        (modify (fun w => put_collection dir (collection_at dir w) w)).

(** [vectorstore._collection.count()] *)
Definition collection_count (dir : pystr) : M Z :=
  w ← get_world; mret (Z.of_nat (size (collection_at dir w))).

(** [vectorstore._collection.get(ids=ids, include=[])['ids']]: the ids, of
    those asked for, that the collection holds. *)
Definition collection_get (dir : pystr) (ids : list pystr) : M (list pystr) :=
  fault get_fault
        (w ← get_world;
         mret (filter (fun i => is_Some (collection_at dir w !! i)) ids)).

(** Writing chunks under their ids, a later one replacing an earlier one. *)
Definition upsert (c : gmap pystr Document)
           (documents : list Document) (ids : list pystr) : gmap pystr Document :=
  foldl (fun acc p => <[snd p := fst p]> acc) c (zip documents ids).

(** The ids of [ids] that occur in it more than once. *)
Definition repeated (ids : list pystr) : list pystr :=
  remove_dups (filter (fun i => (1 < length (filter (eq i) ids))%nat) ids).

(** What chromadb checks on the ids of a batch before it writes any of it:
    there is one at least ([ValueError] otherwise), and none occurs twice
    ([DuplicateIDError] otherwise).  The class of the exception is what the
    theorems below rely on.  The texts follow chromadb's [validate_ids] for
    fewer than ten repeated ids, which it names in the order of a Python
    [set]; no code of this project reads the text. *)
Definition validate_ids (ids : list pystr) : option exn :=
  match ids with
  | [] => Some (ValueError (u "Expected IDs to be a non-empty list, got 0 IDs"))
  | _ :: _ =>
      if decide (NoDup ids) then None
      else Some (DuplicateIDError
                   (u "Expected IDs to be unique, found duplicates of: " ++
                    join (u ", ") (repeated ids)))
  end.

(** The batch is embedded, which may fail as [write_fault] says, and handed
    to the collection, which checks the ids and then writes every chunk
    under its id. *)
Definition collection_upsert (dir : pystr)
           (documents : list Document) (ids : list pystr) : M unit :=
  fault write_fault
        match validate_ids ids with
        | Some e => raise e
        | None =>
            modify (fun w =>
                      put_collection dir
                        (upsert (collection_at dir w) documents ids) w)
        end.

(** [vectorstore.add_documents(documents=..., ids=...)] *)
Definition add_documents (dir : pystr)
           (documents : list Document) (ids : list pystr) : M unit :=
  modify (log (AddDocuments documents ids));;
  collection_upsert dir documents ids.

(** [Chroma.from_documents(documents=..., persist_directory=dir, ids=...)] *)
Definition from_documents (dir : pystr)
           (documents : list Document) (ids : list pystr) : M unit :=
  modify (log (FromDocuments documents ids));;
  fault open_fault (collection_upsert dir documents ids).

(** [vectorstore.as_retriever(search_kwargs={"k": k}).invoke(question)]: the
    first [k] chunks in the order of similarity the store assigns. *)
Definition retriever_invoke (k : nat) (question : pystr) : M (list Document) :=
  modify (log (Search k question));;
  fault search_fault (w ← get_world; mret (take k (ranking w question))).

(** [llm.invoke(prompt).content] *)
Definition llm_invoke (prompt : pystr) : M pystr :=
  modify (log (LlmInvoke prompt));;
  w ← get_world; lift (llm w prompt).

(** [PyPDFLoader(path).load()] *)
Definition load_pdf (path : pystr) : M (list Document) :=
  w ← get_world; lift (pdf_loader w path).

(** [RecursiveCharacterTextSplitter(...).split_documents(documents)] *)
Definition split_documents (documents : list Document) : M (list Document) :=
  w ← get_world; mret (text_splitter w documents).

(** ** legal_tool.py *)

Definition CHROMA_DB_DIR : pystr := u "./chroma_db".

Definition nl : pystr := [10].

(** [range(n)] *)
Definition py_range (n : Z) : list Z := Z.of_nat <$> seq 0 (Z.to_nat n).

(** [len(l)] *)
Definition len {A : Type} (l : list A) : Z := Z.of_nat (length l).

(** Truth value of an optional flag: [None] and [False] are false. *)
Definition truthy (b : option bool) : bool := default false b.

(** *** The question put to the user (lines 19-33) *)

(** Code points [str.strip()] removes. *)
Definition is_space (c : Z) : bool :=
  bool_decide (c ∈ [9; 10; 11; 12; 13; 28; 29; 30; 31; 32; 0x85; 0xA0; 0x1680;
                    0x2000; 0x2001; 0x2002; 0x2003; 0x2004; 0x2005; 0x2006;
                    0x2007; 0x2008; 0x2009; 0x200A; 0x2028; 0x2029; 0x202F;
                    0x205F; 0x3000]).

Fixpoint lstrip (s : pystr) : pystr :=
  match s with
  | c :: r => if is_space c then lstrip r else s
  | [] => []
  end.

Definition strip (s : pystr) : pystr := reverse (lstrip (reverse (lstrip s))).

(** [str.upper()] on the letters a-z; no other code point has Y or N as its
    upper case, which is all the caller compares with. *)
Definition upper (s : pystr) : pystr :=
  map (fun c => if decide (97 <= c <= 122) then c - 32 else c) s.

Fixpoint ask_keep_existing (fuel : nat) : M bool :=
  match fuel with
  | O => raise (EOFError (u "EOF when reading a line"))
  | S fuel' =>
      line ← input (nl ++ u "Keep existing database? (Y/N): ");
      let response := upper (strip line) in
      if bool_decide (response ∈ [u "Y"; u "N"]) then
        mret (bool_decide (response = u "Y"))
      else
        print ([0x26A0; 0xFE0F] ++ u "  Please enter Y or N");;
        ask_keep_existing fuel'
  end.

Definition prompt_for_mode : M bool :=
  print (nl ++ replicate 80 61);;
  print ([0x1F4C1] ++ u " EXISTING DATABASE DETECTED");;
  print (replicate 80 61);;
  print (nl ++ u "A ChromaDB database already exists at: " ++ CHROMA_DB_DIR);;
  print (nl ++ u "Options:");;
  print (u "  [Y] Keep existing data (accumulate PDFs - like chat memory)");;
  print (u "  [N] Delete and start fresh (analyze only this PDF)");;
  w ← get_world;
  ask_keep_existing (S (length (stdin w))).

(** *** Deleting the store for a fresh start (lines 38-62) *)

Definition max_retries : Z := 3.

Definition cannot_delete_or_rename : pystr :=
  u "Cannot delete or rename database. Please close all programs using it and try again. Error: ".

Definition waiting_message (attempt : Z) : pystr :=
  [0x23F3] ++ u " Waiting for file locks to release (attempt " ++
  str_int (attempt + 1) ++ u "/" ++ str_int max_retries ++ u ")...".

Definition could_not_delete_message : pystr :=
  [0x26A0; 0xFE0F] ++
  u "  Warning: Could not delete database. Trying alternative approach...".

Definition backup_name_at (t : Z) : pystr :=
  CHROMA_DB_DIR ++ u "_backup_" ++ str_int t.

(** Lines 55-62: the branch of the last attempt, [e] being the
    [PermissionError] that attempt raised. *)
Definition rename_aside (e : exn) : M unit :=
  print could_not_delete_message;;
  t ← time_time;
  let backup_name := backup_name_at t in
  try_except
    (rename CHROMA_DB_DIR backup_name;;
     print ([0x2705] ++ u " Old database moved to: " ++ backup_name);;
     print (u "   You can manually delete it later when the process releases the files"))
    (fun rename_error =>
       Some (raise (Exception_ (cannot_delete_or_rename ++ str_exn e)))).

Inductive loop_exit : Type := Break | Continue.

(** Lines 45-62: [for attempt in range(max_retries)]. *)
Fixpoint delete_attempts (attempts : list Z) : M unit :=
  match attempts with
  | [] => mret tt
  | attempt :: rest =>
      exit ← try_except
               (rmtree CHROMA_DB_DIR;;
                print ([0x2705] ++ u " Database deleted");;
                mret Break)
               (fun e =>
                  if is_PermissionError e then
                    Some (if decide (attempt < max_retries - 1) then
                            print (waiting_message attempt);;
                            sleep 1000;;
                            mret Continue
                          else
                            rename_aside e;;
                            mret Continue)
                  else None);
      match exit with
      | Break => mret tt
      | Continue => delete_attempts rest
      end
  end.

(** Lines 38-62. *)
Definition delete_database : M unit :=
  print (nl ++ [0x1F5D1; 0xFE0F] ++ u "  Deleting existing database - starting fresh");;
  gc_collect;;
  sleep 500;;
  delete_attempts (py_range max_retries).

(** Lines 16-64: settles [use_existing_db] and resets the store if asked. *)
Definition choose_mode (use_existing_db : option bool) : M (option bool) :=
  db_exists ← path_exists CHROMA_DB_DIR;
  if (db_exists : bool) then
    use_existing_db ← match use_existing_db with
                      | None => b ← prompt_for_mode; mret (Some b)
                      | Some _ => mret use_existing_db
                      end;
    (if truthy use_existing_db then
       print (nl ++ [0x2705] ++
              u " Keeping existing database - will add new PDF to existing knowledge")
     else delete_database);;
    mret use_existing_db
  else
    print (nl ++ [0x1F4DD] ++ u " No existing database found - creating new one");;
    mret use_existing_db.

(** *** Chunk ids (lines 77-80) *)

Fixpoint compute_chunk_ids (chunks : list Document) : exn + list pystr :=
  match chunks with
  | [] => inr []
  | chunk :: rest =>
      match fingerprint (page_content chunk) with
      | inl e => inl e
      | inr content_hash =>
          match compute_chunk_ids rest with
          | inl e => inl e
          | inr ids => inr (content_hash :: ids)
          end
      end
  end.

(** *** Ingestion (lines 84-120) *)

(** Lines 97-102: the chunks, and their ids, that are not in [existing_ids]. *)
Definition select_new (existing_ids : gset pystr)
           (chunks : list Document) (chunk_ids : list pystr)
  : list Document * list pystr :=
  foldl (fun acc p =>
           if decide (snd p ∉ existing_ids)
           then (fst acc ++ [fst p], snd acc ++ [snd p])
           else acc)
        ([], []) (zip chunks chunk_ids).

(** The local variables of the accumulate branch when it ends. *)
Record IngestReport : Type := mkIngestReport {
  chunks_before : Z;
  existing_ids : gset pystr;
  new_chunks : list Document;
  new_chunk_ids : list pystr;
  duplicates_skipped : Z
}.

(** Lines 91-95: the ids already stored; a failed lookup counts as none. *)
Definition lookup_existing_ids (chunk_ids : list pystr) : M (gset pystr) :=
  try_except
    (existing_data ← collection_get CHROMA_DB_DIR chunk_ids;
     mret (list_to_set existing_data))
    (fun _ => Some (mret ∅)).

Definition duplicates_message (duplicates_skipped : Z) : pystr :=
  [0x23ED; 0xFE0F] ++ u "  " ++ str_int duplicates_skipped ++
  u " duplicate chunks detected (skipping)".

Definition all_exist_message (n : Z) : pystr :=
  [0x23ED; 0xFE0F] ++ u "  All " ++ str_int n ++
  u " chunks already exist in database (skipping)".

(** Lines 85-113. *)
Definition accumulate (chunks : list Document) (chunk_ids : list pystr)
  : M IngestReport :=
  chroma_open CHROMA_DB_DIR;;
  chunks_before ← collection_count CHROMA_DB_DIR;
  existing_ids ← lookup_existing_ids chunk_ids;
  let selected := select_new existing_ids chunks chunk_ids in
  let new_chunks := fst selected in
  let new_chunk_ids := snd selected in
  let duplicates_skipped := len chunks - len new_chunks in
  (match new_chunks with
   | _ :: _ =>
       (if decide (duplicates_skipped > 0) then
          print (duplicates_message duplicates_skipped)
        else mret tt);;
       add_documents CHROMA_DB_DIR new_chunks new_chunk_ids
   | [] => print (all_exist_message (len chunks))
   end);;
  mret (mkIngestReport chunks_before existing_ids new_chunks new_chunk_ids
                       duplicates_skipped).

(** Lines 84-120. *)
Definition ingest (use_existing_db : option bool)
           (chunks : list Document) (chunk_ids : list pystr)
  : M (option IngestReport) :=
  db_exists ← path_exists CHROMA_DB_DIR;
  if db_exists && truthy use_existing_db then
    r ← accumulate chunks chunk_ids; mret (Some r)
  else
    from_documents CHROMA_DB_DIR chunks chunk_ids;;
    mret None.

(** *** Retrieval (lines 130-149) *)

(** [doc.metadata.get('source', '')] *)
Definition source_of (doc : Document) : pystr :=
  default [] (metadata doc !! u "source").

Definition searching_current_message (current_pdf_name : pystr) : pystr :=
  [0x1F50D] ++ u " Searching only current PDF: " ++ current_pdf_name.

Definition no_chunks_message : pystr :=
  [0x26A0; 0xFE0F] ++ u "  No chunks from current PDF found, using all chunks".

(** Lines 131-145. *)
Definition retrieve_current_pdf (pdf_file_path question : pystr)
  : M (list Document) :=
  let current_pdf_name := basename pdf_file_path in
  all_relevant_docs ← retriever_invoke 20 question;
  let relevant_docs :=
    take 5 (filter (fun doc => endswith (source_of doc) current_pdf_name = true)
                   all_relevant_docs) in
  match relevant_docs with
  | _ :: _ =>
      print (searching_current_message current_pdf_name);;
      mret relevant_docs
  | [] =>
      print no_chunks_message;;
      mret (take 5 all_relevant_docs)
  end.

(** Lines 130-149. *)
Definition retrieve (pdf_file_path question : pystr) (filter_by_current_pdf : bool)
  : M (list Document) :=
  if filter_by_current_pdf then retrieve_current_pdf pdf_file_path question
  else
    relevant_docs ← retriever_invoke 5 question;
    print ([0x1F50D] ++ u " Searching all PDFs in database");;
    mret relevant_docs.

(** Lines 151-154: the set of source names. *)
Definition source_set (docs : list Document) : gset pystr :=
  foldl (fun acc doc =>
           match metadata doc !! u "source" with
           | Some s => acc ∪ {[ basename s ]}
           | None => acc
           end) ∅ docs.

Definition regulatory_prompt (intro context question : pystr) : pystr :=
  intro ++ nl ++ nl ++ u "Context:" ++ nl ++ context ++ nl ++ nl ++
  u "Question: " ++ question ++ nl ++ nl ++ u "Answer:".

(** Lines 158-167. *)
Definition current_pdf_prompt (relevant_docs : list Document) (question : pystr)
  : pystr :=
  regulatory_prompt
    (u "Answer the question based only on the following context from a regulatory document:")
    (join (nl ++ nl) (page_content <$> relevant_docs)) question.

(** Lines 216-230. *)
Definition all_pdfs_prompt (relevant_docs : list Document) (question : pystr)
  : pystr :=
  regulatory_prompt
    (u "Answer the question based only on the following context from multiple regulatory documents:")
    (join (nl ++ nl) (page_content <$> relevant_docs)) question.

(** *** legal_analyst_tool (lines 15-172) *)

Definition legal_analyst_tool (pdf_file_path question : pystr)
           (use_existing_db : option bool) (filter_by_current_pdf : bool)
  : M pystr :=
  use_existing_db ← choose_mode use_existing_db;
  documents ← load_pdf pdf_file_path;
  chunks ← split_documents documents;
  print (u "Created " ++ str_int (len chunks) ++ u " chunks from the document");;
  chunk_ids ← lift (compute_chunk_ids chunks);
  new_embeddings;;
  ingest use_existing_db chunks chunk_ids;;
  total_chunks ← collection_count CHROMA_DB_DIR;
  print ([0x1F4CA] ++ u " Total chunks in database: " ++ str_int total_chunks);;
  relevant_docs ← retrieve pdf_file_path question filter_by_current_pdf;
  let source_files := source_set relevant_docs in
  (if decide (source_files = ∅) then mret tt
   else print ([0x1F4C4] ++ u " Sources used: " ++
               join (u ", ") (elements source_files)));;
  llm_invoke (current_pdf_prompt relevant_docs question).

(** *** clear_database (lines 175-182) *)

Definition clear_database : M bool :=
  db_exists ← path_exists CHROMA_DB_DIR;
  if (db_exists : bool) then
    rmtree CHROMA_DB_DIR;;
    print ([0x2705] ++ u " Database cleared: " ++ CHROMA_DB_DIR);;
    mret true
  else
    print ([0x2139; 0xFE0F] ++ u "  No database found at: " ++ CHROMA_DB_DIR);;
    mret false.

(** *** query_all_pdfs (lines 185-238) *)

(** A [dict] from names to counts that keeps its keys in insertion order. *)
Fixpoint dict_get (d : list (pystr * Z)) (key : pystr) (dflt : Z) : Z :=
  match d with
  | [] => dflt
  | (k, v) :: r => if decide (k = key) then v else dict_get r key dflt
  end.

Fixpoint dict_set (d : list (pystr * Z)) (key : pystr) (value : Z)
  : list (pystr * Z) :=
  match d with
  | [] => [(key, value)]
  | (k, v) :: r =>
      if decide (k = key) then (k, value) :: r else (k, v) :: dict_set r key value
  end.

(** Lines 206-210. *)
Definition count_sources (relevant_docs : list Document) : list (pystr * Z) :=
  foldl (fun source_files doc =>
           match metadata doc !! u "source" with
           | Some s =>
               let source_name := basename s in
               dict_set source_files source_name
                        (dict_get source_files source_name 0 + 1)
           | None => source_files
           end) [] relevant_docs.

(** [sum(d.values())] *)
Definition dict_total (d : list (pystr * Z)) : Z :=
  foldr Z.add 0 (snd <$> d).

(** The returned [dict]; [chunk_distribution] is [None] when the key is
    missing. *)
Record QueryResult : Type := mkQueryResult {
  answer : pystr;
  sources : list pystr;
  chunk_distribution : option (list (pystr * Z))
}.

Fixpoint print_each (lines : list pystr) : M unit :=
  match lines with
  | [] => mret tt
  | l :: r => print l;; print_each r
  end.

(** The body of [query_all_pdfs] once the store is known to exist; it hands
    back the retrieved chunks next to the returned [dict]. *)
Definition query_store (question : pystr) (k : nat)
  : M (list Document * QueryResult) :=
  print ([0x1F50D] ++ u " Querying all PDFs in database (retrieving top " ++
         str_int (Z.of_nat k) ++ u " chunks)");;
  new_embeddings;;
  chroma_open CHROMA_DB_DIR;;
  total_chunks ← collection_count CHROMA_DB_DIR;
  print ([0x1F4CA] ++ u " Searching across " ++ str_int total_chunks ++
         u " total chunks");;
  relevant_docs ← retriever_invoke k question;
  let source_files := count_sources relevant_docs in
  print ([0x1F4C4] ++ u " Sources contributing to answer:");;
  print_each ((fun sc => u "   " ++ [0x2022] ++ u " " ++ fst sc ++ u ": " ++
                         str_int (snd sc) ++ u " chunks") <$> source_files);;
  content ← llm_invoke (all_pdfs_prompt relevant_docs question);
  mret (relevant_docs,
        mkQueryResult content (fst <$> source_files) (Some source_files)).

Definition query_all_pdfs_docs (question : pystr) (k : nat)
  : M (list Document * QueryResult) :=
  db_exists ← path_exists CHROMA_DB_DIR;
  if negb db_exists then
    mret ([], mkQueryResult
                (u "No database found. Please process at least one PDF first.")
                [] None)
  else query_store question k.

Definition query_all_pdfs (question : pystr) (k : nat) : M QueryResult :=
  r ← query_all_pdfs_docs question k; mret (snd r).

(** *** get_database_info (lines 241-263) *)

(** One step of [os.walk]: the directory, its sub-directories, and its
    files, each file with what [os.path.getsize] answers for it. *)
Definition WalkEntry : Type := pystr * list pystr * list (pystr * option Z).

Definition is_dir (n : Node) : bool :=
  match n with Dir _ => true | File _ => false end.

Definition file_entries (children : list (pystr * Node)) : list (pystr * option Z) :=
  omap (fun c => match snd c with
                 | File sz => Some (fst c, sz)
                 | Dir _ => None
                 end) children.

Definition dir_names (children : list (pystr * Node)) : list pystr :=
  fst <$> filter (fun c => is_dir (snd c) = true) children.

(** [os.path.join(dirpath, name)] for a relative [name]. *)
Definition path_join (dirpath name : pystr) : pystr :=
  match reverse dirpath with
  | [] => name
  | c :: _ => if decide (c = 47) then dirpath ++ name else dirpath ++ [47] ++ name
  end.

(** [os.walk(top)], top-down. *)
Fixpoint walk (dirpath : pystr) (n : Node) {struct n} : list WalkEntry :=
  match n with
  | File _ => []
  | Dir children =>
      (dirpath, dir_names children, file_entries children) ::
      flat_map (fun c => walk (path_join dirpath (fst c)) (snd c)) children
  end.

(** [os.path.getsize]; what it raises is an [OSError], which line 255
    catches. *)
Definition getsize (file : pystr * option Z) : exn + Z :=
  match snd file with
  | Some n => inr n
  | None => inl (FileNotFoundError (fst file))
  end.

(** Lines 253-256: [try: total_size += os.path.getsize(filepath)]. *)
Definition add_file (total_size : Z) (file : pystr * option Z) : Z :=
  match getsize file with
  | inr n => total_size + n
  | inl _ => total_size
  end.

(** Lines 249-256. *)
Definition total_size_of (entries : list WalkEntry) : Z :=
  foldl (fun total_size entry => foldl add_file total_size (snd entry)) 0 entries.

(** A number of the returned [dict]: an [int], or the [float]
    [round(bytes / (1024 * 1024), 2)], kept as the byte count it comes from. *)
Inductive pynum : Type :=
| PyInt (n : Z)
| PyRoundedMiB (bytes : Z).

Record DatabaseInfo : Type := mkDatabaseInfo {
  info_exists : bool;
  info_total_chunks : Z + pystr;
  info_size_mb : pynum;
  info_path : option pystr
}.

(** [list(os.walk(top))]: nothing when [top] is not a directory. *)
Definition os_walk (top : pystr) : M (list WalkEntry) :=
  w ← get_world;
  mret match fs w !! top with
       | Some store => walk top (tree store)
       | None => []
       end.

Definition get_database_info : M DatabaseInfo :=
  db_exists ← path_exists CHROMA_DB_DIR;
  if negb db_exists then
    mret (mkDatabaseInfo false (inl 0) (PyInt 0) None)
  else
    entries ← os_walk CHROMA_DB_DIR;
    let total_size := total_size_of entries in
    mret (mkDatabaseInfo true (inr (u "Check after loading"))
                         (PyRoundedMiB total_size) (Some CHROMA_DB_DIR)).

(** The sizes of the files below a node that [os.path.getsize] can read. *)
Fixpoint readable_bytes (n : Node) : Z :=
  match n with
  | File (Some sz) => sz
  | File None => 0
  | Dir children =>
      foldr Z.add 0 (map (fun c => readable_bytes (snd c)) children)
  end.

(** *** get_database_chunk_count (lines 266-284) *)

Definition get_database_chunk_count : M (Z + pystr) :=
  db_exists ← path_exists CHROMA_DB_DIR;
  if negb db_exists then mret (inl 0)
  else
    try_except
      (new_embeddings;;
       chroma_open CHROMA_DB_DIR;;
       chunk_count ← collection_count CHROMA_DB_DIR;
       gc_collect;;
       mret (inl chunk_count))
      (fun e => Some (mret (inr (u "Error: " ++ str_exn e)))).

(** ** Reading a trace *)

(** The events a run added to the trace of the world it started from. *)
Definition new_events (before after : World) : list Event :=
  drop (length (trace before)) (trace after).

(** The batches handed to the store for insertion. *)
Definition insert_calls (t : list Event) : list (list Document * list pystr) :=
  omap (fun e => match e with
                 | AddDocuments d i | FromDocuments d i => Some (d, i)
                 | _ => None
                 end) t.

Definition rmtree_calls (t : list Event) : list pystr :=
  omap (fun e => match e with Rmtree p => Some p | _ => None end) t.

Definition rename_calls (t : list Event) : list (pystr * pystr) :=
  omap (fun e => match e with Rename s d => Some (s, d) | _ => None end) t.

Definition sleeps (t : list Event) : list Z :=
  omap (fun e => match e with Sleep ms => Some ms | _ => None end) t.

Definition searches (t : list Event) : list (nat * pystr) :=
  omap (fun e => match e with Search k q => Some (k, q) | _ => None end) t.

(** [doc.metadata] has the key ['source']. *)
Definition has_source (doc : Document) : Prop := is_Some (metadata doc !! u "source").

(** The bytes [os.walk] finds under a path: none when it is a plain file. *)
Definition bytes_under (n : Node) : Z :=
  match n with
  | File _ => 0
  | Dir _ => readable_bytes n
  end.

(** The ids a lookup that returns finds in the store [st]. *)
Definition found_ids (st : Store) (chunk_ids : list pystr) : gset pystr :=
  list_to_set (filter (fun i => is_Some (entries st !! i)) chunk_ids).

(** What the accumulate branch reports for a store [st] and the set
    [existing] that the lookup gave. *)
Definition report_for (st : Store) (existing : gset pystr)
           (chunks : list Document) (chunk_ids : list pystr) : IngestReport :=
  let selected := select_new existing chunks chunk_ids in
  mkIngestReport (Z.of_nat (size (entries st))) existing
                 (fst selected) (snd selected) (len chunks - len (fst selected)).

(** ** What reaches the caller *)

(** The chunks lines 130-149 pass on when the search returns. *)
Definition retrieved (w : World) (pdf_file_path question : pystr)
           (filter_by_current_pdf : bool) : list Document :=
  if filter_by_current_pdf then
    let pool := take 20 (ranking w question) in
    match filter (fun doc => endswith (source_of doc) (basename pdf_file_path) = true)
                 pool with
    | [] => take 5 pool
    | m :: ms => take 5 (m :: ms)
    end
  else take 5 (ranking w question).

(** The exception with which an insert of the batch [ids] ends, if any: the
    failure the world has in store for it, or else the one chromadb raises
    for the batch. *)
Definition write_failure (w : World) (ids : list pystr) : option exn :=
  match write_fault (faults w) with
  | Some e => Some e
  | None => validate_ids ids
  end.

(** The exception with which the ingestion of lines 84-120 ends, if any:
    the store does not open, or the insert fails.  The membership lookup
    only decides whether there is anything to insert. *)
Definition ingest_failure (w : World) (use_existing_db : option bool)
           (chunks : list Document) (chunk_ids : list pystr) : option exn :=
  let fresh := match open_fault (faults w) with
               | Some e => Some e
               | None => write_failure w chunk_ids
               end in
  match fs w !! CHROMA_DB_DIR with
  | Some st =>
      if truthy use_existing_db then
        match open_fault (faults w) with
        | Some e => Some e
        | None =>
            let r := report_for st
                       match get_fault (faults w) with
                       | Some _ => ∅
                       | None => found_ids st chunk_ids
                       end chunks chunk_ids in
            match new_chunks r with
            | [] => None
            | _ :: _ => write_failure w (new_chunk_ids r)
            end
        end
      else fresh
  | None => fresh
  end.

(** What [legal_analyst_tool] returns or raises once lines 16-64 have
    settled the mode: the first failure met on the way (loading the
    document, encoding a chunk, creating the embedding client, ingesting,
    searching, asking the model), otherwise the answer of the model. *)
Definition outcome_after_mode (w : World) (use_existing_db : option bool)
           (pdf_file_path question : pystr) (filter_by_current_pdf : bool)
  : exn + pystr :=
  match pdf_loader w pdf_file_path with
  | inl e => inl e
  | inr documents =>
      let chunks := text_splitter w documents in
      match compute_chunk_ids chunks with
      | inl e => inl e
      | inr chunk_ids =>
          match embeddings_fault (faults w) with
          | Some e => inl e
          | None =>
              match ingest_failure w use_existing_db chunks chunk_ids with
              | Some e => inl e
              | None =>
                  match search_fault (faults w) with
                  | Some e => inl e
                  | None =>
                      llm w (current_pdf_prompt
                               (retrieved w pdf_file_path question
                                          filter_by_current_pdf)
                               question)
                  end
              end
          end
      end
  end.

(** Two worlds that answer alike: same faults in store, same similarity
    order, same language model. *)
Definition same_oracles (w w' : World) : Prop :=
  faults w' = faults w /\ ranking w' = ranking w /\ llm w' = llm w.

(** ** Sample worlds, used to run the model *)

Module Sample.

Definition no_faults : Faults := mkFaults [] None None None None None None.

Definition quiet_world : World :=
  mkWorld ∅ 1700000000123 no_faults []
          (fun _ => inr []) (fun d => d) (fun _ => []) (fun _ => inr (u "ok")) [].

Definition doc (content src : string) : Document :=
  mkDocument (u content) {[ u "source" := u src ]}.

Definition files : Node :=
  Dir [(u "chroma.sqlite3", File (Some 4096));
       (u "index", Dir [(u "data.bin", File (Some 100)); (u "gone", File None)])].

Definition with_store (s : Store) (w : World) : World :=
  set_fs (insert CHROMA_DB_DIR s) w.

Definition with_faults (f : Faults) (w : World) : World :=
  mkWorld (fs w) (clock_ms w) f (stdin w) (pdf_loader w)
          (text_splitter w) (ranking w) (llm w) (trace w).

Definition with_ranking (r : list Document) (w : World) : World :=
  mkWorld (fs w) (clock_ms w) (faults w) (stdin w) (pdf_loader w)
          (text_splitter w) (fun _ => r) (llm w) (trace w).

Definition locked : exn :=
  PermissionError (u "[WinError 32] The process cannot access the file").

(** The id line 80 gives a chunk. *)
Definition id_of (d : Document) : pystr :=
  match fingerprint (page_content d) with
  | inr h => h
  | inl _ => []
  end.

Definition chunk_a : Document := doc "alpha clause" "docs/a.pdf".
Definition chunk_b : Document := doc "beta clause" "docs/a.pdf".

Definition stored_a : Store := mkStore files {[ id_of chunk_a := chunk_a ]}.

Definition stored_ab : Store :=
  mkStore files {[ id_of chunk_a := chunk_a; id_of chunk_b := chunk_b ]}.

Definition locked_thrice : Faults :=
  mkFaults [(locked, stored_a); (locked, stored_a); (locked, stored_a)]
           None None None None None None.

Definition locked_for_good : Faults :=
  mkFaults [(locked, stored_a); (locked, stored_a); (locked, stored_a)]
           (Some locked) None None None None None.

(** A chunk whose metadata has no ['source']. *)
Definition anonymous : Document := mkDocument (u "no source") ∅.

(** A language model that answers with the prompt it was given, and a
    document of one chunk. *)
Definition echo_world : World :=
  mkWorld ∅ 1700000000123 no_faults []
          (fun _ => inr [chunk_a]) (fun d => d) (fun _ => []) (fun p => inr p) [].

(** A loader that reads the same two chunks from any path. *)
Definition reading_world : World :=
  mkWorld ∅ 1700000000123 no_faults []
          (fun _ => inr [chunk_a; chunk_b]) (fun d => d)
          (fun _ => [chunk_a; chunk_b]) (fun _ => inr (u "ok")) [].

Definition lookup_broken : Faults :=
  mkFaults [] None None None (Some (Exception_ (u "lookup failed"))) None None.

(** The same text on two pages. *)
Definition page1 : Document :=
  mkDocument (u "Confidential") {[ u "source" := u "docs/a.pdf"; u "page" := u "1" ]}.
Definition page2 : Document :=
  mkDocument (u "Confidential") {[ u "source" := u "docs/a.pdf"; u "page" := u "2" ]}.

(** A document that has the same text on its two pages, each page a chunk. *)
Definition repeating_world : World :=
  mkWorld ∅ 1700000000123 no_faults []
          (fun _ => inr [page1; page2]) (fun d => d)
          (fun _ => [page1; page2]) (fun _ => inr (u "ok")) [].

End Sample.

(** ** What a run of legal_tool.py leaves alone *)

(** An event that leaves the store directory where it is. *)
Definition keeps_directory (e : Event) : Prop :=
  match e with
  | Rmtree _ | Rename _ _ => False
  | _ => True
  end.

Definition reads_only (e : Event) : Prop :=
  match e with
  | Rmtree _ | Rename _ _ | AddDocuments _ _ | FromDocuments _ _ => False
  | _ => True
  end.

(** The run from [w] to [w'] added only events of the kind [P]. *)
Definition adds_only (P : Event -> Prop) (w w' : World) : Prop :=
  exists evs, trace w' = trace w ++ evs /\ Forall P evs.

(** Every path that was there is still there. *)
Definition paths_kept (f f' : gmap pystr Store) : Prop :=
  forall p, is_Some (f !! p) -> is_Some (f' !! p).

(** From [w] to [w'] nothing was read from the console, the files changed
    within [F], and only events of the kind [P] were added. *)
Definition evolves (P : Event -> Prop) (F : relation (gmap pystr Store))
           (w w' : World) : Prop :=
  stdin w' = stdin w /\ F (fs w) (fs w') /\ adds_only P w w'.

Definition undisturbed : relation World := evolves keeps_directory paths_kept.
Definition unasked : relation World := evolves (fun _ => True) (fun _ _ => True).

(** Whatever the world and whether it returns or raises, [m] moves the
    world within [R]. *)
Definition steps (R : relation World) {A : Type} (m : M A) : Prop :=
  forall w, R w (snd (m w)).

Definition ask_message : pystr := nl ++ u "Keep existing database? (Y/N): ".

Definition please_message : pystr := [0x26A0; 0xFE0F] ++ u "  Please enter Y or N".

Definition banner : list Event :=
  [Print (nl ++ replicate 80 61);
   Print ([0x1F4C1] ++ u " EXISTING DATABASE DETECTED");
   Print (replicate 80 61);
   Print (nl ++ u "A ChromaDB database already exists at: " ++ CHROMA_DB_DIR);
   Print (nl ++ u "Options:");
   Print (u "  [Y] Keep existing data (accumulate PDFs - like chat memory)");
   Print (u "  [N] Delete and start fresh (analyze only this PDF)")].

(** Line 30: the answer is one of the two the loop waits for. *)
Definition accepts (line : pystr) : Prop :=
  upper (strip line) ∈ [u "Y"; u "N"].

Definition is_yes (line : pystr) : bool :=
  bool_decide (upper (strip line) = u "Y").

(** What the console shows for answers the loop does not accept. *)
Definition refusals (bad : list pystr) : list Event :=
  bad ≫= (fun _ => [Print ask_message; Print please_message]).

Definition space (c : Z) : Prop := is_space c = true.

(** A text with no white space at either end. *)
Definition trimmed (s : pystr) : Prop :=
  (forall c, head s = Some c -> ~ space c) /\ (forall c, last s = Some c -> ~ space c).

(** Whatever the world, the first events [m] adds to the trace are [pre]. *)
Definition starts_with (pre : list Event) {A : Type} (m : M A) : Prop :=
  forall w, exists evs, trace (snd (m w)) = trace w ++ pre ++ evs.

Definition deleting_message : pystr :=
  nl ++ [0x1F5D1; 0xFE0F] ++ u "  Deleting existing database - starting fresh".

(** A deletion failure that the loop of lines 45-62 retries. *)
Definition is_lock (f : exn * Store) : Prop := is_PermissionError (fst f) = true.

(** The first failure, if any, that [legal_analyst_tool] meets between
    settling the mode and touching the store (lines 66-82): loading the
    document, encoding a chunk, creating the embedding client. *)
Definition fails_before_ingest (w : World) (pdf_file_path : pystr) : option exn :=
  match pdf_loader w pdf_file_path with
  | inl e => Some e
  | inr documents =>
      match compute_chunk_ids (text_splitter w documents) with
      | inl e => Some e
      | inr _ => embeddings_fault (faults w)
      end
  end.

Definition is_print (e : Event) : Prop :=
  match e with Print _ => True | _ => False end.

(** The files are as they were. *)
Definition files_same : relation World := evolves (fun _ => True) eq.

(** The world after a fresh-mode reset that deletes the store at the first
    attempt (lines 38-49). *)
Definition after_fresh_reset (w : World) : World :=
  log (Print ([0x2705] ++ u " Database deleted"))
      (set_fs (delete CHROMA_DB_DIR)
              (log (Rmtree CHROMA_DB_DIR)
                   (log (Sleep 500)
                        (set_clock (Z.add 500)
                                   (log GcCollect
                                        (log (Print deleting_message) w)))))).

(** ** More of query_all_pdfs (lines 185-238) *)

(** The chunk comes from the file called [name]. *)
Definition from_file (name : pystr) (doc : Document) : Prop :=
  basename <$> (metadata doc !! u "source") = Some name.

#[export] Instance from_file_dec (name : pystr) (doc : Document) :
  Decision (from_file name doc).
Proof. unfold from_file. apply _. Defined.

(** The line printed for one entry of the source counts (line 214). *)
Definition source_line (sc : pystr * Z) : pystr :=
  u "   " ++ [0x2022] ++ u " " ++ fst sc ++ u ": " ++ str_int (snd sc) ++ u " chunks".

(** Everything a query of all documents does when nothing fails, in
    order. *)
Definition query_script (w : World) (question : pystr) (k : nat) : list Event :=
  let docs := take k (ranking w question) in
  [Print ([0x1F50D] ++ u " Querying all PDFs in database (retrieving top " ++
          str_int (Z.of_nat k) ++ u " chunks)");
   Print ([0x1F4CA] ++ u " Searching across " ++
          str_int (Z.of_nat (size (collection_at CHROMA_DB_DIR w))) ++
          u " total chunks");
   Search k question;
   Print ([0x1F4C4] ++ u " Sources contributing to answer:")] ++
  (Print <$> (source_line <$> count_sources docs)) ++
  [LlmInvoke (all_pdfs_prompt docs question)].

(** What [query_all_pdfs] answers when there is no store (lines 186-190). *)
Definition no_database_answer : QueryResult :=
  mkQueryResult (u "No database found. Please process at least one PDF first.")
                [] None.

(** * main.py: the orchestrator *)

Module Orchestrator.

(** The exceptions main.py tells apart, by class.  [FromTool] carries what
    the code of legal_tool.py raises; [cause] is the [__cause__] that
    [raise ... from ...] sets. *)
#[local] Set Warnings "-register-all".
Inductive pyexn : Type :=
| FromTool (e : exn)
| ValueError (msg : pystr) (cause : option pyexn)
| JSONDecodeError (msg : pystr)
| RuntimeError (msg : pystr) (cause : option pyexn)
| OtherException (msg : pystr)
| KeyboardInterrupt
| SystemExit (code : Z).
#[local] Set Warnings "register-all".

(** [str(e)] *)
Definition str_pyexn (e : pyexn) : pystr :=
  match e with
  | FromTool e => str_exn e
  | ValueError m _ | JSONDecodeError m | RuntimeError m _ | OtherException m => m
  | KeyboardInterrupt => []
  | SystemExit code => str_int code
  end.

(** [isinstance(e, ValueError)]: [json.JSONDecodeError] is a subclass of
    [ValueError]; for an exception of legal_tool.py, see [is_ValueError]
    there. *)
Definition is_ValueError (e : pyexn) : bool :=
  match e with
  | ValueError _ _ | JSONDecodeError _ => true
  | FromTool e => is_ValueError e
  | _ => false
  end.

Definition is_RuntimeError (e : pyexn) : bool :=
  match e with RuntimeError _ _ => true | _ => false end.

Definition is_JSONDecodeError (e : pyexn) : bool :=
  match e with JSONDecodeError _ => true | _ => false end.

(** [isinstance(e, Exception)]: all but the [BaseException]s that are not
    [Exception]s. *)
Definition is_Exception (e : pyexn) : bool :=
  match e with
  | KeyboardInterrupt | SystemExit _ => false
  | _ => true
  end.

Definition IO (A : Type) : Type := World -> (pyexn + A) * World.

#[export] Instance IO_ret : MRet IO := fun A a w => (inr a, w).

#[export] Instance IO_bind : MBind IO := fun A B f m w =>
  match m w with
  | (inl e, w') => (inl e, w')
  | (inr a, w') => f a w'
  end.

Definition raise {A : Type} (e : pyexn) : IO A := fun w => (inl e, w).

Definition try_except {A : Type} (body : IO A) (handler : pyexn -> option (IO A))
  : IO A :=
  fun w =>
    match body w with
    | (inl e, w') =>
        match handler e with
        | Some h => h w'
        | None => (inl e, w')
        end
    | r => r
    end.

Definition lift {A : Type} (r : pyexn + A) : IO A := fun w => (r, w).

Definition print (line : pystr) : IO unit := fun w => (inr tt, log (Print line) w).

(** Code of legal_tool.py, run from main.py. *)
Definition from_tool {A : Type} (m : M A) : IO A := fun w =>
  match m w with
  | (inl e, w') => (inl (FromTool e), w')
  | (inr a, w') => (inr a, w')
  end.

Definition brief_question : pystr :=
  u "Create a concise, bullet-pointed technical brief for a developer. This brief should list the key compliance requirements from this document that can be checked in a codebase.".

(** The returned [dict]: what [json.loads] gave, or [{'raw_output': ...}]. *)
Inductive report (json : Type) : Type :=
| Parsed (value : json)
| RawOutput (violations_json : pystr).

Arguments Parsed {json} value.
Arguments RawOutput {json} violations_json.

Section Tools.

(** What main.py imports: the two tools of contracts.py, the [json]
    module, and the constructor of the language-model client. *)
Variable legal_analyst_tool : pystr -> pystr -> IO pystr.
Variable code_auditor_agent : pystr -> pystr -> IO pystr.
Variable json : Type.
Variable json_loads : pystr -> pyexn + json.
Variable json_dumps : report json -> pystr.
Variable GoogleGenerativeAI : pystr -> IO unit.

(** Lines 10-13, run when the module is loaded; [api_key] is
    [os.getenv("GOOGLE_API_KEY")]. *)
Definition module_init (api_key : option pystr) : IO unit :=
  match api_key with
  | Some (c :: key) => GoogleGenerativeAI (c :: key)
  | _ => raise (ValueError (u "Please set the GOOGLE_API_KEY environment variable")
                           None)
  end.

(** Lines 15-25. *)
Definition orchestrate_compliance_check (regulation_pdf repository_url : pystr)
  : IO pystr :=
  print (nl ++ u "=== STEP 1: Analyzing Regulatory Document ===");;
  let question := brief_question in
  technical_brief ← legal_analyst_tool regulation_pdf question;
  print (u "Technical Brief:" ++ nl ++ technical_brief ++ nl);;
  print (nl ++ u "=== STEP 2: Auditing Code Repository ===");;
  violations ← code_auditor_agent repository_url technical_brief;
  print (u "Violations Found:" ++ nl ++ violations ++ nl);;
  mret violations.

(** Lines 27-40. *)
Definition run_compliance_audit (regulation_pdf repository_url : pystr)
  : IO (report json) :=
  try_except
    (violations_json ← orchestrate_compliance_check regulation_pdf repository_url;
     try_except
       (value ← lift (json_loads violations_json); mret (Parsed value))
       (fun e => if is_JSONDecodeError e
                 then Some (mret (RawOutput violations_json))
                 else None))
    (fun e =>
       if is_ValueError e then
         Some (raise (ValueError (u "Configuration error: " ++ str_pyexn e) (Some e)))
       else if is_Exception e then
         Some (raise (RuntimeError (u "Error during compliance audit: " ++ str_pyexn e)
                                   (Some e)))
       else None).

(** Lines 42-52. *)
Definition main : IO unit :=
  let regulation_pdf :=
    u "C:\Users\Karthik Sagar P\OneDrive\Desktop\GuardianAI\sample_regulation.pdf" in
  let repository_url := u "https://github.com/your-repo/to-audit" in
  try_except
    (report ← run_compliance_audit regulation_pdf repository_url;
     print (nl ++ u "Final Compliance Report:");;
     print (json_dumps report))
    (fun e =>
       if is_ValueError e || is_RuntimeError e then
         Some (print (u "Error: " ++ str_pyexn e);; raise (SystemExit 1))
       else None).

(** [python main.py]: the module is loaded, then its [__main__] block runs. *)
Definition script (api_key : option pystr) : IO unit :=
  module_init api_key;; main.

End Tools.

(** How [run_compliance_audit] passes on a failure [e] of its body: wrapped
    by class, or as it is when it is no [Exception]. *)
Definition passed_on (e : pyexn) : pyexn :=
  if is_ValueError e then
    ValueError (u "Configuration error: " ++ str_pyexn e) (Some e)
  else if is_Exception e then
    RuntimeError (u "Error during compliance audit: " ++ str_pyexn e) (Some e)
  else e.

End Orchestrator.

(** Tools to run main.py with: the analyst of legal_tool.py with its
    default arguments, an auditor that answers with a fixed text, and a
    [json] module that knows the empty list only. *)
Module OrchestratorSample.

Definition analyst (pdf_file_path question : pystr) : Orchestrator.IO pystr :=
  Orchestrator.from_tool (legal_analyst_tool pdf_file_path question None true).

Definition auditor (reply : pystr) (repo_url technical_brief : pystr)
  : Orchestrator.IO pystr :=
  fun w => (inr reply, w).

Definition json_loads (s : pystr) : Orchestrator.pyexn + list pystr :=
  if decide (s = u "[]") then inr []
  else inl (Orchestrator.JSONDecodeError (u "Expecting value: line 1 column 1 (char 0)")).

Definition json_dumps (r : Orchestrator.report (list pystr)) : pystr :=
  match r with
  | Orchestrator.Parsed _ => u "[]"
  | Orchestrator.RawOutput s => u "{raw_output}"
  end.

Definition client (api_key : pystr) : Orchestrator.IO unit :=
  fun w => (inr tt, w).

(** A document whose only chunk holds a lone surrogate. *)
Definition broken_text_world : World :=
  mkWorld ∅ 1700000000123 Sample.no_faults []
          (fun _ => inr [mkDocument [0xD800] ∅]) (fun d => d) (fun _ => [])
          (fun _ => inr (u "ok")) [].

(** No file at the path: the loader raises a [ValueError]. *)
Definition missing_file_world : World :=
  mkWorld ∅ 1700000000123 Sample.no_faults []
          (fun path => inl (ValueError
                              (u "File path " ++ path ++ u " is not a valid file or url")))
          (fun d => d) (fun _ => []) (fun _ => inr (u "ok")) [].

(** A store that cannot be opened. *)
Definition locked_out_world : World :=
  mkWorld ∅ 1700000000123
          (mkFaults [] None None
                    (Some (PermissionError (u "[Errno 13] Permission denied: './chroma_db'")))
                    None None None)
          []
          (fun _ => inr [Sample.chunk_a]) (fun d => d) (fun _ => [])
          (fun _ => inr (u "ok")) [].

End OrchestratorSample.

(** * Properties *)

(** ** Running monadic code *)

Lemma run_bind {A B : Type} (m : M A) (f : A -> M B) (w : World) :
  (m ≫= f) w =
  match m w with
  | (inl e, w') => (inl e, w')
  | (inr a, w') => f a w'
  end.
Proof. reflexivity. Qed.

Lemma run_ret {A : Type} (a : A) (w : World) : (mret a : M A) w = (inr a, w).
Proof. reflexivity. Qed.

Lemma run_print (line : pystr) (w : World) : print line w = (inr tt, log (Print line) w).
Proof. reflexivity. Qed.

Lemma run_path_exists (p : pystr) (w : World) :
  path_exists p w = (inr (bool_decide (is_Some (fs w !! p))), w).
Proof. reflexivity. Qed.

Lemma run_rmtree_ok (p : pystr) (w : World) (s : Store) :
  fs w !! p = Some s -> rmtree_script (faults w) = [] ->
  rmtree p w = (inr tt, set_fs (delete p) (log (Rmtree p) w)).
Proof. intros Hs Hf. unfold rmtree. simpl. rewrite Hs, Hf. reflexivity. Qed.

Lemma run_rmtree_fail (p : pystr) (w : World) (s residue : Store) (e : exn)
      (rest : list (exn * Store)) :
  fs w !! p = Some s -> rmtree_script (faults w) = (e, residue) :: rest ->
  rmtree p w =
  (inl e, set_rmtree_script rest (set_fs (insert p residue) (log (Rmtree p) w))).
Proof. intros Hs Hf. unfold rmtree. simpl. rewrite Hs, Hf. reflexivity. Qed.

(** ** clear_database *)

(** C10, amended: [clear_database] returns [False] and touches no file when
    the store directory is absent; when it is present and [shutil.rmtree]
    succeeds the directory is gone and [True] is returned; when
    [shutil.rmtree] raises, the exception reaches the caller and the path
    still exists. *)
Theorem clear_database_spec (w : World) :
  match fs w !! CHROMA_DB_DIR with
  | None =>
      fst (clear_database w) = inr false /\
      fs (snd (clear_database w)) = fs w
  | Some s =>
      match rmtree_script (faults w) with
      | [] =>
          fst (clear_database w) = inr true /\
          fs (snd (clear_database w)) = delete CHROMA_DB_DIR (fs w)
      | (e, residue) :: _ =>
          fst (clear_database w) = inl e /\
          fs (snd (clear_database w)) !! CHROMA_DB_DIR = Some residue
      end
  end.
Proof.
  unfold clear_database.
  rewrite run_bind, run_path_exists.
  destruct (fs w !! CHROMA_DB_DIR) as [s|] eqn:Hs.
  - rewrite bool_decide_eq_true_2 by eauto.
    rewrite run_bind.
    destruct (rmtree_script (faults w)) as [|[e residue] rest] eqn:Hf.
    + rewrite (run_rmtree_ok _ _ _ Hs Hf). split; reflexivity.
    + rewrite (run_rmtree_fail _ _ _ _ _ _ Hs Hf). split; [reflexivity|].
      simpl. apply lookup_insert_eq.
  - rewrite bool_decide_eq_false_2 by (intros [? ?]; discriminate).
    split; reflexivity.
Qed.

(** C10 as stated fails: the store directory exists, another process holds a
    file in it, [shutil.rmtree] raises [PermissionError], and
    [clear_database] returns nothing. *)
Lemma clear_database_locked_raises :
  let w := Sample.with_faults
             (mkFaults [(Sample.locked, mkStore Sample.files ∅)]
                       None None None None None None)
             (Sample.with_store (mkStore Sample.files ∅) Sample.quiet_world) in
  is_Some (fs w !! CHROMA_DB_DIR) /\
  fst (clear_database w) = inl Sample.locked /\
  is_Some (fs (snd (clear_database w)) !! CHROMA_DB_DIR).
Proof.
  split; [|split].
  - vm_compute. eauto.
  - vm_compute. reflexivity.
  - vm_compute. eauto.
Qed.

(** ** Content fingerprint *)

Section FingerprintFacts.

Lemma encode_char_scalar (c : Z) :
  scalar_value c <-> exists bs, Utf8.encode_char c = Some bs.
Proof.
  unfold scalar_value, Utf8.encode_char. split.
  - intros [Hr Hs]. repeat case_decide; eauto; lia.
  - intros [bs H]. repeat case_decide; try discriminate; lia.
Qed.

Lemma encode_from_scalar (s : pystr) (pos : nat) :
  Forall scalar_value s <-> exists bytes, Utf8.encode_from pos s = inr bytes.
Proof.
  revert pos. induction s as [|c r IH]; intros pos; simpl.
  - split; eauto.
  - split.
    + intros H. inversion H as [|? ? Hc Hr]; subst.
      apply encode_char_scalar in Hc as [bs ->].
      apply (IH (S pos)) in Hr as [rest ->]. eauto.
    + intros [bytes H].
      destruct (Utf8.encode_char c) as [bs|] eqn:Hc; [|discriminate].
      destruct (Utf8.encode_from (S pos) r) as [e|rest] eqn:Hr; [discriminate|].
      constructor.
      * apply encode_char_scalar. eauto.
      * apply (IH (S pos)). eauto.
Qed.

Lemma encode_scalar (s : pystr) :
  Forall scalar_value s <-> exists bytes, Utf8.encode s = inr bytes.
Proof. apply encode_from_scalar. Qed.

Lemma nibble_range (x : Z) : 0 <= Z.land x 0xF < 16.
Proof.
  change 0xF with (Z.ones 4). rewrite Z.land_ones by lia.
  apply Z.mod_pos_bound. lia.
Qed.

Lemma hex_digit_is_hex (n : Z) : 0 <= n < 16 -> is_hex_char (Sha256.hex_digit n).
Proof. unfold is_hex_char, Sha256.hex_digit. intros H. case_decide; lia. Qed.

Lemma hex8_length (w : Z) : length (Sha256.hex8 w) = 8%nat.
Proof. reflexivity. Qed.

Lemma hex8_is_hex (w : Z) : Forall is_hex_char (Sha256.hex8 w).
Proof.
  unfold Sha256.hex8. apply Forall_fmap, Forall_forall. intros i _. simpl.
  apply hex_digit_is_hex, nibble_range.
Qed.

Lemma hexdigest_length (msg : list Z) : length (Sha256.hexdigest msg) = 64%nat.
Proof. unfold Sha256.hexdigest. rewrite !length_app, !hex8_length. reflexivity. Qed.

Lemma hexdigest_is_hex (msg : list Z) : Forall is_hex_char (Sha256.hexdigest msg).
Proof. unfold Sha256.hexdigest. rewrite !Forall_app. auto 10 using hex8_is_hex. Qed.

End FingerprintFacts.

Example round_constants :
  length Sha256.K = 64%nat /\
  take 4 Sha256.K = [0x428a2f98; 0x71374491; 0xb5c0fbcf; 0xe9b5dba5] /\
  last Sha256.K = Some 0xc67178f2 /\
  Sha256.wa Sha256.H0 = 0x6a09e667 /\ Sha256.wh Sha256.H0 = 0x5be0cd19.
Proof. vm_compute. repeat split; reflexivity. Qed.

Example sha256_empty :
  Sha256.hexdigest [] =
  u "e3b0c44298fc1c149afbf4c8996fb92427ae41e4649b934ca495991b7852b855".
Proof. vm_compute. reflexivity. Qed.

Example sha256_abc :
  Sha256.hexdigest [97; 98; 99] =
  u "ba7816bf8f01cfea414140de5dae2223b00361a396177a9cb410ff61f20015ad".
Proof. vm_compute. reflexivity. Qed.

Example sha256_two_blocks :
  Sha256.hexdigest (u "abcdbcdecdefdefgefghfghighijhijkijkljklmklmnlmnomnopnopq") =
  u "248d6a61d20638b8e5c026930c3e6039a33ce45964ff2167f6ecedd419db06c1".
Proof. vm_compute. reflexivity. Qed.

Example utf8_samples :
  Utf8.encode [0x24; 0xA3; 0x20AC; 0x10348] =
  inr [0x24; 0xC2; 0xA3; 0xE2; 0x82; 0xAC; 0xF0; 0x90; 0x8D; 0x88].
Proof. vm_compute. reflexivity. Qed.

Example fingerprint_empty : fingerprint [] = inr (u "e3b0c44298fc1c14").
Proof. vm_compute. reflexivity. Qed.

Example fingerprint_abc : fingerprint (u "abc") = inr (u "ba7816bf8f01cfea").
Proof. vm_compute. reflexivity. Qed.

(** C3, amended: the fingerprint of a chunk text is defined exactly when the
    text holds no surrogate code point (the empty text included); it is then
    the first 16 characters of the hexadecimal SHA-256 digest of the UTF-8
    encoding of the text: 16 characters, each one of 0-9 or a-f.  Being a
    function of the text alone, it gives equal texts equal fingerprints. *)
Theorem fingerprint_spec (s : pystr) :
  (Forall scalar_value s <-> exists fp, fingerprint s = inr fp) /\
  (forall fp, fingerprint s = inr fp ->
     exists bytes, Utf8.encode s = inr bytes /\
       fp = take 16 (Sha256.hexdigest bytes) /\
       length fp = 16%nat /\ Forall is_hex_char fp).
Proof.
  unfold fingerprint. split.
  - rewrite encode_scalar. split.
    + intros [bytes ->]. eauto.
    + intros [fp H]. destruct (Utf8.encode s); [discriminate|eauto].
  - intros fp H. destruct (Utf8.encode s) as [e|bytes]; [discriminate|].
    assert (Hfp : fp = take 16 (Sha256.hexdigest bytes)) by congruence.
    clear H. subst fp. exists bytes.
    split; [reflexivity|]. split; [reflexivity|]. split.
    + rewrite length_take, hexdigest_length. reflexivity.
    + apply Forall_take, hexdigest_is_hex.
Qed.

(** C3 as stated fails: a Python string may hold a lone surrogate, and
    [str.encode()] then raises [UnicodeEncodeError] before any digest is
    taken. *)
Lemma fingerprint_surrogate_raises :
  fingerprint [0xD800] =
  inl (UnicodeEncodeError
         (u "'utf-8' codec can't encode character '\ud800' in position 0: surrogates not allowed")).
Proof. vm_compute. reflexivity. Qed.

(** The text of the error is the one Python gives: the code point when one
    surrogate stands alone, the positions of the whole run otherwise. *)
Example encode_error_text :
  Utf8.encode (u "ab" ++ [0xDFFF] ++ u "cd") =
    inl (UnicodeEncodeError
           (u "'utf-8' codec can't encode character '\udfff' in position 2: surrogates not allowed")) /\
  Utf8.encode [0xDC80; 0xDC81; 0xDC82] =
    inl (UnicodeEncodeError
           (u "'utf-8' codec can't encode characters in position 0-2: surrogates not allowed")) /\
  Utf8.encode [120; 0xD800; 121; 0xDC00] =
    inl (UnicodeEncodeError
           (u "'utf-8' codec can't encode character '\ud800' in position 1: surrogates not allowed")).
Proof. vm_compute. repeat split; reflexivity. Qed.

(** ** Ingestion *)

Section IngestFacts.

Lemma new_events_app (w w' : World) (evs : list Event) :
  trace w' = trace w ++ evs -> new_events w w' = evs.
Proof. intros H. unfold new_events. rewrite H. apply drop_app_length. Qed.

Lemma filter_ext_elem {A : Type} (P Q : A -> Prop)
      `{forall x, Decision (P x)} `{forall x, Decision (Q x)} (l : list A) :
  (forall x, x ∈ l -> P x <-> Q x) -> filter P l = filter Q l.
Proof.
  induction l as [|a l IH]; intros Hl; [reflexivity|].
  rewrite !filter_cons.
  assert (filter P l = filter Q l) as ->.
  { apply IH. intros x Hx. apply Hl. by right. }
  assert (Ha : P a <-> Q a) by (apply Hl; by left).
  destruct (decide (P a)), (decide (Q a)); tauto || reflexivity.
Qed.

Lemma select_new_from (existing : gset pystr) (pairs : list (Document * pystr))
      (acc : list Document * list pystr) :
  foldl (fun acc p =>
           if decide (snd p ∉ existing)
           then (fst acc ++ [fst p], snd acc ++ [snd p])
           else acc) acc pairs =
  (fst acc ++ (filter (fun p => snd p ∉ existing) pairs).*1,
   snd acc ++ (filter (fun p => snd p ∉ existing) pairs).*2).
Proof.
  revert acc. induction pairs as [|p pairs IH]; intros [a b]; simpl.
  - by rewrite !app_nil_r.
  - rewrite IH, filter_cons. destruct (decide (p.2 ∉ existing)); simpl.
    + by rewrite <- !app_assoc.
    + reflexivity.
Qed.

(** The loop of lines 97-102 is a filter over the chunks paired with their
    ids. *)
Lemma select_new_filter (existing : gset pystr)
      (chunks : list Document) (chunk_ids : list pystr) :
  select_new existing chunks chunk_ids =
  ((filter (fun p => snd p ∉ existing) (zip chunks chunk_ids)).*1,
   (filter (fun p => snd p ∉ existing) (zip chunks chunk_ids)).*2).
Proof. unfold select_new. by rewrite select_new_from. Qed.

Lemma compute_chunk_ids_length (chunks : list Document) (chunk_ids : list pystr) :
  compute_chunk_ids chunks = inr chunk_ids -> length chunk_ids = length chunks.
Proof.
  revert chunk_ids. induction chunks as [|c r IH]; intros ids H; simpl in H.
  - by injection H as <-.
  - destruct (fingerprint (page_content c)); [discriminate|].
    destruct (compute_chunk_ids r); [discriminate|].
    injection H as <-. simpl. f_equal. by apply IH.
Qed.

(** Each id is the fingerprint of the chunk at the same position. *)
Lemma compute_chunk_ids_lookup (chunks : list Document) (chunk_ids : list pystr)
      (i : nat) (c : Document) :
  compute_chunk_ids chunks = inr chunk_ids -> chunks !! i = Some c ->
  exists h, fingerprint (page_content c) = inr h /\ chunk_ids !! i = Some h.
Proof.
  revert chunk_ids i. induction chunks as [|c0 r IH]; intros ids i H Hc; simpl in H.
  - by rewrite lookup_nil in Hc.
  - destruct (fingerprint (page_content c0)) as [|h0] eqn:Hf; [discriminate|].
    destruct (compute_chunk_ids r) as [|ids'] eqn:Hr; [discriminate|].
    injection H as <-. destruct i as [|i]; simpl in *.
    + injection Hc as <-. eauto.
    + eapply IH; eauto.
Qed.

Lemma put_collection_same (dir : pystr) (w : World) (st : Store) :
  fs w !! dir = Some st -> put_collection dir (collection_at dir w) w = w.
Proof.
  intros H. unfold put_collection, collection_at, set_fs. rewrite H.
  destruct w as [f ? ? ? ? ? ? ? ?], st as [t c]; simpl in *.
  f_equal. by apply insert_id.
Qed.

Lemma run_chroma_open (w : World) (st : Store) :
  fs w !! CHROMA_DB_DIR = Some st ->
  chroma_open CHROMA_DB_DIR w =
  match open_fault (faults w) with
  | Some e => (inl e, w)
  | None => (inr tt, w)
  end.
Proof.
  intros H. unfold chroma_open, fault. rewrite run_bind. simpl.
  destruct (open_fault (faults w)); [reflexivity|].
  unfold modify. by rewrite (put_collection_same _ _ _ H).
Qed.

Lemma run_lookup_existing_ids (w : World) (st : Store) (chunk_ids : list pystr) :
  fs w !! CHROMA_DB_DIR = Some st ->
  lookup_existing_ids chunk_ids w =
  (inr match get_fault (faults w) with
       | Some _ => ∅
       | None => found_ids st chunk_ids
       end, w).
Proof.
  intros H. unfold lookup_existing_ids, try_except, collection_get, fault.
  rewrite !run_bind. simpl.
  destruct (get_fault (faults w)); [reflexivity|].
  simpl. unfold found_ids, collection_at. by rewrite H.
Qed.

Lemma run_collection_upsert (dir : pystr) (documents : list Document)
      (ids : list pystr) (w : World) :
  collection_upsert dir documents ids w =
  match write_failure w ids with
  | Some e => (inl e, w)
  | None =>
      (inr tt, put_collection dir (upsert (collection_at dir w) documents ids) w)
  end.
Proof.
  unfold collection_upsert, write_failure, fault. rewrite run_bind. simpl.
  destruct (write_fault (faults w)); [reflexivity|].
  destruct (validate_ids ids); reflexivity.
Qed.

Lemma run_add_documents (dir : pystr) (documents : list Document)
      (ids : list pystr) (w : World) :
  add_documents dir documents ids w =
  let w0 := log (AddDocuments documents ids) w in
  match write_failure w ids with
  | Some e => (inl e, w0)
  | None =>
      (inr tt, put_collection dir (upsert (collection_at dir w0) documents ids) w0)
  end.
Proof.
  unfold add_documents, modify. rewrite run_bind, run_collection_upsert.
  reflexivity.
Qed.

Lemma run_from_documents (dir : pystr) (documents : list Document)
      (ids : list pystr) (w : World) :
  from_documents dir documents ids w =
  let w0 := log (FromDocuments documents ids) w in
  match open_fault (faults w), write_failure w ids with
  | Some e, _ => (inl e, w0)
  | None, Some e => (inl e, w0)
  | None, None =>
      (inr tt, put_collection dir (upsert (collection_at dir w0) documents ids) w0)
  end.
Proof.
  unfold from_documents, modify. rewrite run_bind. cbv beta iota.
  unfold fault. rewrite run_bind. simpl.
  destruct (open_fault (faults w)); [reflexivity|].
  rewrite run_collection_upsert.
  change (write_failure (log _ w)) with (write_failure w).
  destruct (write_failure w ids); reflexivity.
Qed.

(** A batch that is not empty passes chromadb's check exactly when no id
    occurs in it twice. *)
Lemma validate_ids_ok (ids : list pystr) :
  validate_ids ids = None <-> ids <> [] /\ NoDup ids.
Proof.
  unfold validate_ids. destruct ids as [|i ids].
  - split; [discriminate|]. intros [H _]. by destruct H.
  - destruct (decide (NoDup (i :: ids))); split; try done.
    intros [_ H]. contradiction.
Qed.

(** What the accumulate branch does, case by case. *)
Lemma run_accumulate (w : World) (st : Store)
      (chunks : list Document) (chunk_ids : list pystr) :
  fs w !! CHROMA_DB_DIR = Some st ->
  accumulate chunks chunk_ids w =
  match open_fault (faults w) with
  | Some e => (inl e, w)
  | None =>
      let r := report_for st
                 match get_fault (faults w) with
                 | Some _ => ∅
                 | None => found_ids st chunk_ids
                 end chunks chunk_ids in
      match new_chunks r with
      | [] => (inr r, log (Print (all_exist_message (len chunks))) w)
      | _ :: _ =>
          let w1 := if decide (duplicates_skipped r > 0)
                    then log (Print (duplicates_message (duplicates_skipped r))) w
                    else w in
          let w2 := log (AddDocuments (new_chunks r) (new_chunk_ids r)) w1 in
          match write_failure w (new_chunk_ids r) with
          | Some e => (inl e, w2)
          | None =>
              (inr r,
               put_collection CHROMA_DB_DIR
                 (upsert (entries st) (new_chunks r) (new_chunk_ids r)) w2)
          end
      end
  end.
Proof.
  intros H. unfold accumulate.
  rewrite run_bind, (run_chroma_open _ _ H).
  destruct (open_fault (faults w)) as [e|]; [reflexivity|].
  rewrite run_bind. unfold collection_count at 1. rewrite run_bind. simpl.
  rewrite run_bind, (run_lookup_existing_ids _ _ _ H).
  set (existing := match get_fault (faults w) with
                   | Some _ => ∅ | None => found_ids st chunk_ids end).
  unfold report_for. simpl.
  unfold collection_at at 1. rewrite H.
  destruct (select_new existing chunks chunk_ids).1 as [|c cs] eqn:Hsel.
  - rewrite run_bind, run_print. reflexivity.
  - rewrite run_bind. rewrite run_bind.
    destruct (decide (len chunks - len (c :: cs) > 0)).
    + rewrite run_print, run_add_documents. cbv zeta.
      change (write_failure (log _ w)) with (write_failure w).
      destruct (write_failure w _); [reflexivity|].
      simpl. unfold collection_at. simpl. rewrite H. reflexivity.
    + rewrite run_ret, run_add_documents. cbv zeta.
      destruct (write_failure w _); [reflexivity|].
      simpl. unfold collection_at. simpl. rewrite H. reflexivity.
Qed.


Lemma run_ingest_accumulate (w : World) (st : Store)
      (chunks : list Document) (chunk_ids : list pystr) :
  fs w !! CHROMA_DB_DIR = Some st ->
  ingest (Some true) chunks chunk_ids w =
  match accumulate chunks chunk_ids w with
  | (inl e, w') => (inl e, w')
  | (inr r, w') => (inr (Some r), w')
  end.
Proof.
  intros H. unfold ingest. rewrite run_bind, run_path_exists.
  rewrite bool_decide_eq_true_2 by eauto. simpl. rewrite run_bind.
  by destruct (accumulate chunks chunk_ids w) as [[e|r] w'].
Qed.

Lemma run_ingest_fresh (w : World) (use_existing_db : option bool)
      (chunks : list Document) (chunk_ids : list pystr) :
  bool_decide (is_Some (fs w !! CHROMA_DB_DIR)) && truthy use_existing_db = false ->
  trace (snd (ingest use_existing_db chunks chunk_ids w)) =
  trace w ++ [FromDocuments chunks chunk_ids].
Proof.
  intros H. unfold ingest. rewrite run_bind, run_path_exists, H.
  rewrite run_bind, run_from_documents. cbv zeta.
  destruct (open_fault (faults w)); [reflexivity|].
  destruct (write_failure w chunk_ids); reflexivity.
Qed.

Lemma novel_filter (st : Store) (chunks : list Document) (chunk_ids : list pystr) :
  filter (fun p => snd p ∉ found_ids st chunk_ids) (zip chunks chunk_ids) =
  filter (fun p => entries st !! snd p = None) (zip chunks chunk_ids).
Proof.
  apply filter_ext_elem. intros [c i] Hp. simpl.
  apply elem_of_zip_r in Hp. unfold found_ids.
  rewrite elem_of_list_to_set, list_elem_of_filter, eq_None_not_Some.
  tauto.
Qed.

Lemma filter_split_length {A : Type} (P : A -> Prop)
      `{forall x, Decision (P x)} (l : list A) :
  (length (filter P l) + length (filter (fun x => ~ P x) l))%nat = length l.
Proof.
  induction l as [|a l IH]; [reflexivity|].
  rewrite !filter_cons.
  destruct (decide (P a)), (decide (~ P a)); simpl; try tauto; lia.
Qed.

Lemma filter_keep_all {A : Type} (P : A -> Prop)
      `{forall x, Decision (P x)} (l : list A) :
  (forall x, P x) -> filter P l = l.
Proof.
  intros HP. induction l as [|a l IH]; [reflexivity|].
  rewrite filter_cons, IH. destruct (decide (P a)); [reflexivity|].
  exfalso. eauto.
Qed.

Lemma known_novel_length (st : Store) (pairs : list (Document * pystr)) :
  len (filter (fun p => is_Some (entries st !! snd p)) pairs) +
  len (filter (fun p => entries st !! snd p = None) pairs) = len pairs.
Proof.
  unfold len.
  rewrite <- (filter_split_length (fun p => is_Some (entries st !! snd p)) pairs).
  rewrite Nat2Z.inj_add. do 3 f_equal.
  apply list_filter_iff. intros p. by rewrite eq_None_not_Some.
Qed.

Lemma trace_after_accumulate (w : World) (st : Store)
      (chunks : list Document) (chunk_ids : list pystr) :
  fs w !! CHROMA_DB_DIR = Some st ->
  insert_calls (new_events w (snd (accumulate chunks chunk_ids w))) =
  match open_fault (faults w) with
  | Some _ => []
  | None =>
      let r := report_for st
                 match get_fault (faults w) with
                 | Some _ => ∅
                 | None => found_ids st chunk_ids
                 end chunks chunk_ids in
      match new_chunks r with
      | [] => []
      | _ :: _ => [(new_chunks r, new_chunk_ids r)]
      end
  end.
Proof.
  intros H. rewrite (run_accumulate _ _ _ _ H).
  destruct (open_fault (faults w)).
  { simpl. unfold new_events. by rewrite drop_all. }
  cbv zeta.
  set (r := report_for st _ chunks chunk_ids).
  destruct (new_chunks r) as [|c cs] eqn:Hn.
  { simpl. by rewrite (new_events_app _ _ [Print (all_exist_message (len chunks))]). }
  set (w1 := if decide (duplicates_skipped r > 0) then _ else w).
  assert (exists pre, trace w1 = trace w ++ pre /\ insert_calls pre = []) as (pre & Hpre & Hno).
  { subst w1. destruct (decide (duplicates_skipped r > 0)).
    - eexists [_]. split; reflexivity.
    - exists []. split; [by rewrite app_nil_r|reflexivity]. }
  assert (Hnew : forall w', trace w' = trace w1 ++ [AddDocuments (c :: cs) (new_chunk_ids r)] ->
                   insert_calls (new_events w w') = [(c :: cs, new_chunk_ids r)]).
  { intros w' Hw'. rewrite (new_events_app _ _ (pre ++ [AddDocuments (c :: cs) (new_chunk_ids r)])).
    - unfold insert_calls in *. rewrite omap_app, Hno. reflexivity.
    - by rewrite Hw', Hpre, <- app_assoc. }
  destruct (write_failure w (new_chunk_ids r)); apply Hnew; reflexivity.
Qed.

(** C1, amended: in accumulate mode, when the membership lookup returns, the
    one batch handed to the store holds exactly the chunks whose fingerprint
    the store lacks, each with its own id at the same position, and no batch
    is handed over when there is none (each id in the batch is the
    fingerprint of the chunk beside it); the chunks whose fingerprint the
    store holds are the ones counted as skipped; skipped plus inserted is
    the number of chunks.  The run returns unless opening the store or the
    insert itself raises; the insert raises as the world has in store for
    it, or, with [DuplicateIDError], because the batch holds an id twice. *)
Theorem accumulate_dedup (w : World) (st : Store)
        (chunks : list Document) (chunk_ids : list pystr) :
  fs w !! CHROMA_DB_DIR = Some st ->
  compute_chunk_ids chunks = inr chunk_ids ->
  get_fault (faults w) = None ->
  let out := ingest (Some true) chunks chunk_ids w in
  let pairs := zip chunks chunk_ids in
  let novel := filter (fun p => entries st !! snd p = None) pairs in
  let known := filter (fun p => is_Some (entries st !! snd p)) pairs in
  insert_calls (new_events w (snd out)) =
    match open_fault (faults w), novel with
    | None, _ :: _ => [(novel.*1, novel.*2)]
    | _, _ => []
    end /\
  (forall r, fst out = inr (Some r) ->
     new_chunks r = novel.*1 /\ new_chunk_ids r = novel.*2 /\
     duplicates_skipped r = len known /\
     duplicates_skipped r + len (new_chunks r) = len chunks) /\
  (open_fault (faults w) = None -> write_fault (faults w) = None ->
   NoDup novel.*2 ->
   exists r, fst out = inr (Some r)) /\
  (open_fault (faults w) = None -> write_fault (faults w) = None ->
   ~ NoDup novel.*2 ->
   exists msg, fst out = inl (DuplicateIDError msg)) /\
  Forall (fun p => fingerprint (page_content (fst p)) = inr (snd p)) novel.
Proof.
  intros Hst Hids Hget out pairs novel known.
  pose proof (compute_chunk_ids_length _ _ Hids) as Hlen.
  assert (Hsel : select_new (found_ids st chunk_ids) chunks chunk_ids =
                 (novel.*1, novel.*2)).
  { rewrite select_new_filter, novel_filter. reflexivity. }
  assert (Hout : out = match accumulate chunks chunk_ids w with
                       | (inl e, w') => (inl e, w')
                       | (inr r, w') => (inr (Some r), w')
                       end) by apply (run_ingest_accumulate _ _ _ _ Hst).
  assert (Hpairs : len pairs = len chunks).
  { unfold len, pairs. rewrite length_zip. f_equal. lia. }
  split; [|split; [|split; [|split]]]; cycle 4.
  { apply Forall_forall. intros [c h] [_ Hin]%list_elem_of_filter.
    apply list_elem_of_lookup in Hin as [i Hi].
    apply lookup_zip_with_Some in Hi as (c' & h' & Heq & Hc & Hh).
    injection Heq as -> ->.
    destruct (compute_chunk_ids_lookup _ _ _ _ Hids Hc) as (h & Hf & Hh').
    simpl. congruence. }
  - assert (snd out = snd (accumulate chunks chunk_ids w)) as ->.
    { rewrite Hout. by destruct (accumulate chunks chunk_ids w) as [[?|?] ?]. }
    rewrite (trace_after_accumulate _ _ _ _ Hst), Hget.
    destruct (open_fault (faults w)); [reflexivity|].
    unfold report_for. simpl. rewrite Hsel. simpl.
    destruct novel; reflexivity.
  - intros r Hr. rewrite Hout, (run_accumulate _ _ _ _ Hst), Hget in Hr.
    destruct (open_fault (faults w)); [discriminate|].
    cbv zeta in Hr. unfold report_for in Hr. rewrite Hsel in Hr. simpl in Hr.
    assert (r = mkIngestReport (Z.of_nat (size (entries st)))
                  (found_ids st chunk_ids) novel.*1 novel.*2
                  (len chunks - len novel.*1)) as ->.
    { destruct novel.*1; [simpl in Hr; congruence|].
      destruct (write_failure w novel.*2); simpl in Hr; congruence. }
    simpl. pose proof (known_novel_length st pairs) as Hsum.
    fold known novel in Hsum.
    assert (len novel.*1 = len novel) as -> by (unfold len; by rewrite length_fmap).
    repeat split; lia.
  - intros Hopen Hwrite Hnodup.
    rewrite Hout, (run_accumulate _ _ _ _ Hst), Hopen, Hget.
    cbv zeta. unfold report_for. rewrite Hsel. simpl.
    destruct novel.*1 as [|c cs] eqn:Hn; [eauto|].
    assert (Hok : write_failure w novel.*2 = None).
    { unfold write_failure. rewrite Hwrite. apply validate_ids_ok.
      split; [|exact Hnodup].
      intros Hnil. apply fmap_nil_inv in Hnil.
      rewrite Hnil in Hn. discriminate. }
    rewrite Hok. eauto.
  - intros Hopen Hwrite Hdup.
    rewrite Hout, (run_accumulate _ _ _ _ Hst), Hopen, Hget.
    cbv zeta. unfold report_for. rewrite Hsel. simpl.
    destruct novel as [|p ps] eqn:Hn.
    { exfalso. apply Hdup. constructor. }
    simpl. unfold write_failure. rewrite Hwrite. simpl.
    simpl in Hdup. rewrite decide_False by exact Hdup.
    eauto.
Qed.

(** C2, amended: when every chunk id is already an id of the store and the
    membership lookup returns, a second ingestion in accumulate mode hands
    nothing to the store and leaves the store, hence its entry count, as it
    was; if the store opens, the run reports no new chunk and every chunk
    skipped. *)
Theorem reingest_is_noop (w : World) (st : Store)
        (chunks : list Document) (chunk_ids : list pystr) :
  fs w !! CHROMA_DB_DIR = Some st ->
  compute_chunk_ids chunks = inr chunk_ids ->
  Forall (fun i => is_Some (entries st !! i)) chunk_ids ->
  get_fault (faults w) = None ->
  let out := ingest (Some true) chunks chunk_ids w in
  insert_calls (new_events w (snd out)) = [] /\
  fs (snd out) = fs w /\
  fst (collection_count CHROMA_DB_DIR (snd out)) =
    fst (collection_count CHROMA_DB_DIR w) /\
  (open_fault (faults w) = None ->
   exists r, fst out = inr (Some r) /\
     new_chunks r = [] /\ new_chunk_ids r = [] /\
     duplicates_skipped r = len chunks /\
     chunks_before r = Z.of_nat (size (entries st))).
Proof.
  intros Hst Hids Hall Hget out.
  assert (Hnovel : filter (fun p => entries st !! snd p = None)
                          (zip chunks chunk_ids) = []).
  { apply elem_of_nil_inv. intros [c i] [Hnone Hin]%list_elem_of_filter.
    apply elem_of_zip_r in Hin. rewrite Forall_forall in Hall.
    apply Hall in Hin as [? Hsome]. simpl in Hnone. congruence. }
  assert (Hout : out = match open_fault (faults w) with
                       | Some e => (inl e, w)
                       | None =>
                           (inr (Some (report_for st (found_ids st chunk_ids)
                                                  chunks chunk_ids)),
                            log (Print (all_exist_message (len chunks))) w)
                       end).
  { unfold out. rewrite (run_ingest_accumulate _ _ _ _ Hst),
      (run_accumulate _ _ _ _ Hst), Hget.
    destruct (open_fault (faults w)); [reflexivity|]. cbv zeta.
    unfold report_for. rewrite select_new_filter, novel_filter, Hnovel.
    reflexivity. }
  split; [|split; [|split]].
  - rewrite Hout. destruct (open_fault (faults w)); simpl.
    + unfold new_events. by rewrite drop_all.
    + by rewrite (new_events_app _ _ [Print (all_exist_message (len chunks))]).
  - rewrite Hout. by destruct (open_fault (faults w)).
  - rewrite Hout. by destruct (open_fault (faults w)).
  - intros Hopen. rewrite Hout, Hopen. eexists. split; [reflexivity|].
    unfold report_for. rewrite select_new_filter, novel_filter, Hnovel. simpl.
    repeat split. unfold len. simpl. lia.
Qed.

(** A failure of the membership lookup in accumulate mode does not reach
    the caller: the set of existing ids becomes empty, so every chunk is
    handed to the store as new and none is counted as skipped.  A failure
    to open the store, or of the insert itself (the batch holding an id
    twice included), does reach the caller. *)
Lemma lookup_failure_defaults (w : World) (st : Store)
        (chunks : list Document) (chunk_ids : list pystr) (e : exn) :
  fs w !! CHROMA_DB_DIR = Some st ->
  length chunk_ids = length chunks ->
  get_fault (faults w) = Some e ->
  let out := ingest (Some true) chunks chunk_ids w in
  let r := mkIngestReport (Z.of_nat (size (entries st))) ∅ chunks chunk_ids 0 in
  lookup_existing_ids chunk_ids w = (inr ∅, w) /\
  fst out = match open_fault (faults w), chunks, write_failure w chunk_ids with
            | Some e', _, _ => inl e'
            | None, _ :: _, Some e' => inl e'
            | None, _, _ => inr (Some r)
            end /\
  insert_calls (new_events w (snd out)) =
    match open_fault (faults w), chunks with
    | None, _ :: _ => [(chunks, chunk_ids)]
    | _, _ => []
    end.
Proof.
  intros Hst Hlen Hget out r.
  assert (Hsel : select_new ∅ chunks chunk_ids = (chunks, chunk_ids)).
  { rewrite select_new_filter.
    rewrite filter_keep_all by (intros x; apply not_elem_of_empty).
    rewrite fst_zip, snd_zip by lia. reflexivity. }
  split; [|split].
  - by rewrite (run_lookup_existing_ids _ _ _ Hst), Hget.
  - unfold out. rewrite (run_ingest_accumulate _ _ _ _ Hst),
      (run_accumulate _ _ _ _ Hst), Hget.
    destruct (open_fault (faults w)); [reflexivity|]. cbv zeta.
    unfold report_for. rewrite Hsel. simpl.
    destruct chunks as [|c cs]; simpl.
    + by destruct (write_failure w chunk_ids).
    + destruct (write_failure w chunk_ids); simpl; [reflexivity|].
      unfold r. do 3 f_equal. unfold len. lia.
  - unfold out.
    assert (snd (ingest (Some true) chunks chunk_ids w) =
            snd (accumulate chunks chunk_ids w)) as ->.
    { rewrite (run_ingest_accumulate _ _ _ _ Hst).
      by destruct (accumulate chunks chunk_ids w) as [[?|?] ?]. }
    rewrite (trace_after_accumulate _ _ _ _ Hst), Hget.
    destruct (open_fault (faults w)); [reflexivity|]. cbv zeta.
    unfold report_for. rewrite Hsel. simpl. by destruct chunks.
Qed.

(** What lines 97-102 do keep apart: every batch of ids an ingestion hands
    to the store is a sub-sequence of the chunk ids, so it is free of
    duplicates when the chunk ids are pairwise distinct; in accumulate
    mode, when the membership lookup returns, no id of the batch is an id
    of the store. *)
Lemma insert_batch_ids (w : World) (use_existing_db : option bool)
        (chunks : list Document) (chunk_ids : list pystr)
        (docs : list Document) (ids : list pystr) :
  compute_chunk_ids chunks = inr chunk_ids ->
  (docs, ids) ∈ insert_calls
                  (new_events w (snd (ingest use_existing_db chunks chunk_ids w))) ->
  ids `sublist_of` chunk_ids /\
  (NoDup chunk_ids -> NoDup ids) /\
  (forall st, fs w !! CHROMA_DB_DIR = Some st ->
              use_existing_db = Some true ->
              get_fault (faults w) = None ->
              Forall (fun i => entries st !! i = None) ids).
Proof.
  intros Hids Hin.
  pose proof (compute_chunk_ids_length _ _ Hids) as Hlen.
  destruct (bool_decide (is_Some (fs w !! CHROMA_DB_DIR)) && truthy use_existing_db)
    eqn:Hmode.
  - apply andb_true_iff in Hmode as [[st Hst]%bool_decide_eq_true Huse].
    destruct use_existing_db as [[|]|]; try discriminate.
    assert (snd (ingest (Some true) chunks chunk_ids w) =
            snd (accumulate chunks chunk_ids w)) as Hsnd.
    { rewrite (run_ingest_accumulate _ _ _ _ Hst).
      by destruct (accumulate chunks chunk_ids w) as [[?|?] ?]. }
    rewrite Hsnd, (trace_after_accumulate _ _ _ _ Hst) in Hin.
    destruct (open_fault (faults w)); [by apply elem_of_nil in Hin|].
    cbv zeta in Hin. unfold report_for in Hin. simpl in Hin.
    rewrite select_new_filter in Hin. simpl in Hin.
    set (existing := match get_fault (faults w) with
                     | Some _ => ∅ | None => found_ids st chunk_ids end) in *.
    set (kept := filter (fun p : Document * pystr => snd p ∉ existing)
                        (zip chunks chunk_ids)) in *.
    assert (Hsub : kept.*2 `sublist_of` chunk_ids).
    { pose proof (snd_zip chunks chunk_ids ltac:(lia)) as Hz.
      rewrite <- Hz. apply fmap_sublist, sublist_filter. }
    assert (ids = kept.*2) as ->.
    { destruct kept.*1; [by apply elem_of_nil in Hin|].
      apply list_elem_of_singleton in Hin. congruence. }
    split; [exact Hsub|]. split.
    + intros Hnd. eapply sublist_NoDup; eauto.
    + intros st' Hst' _ Hget. assert (st' = st) as -> by congruence.
      subst kept existing. rewrite Hget, novel_filter.
      apply Forall_fmap, Forall_forall. intros p Hp.
      by apply list_elem_of_filter in Hp as [Hnone _].
  - pose proof (run_ingest_fresh w use_existing_db chunks chunk_ids Hmode) as Htr.
    rewrite (new_events_app _ _ _ Htr) in Hin. simpl in Hin.
    apply list_elem_of_singleton in Hin. injection Hin as -> ->.
    split; [reflexivity|]. split; [tauto|].
    intros st Hst -> _. rewrite Hst in Hmode. simpl in Hmode. discriminate.
Qed.


(** C1 as stated fails: the store holds the fingerprint of the chunk, the
    membership lookup raises, line 95 puts the empty set in its place, and
    the chunk is handed to the store again with nothing counted as
    skipped. *)
Lemma accumulate_reinserts_when_lookup_fails :
  let w := Sample.with_faults Sample.lookup_broken
             (Sample.with_store Sample.stored_a Sample.quiet_world) in
  let chunks := [Sample.chunk_a] in
  let ids := [Sample.id_of Sample.chunk_a] in
  let out := ingest (Some true) chunks ids w in
  compute_chunk_ids chunks = inr ids /\
  collection_at CHROMA_DB_DIR w !! Sample.id_of Sample.chunk_a = Some Sample.chunk_a /\
  insert_calls (new_events w (snd out)) = [(chunks, ids)] /\
  match fst out with
  | inr (Some r) => new_chunks r = chunks /\ duplicates_skipped r = 0
  | _ => False
  end.
Proof. vm_compute. repeat split; reflexivity. Qed.

(** Of two chunks, one already stored: the other one alone is inserted. *)
Lemma accumulate_dedup_witness :
  let w := Sample.with_store Sample.stored_a Sample.quiet_world in
  let chunks := [Sample.chunk_a; Sample.chunk_b] in
  let ids := [Sample.id_of Sample.chunk_a; Sample.id_of Sample.chunk_b] in
  let out := ingest (Some true) chunks ids w in
  insert_calls (new_events w (snd out)) =
    [([Sample.chunk_b], [Sample.id_of Sample.chunk_b])] /\
  exists r, fst out = inr (Some r) /\ duplicates_skipped r = 1.
Proof.
  intros w chunks ids out.
  assert (H1 : fs w !! CHROMA_DB_DIR = Some Sample.stored_a)
    by (vm_compute; reflexivity).
  assert (H2 : compute_chunk_ids chunks = inr ids) by (vm_compute; reflexivity).
  assert (H3 : get_fault (faults w) = None) by reflexivity.
  destruct (accumulate_dedup w Sample.stored_a chunks ids H1 H2 H3)
    as (Hcalls & Hreport & Hreturns & _).
  split.
  - unfold out. rewrite Hcalls. vm_compute. reflexivity.
  - destruct (Hreturns eq_refl eq_refl) as [r Hr].
    { vm_compute. repeat constructor. inversion 1. }
    exists r. split; [exact Hr|].
    destruct (Hreport r Hr) as (_ & _ & Hskipped & _).
    rewrite Hskipped. vm_compute. reflexivity.
Defined.

(** C2 as stated fails: a document of two chunks is ingested, then ingested
    again while the membership lookup raises; every id is in the store, yet
    both chunks are handed to the store again and none is skipped. *)
Lemma reingest_after_failed_lookup_reinserts :
  let chunks := [Sample.chunk_a; Sample.chunk_b] in
  let ids := [Sample.id_of Sample.chunk_a; Sample.id_of Sample.chunk_b] in
  let w1 := snd (ingest None chunks ids Sample.quiet_world) in
  let w2 := Sample.with_faults Sample.lookup_broken w1 in
  let out := ingest (Some true) chunks ids w2 in
  compute_chunk_ids chunks = inr ids /\
  (collection_at CHROMA_DB_DIR w2 !! Sample.id_of Sample.chunk_a = Some Sample.chunk_a /\
   collection_at CHROMA_DB_DIR w2 !! Sample.id_of Sample.chunk_b = Some Sample.chunk_b) /\
  insert_calls (new_events w2 (snd out)) = [(chunks, ids)] /\
  match fst out with
  | inr (Some r) => new_chunks r = chunks /\ duplicates_skipped r = 0
  | _ => False
  end.
Proof. vm_compute. repeat split; reflexivity. Qed.

(** Both chunks stored: the second ingestion changes nothing. *)
Lemma reingest_is_noop_witness :
  let chunks := [Sample.chunk_a; Sample.chunk_b] in
  let ids := [Sample.id_of Sample.chunk_a; Sample.id_of Sample.chunk_b] in
  let w := Sample.with_store Sample.stored_ab Sample.quiet_world in
  let out := ingest (Some true) chunks ids w in
  insert_calls (new_events w (snd out)) = [] /\
  fs (snd out) = fs w /\
  exists r, fst out = inr (Some r) /\ new_chunks r = [] /\
            duplicates_skipped r = 2.
Proof.
  intros chunks ids w out.
  assert (H1 : fs w !! CHROMA_DB_DIR = Some Sample.stored_ab)
    by (vm_compute; reflexivity).
  assert (H2 : compute_chunk_ids chunks = inr ids) by (vm_compute; reflexivity).
  assert (H3 : Forall (fun i => is_Some (entries Sample.stored_ab !! i)) ids).
  { repeat (constructor; [vm_compute; eauto|]). constructor. }
  assert (H4 : get_fault (faults w) = None) by reflexivity.
  destruct (reingest_is_noop w Sample.stored_ab chunks ids H1 H2 H3 H4)
    as (Hcalls & Hfs & _ & Hreport).
  split; [exact Hcalls|]. split; [exact Hfs|].
  destruct (Hreport eq_refl) as (r & Hr & Hnew & _ & Hskipped & _).
  exists r. repeat split; assumption.
Defined.

(** C7, where the code breaks the claim: the same text on two pages gives
    two distinct chunks with one fingerprint.  Lines 97-102 compare each id
    with the ids of the store only, never with the ids of the batch, so
    the batch handed to the store carries that id twice, in accumulate mode
    and in a fresh start alike.  chromadb refuses a batch that holds an id
    twice: the insert raises [DuplicateIDError], neither chunk is stored,
    and [legal_analyst_tool] ends with that exception. *)
Lemma identical_chunks_share_an_id :
  let w := Sample.with_store (mkStore Sample.files ∅) Sample.quiet_world in
  let chunks := [Sample.page1; Sample.page2] in
  let h := Sample.id_of Sample.page1 in
  let kept := ingest (Some true) chunks [h; h] w in
  let fresh := ingest (Some false) chunks [h; h] Sample.quiet_world in
  let run := legal_analyst_tool (u "docs/a.pdf") (u "What applies?") None true
                                Sample.repeating_world in
  Sample.page1 <> Sample.page2 /\
  compute_chunk_ids chunks = inr [h; h] /\
  ~ NoDup [h; h] /\
  (insert_calls (new_events w (snd kept)) = [(chunks, [h; h])] /\
   (exists msg, fst kept = inl (DuplicateIDError msg)) /\
   collection_at CHROMA_DB_DIR (snd kept) = ∅) /\
  (insert_calls (new_events Sample.quiet_world (snd fresh)) = [(chunks, [h; h])] /\
   (exists msg, fst fresh = inl (DuplicateIDError msg)) /\
   collection_at CHROMA_DB_DIR (snd fresh) = ∅) /\
  (insert_calls (new_events Sample.repeating_world (snd run)) = [(chunks, [h; h])] /\
   (exists msg, fst run = inl (DuplicateIDError msg)) /\
   collection_at CHROMA_DB_DIR (snd run) = ∅).
Proof.
  intros w chunks h kept fresh run.
  split; [|split; [|split; [|split; [|split]]]].
  - intros H. apply (f_equal (fun d => metadata d !! u "page")) in H.
    vm_compute in H. discriminate.
  - vm_compute. reflexivity.
  - intros [Hn _]%NoDup_cons. apply Hn. by left.
  - split; [vm_compute; reflexivity|]. split; [|vm_compute; reflexivity].
    eexists. vm_compute. reflexivity.
  - split; [vm_compute; reflexivity|]. split; [|vm_compute; reflexivity].
    eexists. vm_compute. reflexivity.
  - split; [vm_compute; reflexivity|]. split; [|vm_compute; reflexivity].
    eexists. vm_compute. reflexivity.
Qed.

(** Of two chunks, one stored already: the batch is the id of the other,
    new to the store. *)
Lemma insert_batch_ids_witness :
  let w := Sample.with_store Sample.stored_a Sample.quiet_world in
  let chunks := [Sample.chunk_a; Sample.chunk_b] in
  let ids := [Sample.id_of Sample.chunk_a; Sample.id_of Sample.chunk_b] in
  [Sample.id_of Sample.chunk_b] `sublist_of` ids /\
  NoDup [Sample.id_of Sample.chunk_b] /\
  Forall (fun i => entries Sample.stored_a !! i = None) [Sample.id_of Sample.chunk_b].
Proof.
  intros w chunks ids.
  assert (H1 : compute_chunk_ids chunks = inr ids) by (vm_compute; reflexivity).
  assert (H2 : ([Sample.chunk_b], [Sample.id_of Sample.chunk_b]) ∈
               insert_calls (new_events w (snd (ingest (Some true) chunks ids w)))).
  { vm_compute. left. }
  destruct (insert_batch_ids w (Some true) chunks ids _ _ H1 H2)
    as (Hsub & Hnodup & Hfresh).
  split; [exact Hsub|]. split.
  - apply Hnodup. vm_compute. repeat (constructor; [inversion 1 as [|? ? ? Hx]; inversion Hx|]).
    constructor.
  - apply (Hfresh Sample.stored_a); reflexivity || (vm_compute; reflexivity).
Defined.

End IngestFacts.

(** ** Deleting the store for a fresh start *)

Section ResetFacts.

(** An attempt that finds the directory unlocked ends the loop. *)
Lemma attempt_deletes (w : World) (s : Store) (attempt : Z) (rest : list Z) :
  fs w !! CHROMA_DB_DIR = Some s -> rmtree_script (faults w) = [] ->
  delete_attempts (attempt :: rest) w =
  (inr tt, log (Print ([0x2705] ++ u " Database deleted"))
               (set_fs (delete CHROMA_DB_DIR) (log (Rmtree CHROMA_DB_DIR) w))).
Proof.
  intros Hs Hf. simpl. rewrite run_bind. unfold try_except.
  rewrite run_bind, (run_rmtree_ok _ _ _ Hs Hf). reflexivity.
Qed.

(** An attempt before the last that finds the directory locked waits a
    second and lets the loop go on. *)
Lemma attempt_waits (w : World) (s residue : Store) (e : exn)
      (tl : list (exn * Store)) (attempt : Z) (rest : list Z) :
  fs w !! CHROMA_DB_DIR = Some s ->
  rmtree_script (faults w) = (e, residue) :: tl ->
  is_PermissionError e = true ->
  attempt < max_retries - 1 ->
  delete_attempts (attempt :: rest) w =
  delete_attempts rest
    (log (Sleep 1000)
       (set_clock (Z.add 1000)
          (log (Print (waiting_message attempt))
             (set_rmtree_script tl
                (set_fs (insert CHROMA_DB_DIR residue)
                        (log (Rmtree CHROMA_DB_DIR) w)))))).
Proof.
  intros Hs Hf He Hlt. simpl. rewrite run_bind. unfold try_except.
  rewrite run_bind, (run_rmtree_fail _ _ _ _ _ _ Hs Hf), He.
  destruct (decide (attempt < max_retries - 1)); [|contradiction].
  reflexivity.
Qed.

(** The last attempt, finding the directory locked, moves it aside. *)
Lemma attempt_renames (w : World) (s residue : Store) (e : exn)
      (tl : list (exn * Store)) (attempt : Z) (rest : list Z) :
  fs w !! CHROMA_DB_DIR = Some s ->
  rmtree_script (faults w) = (e, residue) :: tl ->
  is_PermissionError e = true ->
  ~ attempt < max_retries - 1 ->
  delete_attempts (attempt :: rest) w =
  match rename_aside e
          (set_rmtree_script tl
             (set_fs (insert CHROMA_DB_DIR residue)
                     (log (Rmtree CHROMA_DB_DIR) w))) with
  | (inl x, w') => (inl x, w')
  | (inr _, w') => delete_attempts rest w'
  end.
Proof.
  intros Hs Hf He Hlt. simpl. rewrite run_bind. unfold try_except.
  rewrite run_bind, (run_rmtree_fail _ _ _ _ _ _ Hs Hf), He.
  destruct (decide (attempt < max_retries - 1)); [contradiction|].
  rewrite run_bind.
  destruct (rename_aside e _) as [[x|[]] w']; reflexivity.
Qed.

Lemma run_rename_aside (w : World) (s : Store) (e : exn) :
  fs w !! CHROMA_DB_DIR = Some s ->
  let backup := backup_name_at (clock_ms w / 1000) in
  let w1 := log (Rename CHROMA_DB_DIR backup)
                (log (Print could_not_delete_message) w) in
  rename_aside e w =
  match rename_fault (faults w) with
  | Some _ =>
      (inl (Exception_ (cannot_delete_or_rename ++ str_exn e)), w1)
  | None =>
      (inr tt,
       log (Print (u "   You can manually delete it later when the process releases the files"))
         (log (Print ([0x2705] ++ u " Old database moved to: " ++ backup))
            (set_fs (fun f => <[backup := s]> (delete CHROMA_DB_DIR f)) w1)))
  end.
Proof.
  intros Hs backup w1. unfold rename_aside.
  rewrite run_bind, run_print, run_bind. unfold time_time. rewrite run_bind.
  simpl. unfold try_except. rewrite run_bind. unfold rename. simpl.
  destruct (rename_fault (faults w)); [reflexivity|].
  rewrite Hs. reflexivity.
Qed.

Lemma run_delete_database (w : World) :
  delete_database w =
  delete_attempts [0; 1; 2]
    (log (Sleep 500)
       (set_clock (Z.add 500)
          (log GcCollect
             (log (Print (nl ++ [0x1F5D1; 0xFE0F] ++
                          u "  Deleting existing database - starting fresh")) w)))).
Proof. reflexivity. Qed.

Ltac read_trace :=
  unfold new_events; simpl; rewrite <- ?app_assoc; rewrite drop_app_length;
  reflexivity.

(** C4, amended: on a fresh-mode reset of an existing store, while deletion
    fails with a lock failure that is a [PermissionError] it is tried at
    most 3 times, one second apart; after a third such failure the
    directory is renamed to the store path followed by [_backup_] and the
    time in seconds; the reset then raises only if that rename raises too,
    and the exception carries the text of the last lock failure. *)
Theorem delete_database_retries (w : World) (st : Store) :
  fs w !! CHROMA_DB_DIR = Some st ->
  Forall (fun f => is_PermissionError (fst f) = true)
         (take 3 (rmtree_script (faults w))) ->
  let out := delete_database w in
  let evs := new_events w (snd out) in
  let script := rmtree_script (faults w) in
  rmtree_calls evs = replicate (min 3 (S (length script))) CHROMA_DB_DIR /\
  sleeps evs = 500 :: replicate (min 2 (length script)) 1000 /\
  match script with
  | _ :: _ :: (e3, residue) :: _ =>
      let backup := backup_name_at ((clock_ms w + 2500) / 1000) in
      rename_calls evs = [(CHROMA_DB_DIR, backup)] /\
      match rename_fault (faults w) with
      | None =>
          fst out = inr tt /\
          fs (snd out) = <[backup := residue]> (delete CHROMA_DB_DIR (fs w))
      | Some _ =>
          fst out = inl (Exception_ (cannot_delete_or_rename ++ str_exn e3)) /\
          fs (snd out) = <[CHROMA_DB_DIR := residue]> (fs w)
      end
  | _ =>
      rename_calls evs = [] /\
      fst out = inr tt /\
      fs (snd out) = delete CHROMA_DB_DIR (fs w)
  end.
Proof.
  intros Hst Hlocks. cbv zeta.
  rewrite run_delete_database.
  set (w0 := log (Sleep 500) _).
  assert (H0 : fs w0 !! CHROMA_DB_DIR = Some st) by exact Hst.
  destruct (rmtree_script (faults w))
    as [|[e1 s1] [|[e2 s2] [|[e3 s3] tl]]] eqn:Hs0; simpl in Hlocks.
  - (* deleted at once *)
    rewrite (attempt_deletes _ _ _ _ H0 Hs0).
    split; [read_trace|]. split; [read_trace|]. split; [read_trace|].
    split; reflexivity.
  - (* locked once *)
    apply Forall_cons in Hlocks as [He1 _].
    rewrite (attempt_waits _ _ _ _ _ _ _ H0 Hs0 He1) by (vm_compute; reflexivity).
    set (w1 := log (Sleep 1000) _).
    assert (H1 : fs w1 !! CHROMA_DB_DIR = Some s1) by (simpl; apply lookup_insert_eq).
    rewrite (attempt_deletes _ _ _ _ H1 eq_refl).
    split; [read_trace|]. split; [read_trace|]. split; [read_trace|].
    split; [reflexivity|]. simpl. apply delete_insert_eq.
  - (* locked twice *)
    apply Forall_cons in Hlocks as [He1 [He2 _]%Forall_cons].
    rewrite (attempt_waits _ _ _ _ _ _ _ H0 Hs0 He1) by (vm_compute; reflexivity).
    set (w1 := log (Sleep 1000) _).
    assert (H1 : fs w1 !! CHROMA_DB_DIR = Some s1) by (simpl; apply lookup_insert_eq).
    rewrite (attempt_waits _ _ _ _ _ _ _ H1 eq_refl He2) by (vm_compute; reflexivity).
    set (w2 := log (Sleep 1000) _).
    assert (H2 : fs w2 !! CHROMA_DB_DIR = Some s2) by (simpl; apply lookup_insert_eq).
    rewrite (attempt_deletes _ _ _ _ H2 eq_refl).
    split; [read_trace|]. split; [read_trace|]. split; [read_trace|].
    split; [reflexivity|]. simpl. by rewrite !delete_insert_eq.
  - (* locked three times *)
    apply Forall_cons in Hlocks as [He1 [He2 [He3 _]%Forall_cons]%Forall_cons].
    rewrite (attempt_waits _ _ _ _ _ _ _ H0 Hs0 He1) by (vm_compute; reflexivity).
    set (w1 := log (Sleep 1000) _).
    assert (H1 : fs w1 !! CHROMA_DB_DIR = Some s1) by (simpl; apply lookup_insert_eq).
    rewrite (attempt_waits _ _ _ _ _ _ _ H1 eq_refl He2) by (vm_compute; reflexivity).
    set (w2 := log (Sleep 1000) _).
    assert (H2 : fs w2 !! CHROMA_DB_DIR = Some s2) by (simpl; apply lookup_insert_eq).
    rewrite (attempt_renames _ _ _ _ _ _ _ H2 eq_refl He3) by (vm_compute; discriminate).
    set (w3 := set_rmtree_script tl _).
    assert (H3 : fs w3 !! CHROMA_DB_DIR = Some s3) by (simpl; apply lookup_insert_eq).
    rewrite (run_rename_aside _ _ e3 H3). cbv zeta.
    assert (Hclock : clock_ms w3 / 1000 = (clock_ms w + 2500) / 1000).
    { simpl. f_equal. lia. }
    rewrite Hclock.
    change (rename_fault (faults w3)) with (rename_fault (faults w)).
    destruct (rename_fault (faults w)).
    + split; [read_trace|]. split; [read_trace|]. split; [read_trace|].
      split; [reflexivity|]. simpl. by rewrite !insert_insert_eq.
    + split; [read_trace|]. split; [read_trace|]. split; [read_trace|].
      split; [reflexivity|]. simpl.
      by rewrite !delete_insert_eq.
Qed.

(** Locked three times: three attempts, two waits, then the rename. *)
Lemma delete_database_retries_witness :
  let w := Sample.with_faults Sample.locked_thrice
             (Sample.with_store Sample.stored_a Sample.quiet_world) in
  let out := delete_database w in
  rmtree_calls (new_events w (snd out)) =
    [CHROMA_DB_DIR; CHROMA_DB_DIR; CHROMA_DB_DIR] /\
  sleeps (new_events w (snd out)) = [500; 1000; 1000] /\
  fst out = inr tt /\
  fs (snd out) !! CHROMA_DB_DIR = None /\
  fs (snd out) !! u "./chroma_db_backup_1700000002" = Some Sample.stored_a.
Proof.
  intros w out.
  assert (H1 : fs w !! CHROMA_DB_DIR = Some Sample.stored_a)
    by (vm_compute; reflexivity).
  assert (H2 : Forall (fun f => is_PermissionError (fst f) = true)
                      (take 3 (rmtree_script (faults w)))).
  { repeat (constructor; [reflexivity|]). constructor. }
  destruct (delete_database_retries w Sample.stored_a H1 H2)
    as (Hrm & Hsleep & _ & Hret & Hfs).
  split; [exact Hrm|]. split; [exact Hsleep|]. split; [exact Hret|].
  unfold out. rewrite Hfs. split; vm_compute; reflexivity.
Defined.

(** When the rename fails as well, the reset raises, naming the lock
    failure, and the store directory is still in place. *)
Example delete_database_gives_up :
  let w := Sample.with_faults Sample.locked_for_good
             (Sample.with_store Sample.stored_a Sample.quiet_world) in
  fst (delete_database w) =
    inl (Exception_ (cannot_delete_or_rename ++ str_exn Sample.locked)) /\
  fs (snd (delete_database w)) !! CHROMA_DB_DIR = Some Sample.stored_a.
Proof. vm_compute. split; reflexivity. Qed.

(** C4 as stated fails: a lock that [shutil.rmtree] reports as an [OSError]
    which is no [PermissionError] (EBUSY: another process holds a file of
    the directory open) is not "retried up to 3 times", and the directory
    is not renamed either.  Line 50 catches [PermissionError] only, so the
    first such failure is raised as it is: one attempt, none of the
    one-second waits, no rename, the store still in place, although a
    second attempt would have found the directory free. *)
Lemma busy_directory_is_not_retried :
  let busy := OSError (u "[Errno 16] Device or resource busy: '.nfs00000000004c1a2b00000001'") in
  let w := Sample.with_faults
             (mkFaults [(busy, Sample.stored_a)] None None None None None None)
             (Sample.with_store Sample.stored_a Sample.quiet_world) in
  let out := delete_database w in
  let evs := new_events w (snd out) in
  is_OSError busy = true /\ is_PermissionError busy = false /\
  rmtree_script (faults (snd out)) = [] /\
  fst out = inl busy /\
  rmtree_calls evs = [CHROMA_DB_DIR] /\
  sleeps evs = [500] /\
  rename_calls evs = [] /\
  fs (snd out) !! CHROMA_DB_DIR = Some Sample.stored_a.
Proof. vm_compute. repeat split; reflexivity. Qed.

End ResetFacts.

(** ** Retrieval *)

Section RetrievalFacts.

Lemma basename_suffix (p : pystr) : basename p `suffix_of` p.
Proof.
  induction p as [|c r IH]; simpl; [reflexivity|].
  destruct (bool_decide (47 ∈ r)).
  - by apply suffix_cons_r.
  - destruct (decide (c = 47)); [|reflexivity].
    apply suffix_cons_r. reflexivity.
Qed.

(** A source whose base name is the name asked for passes the test of
    line 138. *)
Lemma endswith_basename (source name : pystr) :
  basename source = name -> endswith source name = true.
Proof.
  intros <-. unfold endswith. apply bool_decide_eq_true_2, basename_suffix.
Qed.

Lemma run_retriever_invoke (k : nat) (question : pystr) (w : World) :
  retriever_invoke k question w =
  match search_fault (faults w) with
  | Some e => (inl e, log (Search k question) w)
  | None => (inr (take k (ranking w question)), log (Search k question) w)
  end.
Proof.
  unfold retriever_invoke, fault, modify. rewrite !run_bind. simpl.
  destruct (search_fault (faults w)); reflexivity.
Qed.

(** C5, amended: in single-document scope one similarity search is made,
    for 20 candidates; the candidates whose source ends with the base name
    of the requested path are kept (so is every candidate whose source has
    that base name) and at most 5 of them are returned, each with such a
    source; when none is kept the first 5 of the 20 candidates are returned
    instead, and the fallback shows only as a warning line on standard
    output, which is printed exactly in that case. *)
Theorem retrieve_current_pdf_spec (w : World) (pdf_file_path question : pystr) :
  let name := basename pdf_file_path in
  let pool := take 20 (ranking w question) in
  let matching := filter (fun d => endswith (source_of d) name = true) pool in
  let out := retrieve_current_pdf pdf_file_path question w in
  searches (new_events w (snd out)) = [(20%nat, question)] /\
  match search_fault (faults w) with
  | Some e => fst out = inl e
  | None =>
      fst out = inr match matching with
                    | [] => take 5 pool
                    | _ :: _ => take 5 matching
                    end /\
      (Print no_chunks_message ∈ new_events w (snd out) <-> matching = []) /\
      (forall docs, fst out = inr docs ->
         (length docs <= 5)%nat /\
         (matching <> [] ->
          Forall (fun d => endswith (source_of d) name = true) docs)) /\
      Forall (fun d => basename (source_of d) = name -> d ∈ matching) pool
  end.
Proof.
  intros name pool matching out. subst out. unfold retrieve_current_pdf.
  rewrite run_bind, run_retriever_invoke.
  destruct (search_fault (faults w)) as [e|].
  { split; [|reflexivity]. unfold new_events. simpl.
    by rewrite drop_app_length. }
  fold name pool matching.
  assert (Hmatch : Forall (fun d => endswith (source_of d) name = true) matching).
  { apply Forall_forall. intros d Hd. by apply list_elem_of_filter in Hd as []. }
  assert (Hall : Forall (fun d => basename (source_of d) = name -> d ∈ matching) pool).
  { apply Forall_forall. intros d Hd Hname. apply list_elem_of_filter.
    split; [by apply endswith_basename|done]. }
  destruct matching as [|m ms] eqn:Hm.
  - rewrite take_nil, run_bind, run_print, run_ret.
    split; [unfold new_events; simpl; rewrite <- app_assoc; by rewrite drop_app_length|].
    split; [reflexivity|]. split; [|split].
    + split; [done|]. intros _. unfold new_events. simpl.
      rewrite <- app_assoc, drop_app_length. right. left.
    + intros docs Hdocs. injection Hdocs as <-. split; [|done].
      rewrite length_take. lia.
    + exact Hall.
  - assert (take 5 (m :: ms) = m :: take 4 ms) as Htake by reflexivity.
    rewrite Htake, run_bind, run_print, run_ret. rewrite <- Htake.
    split; [unfold new_events; simpl; rewrite <- app_assoc; by rewrite drop_app_length|].
    split; [reflexivity|]. split; [|split].
    + split; [|done]. unfold new_events. simpl.
      rewrite <- app_assoc, drop_app_length.
      intros Hin. apply elem_of_cons in Hin as [Hin|Hin]; [discriminate|].
      apply list_elem_of_singleton in Hin. discriminate.
    + intros docs Hdocs.
      unfold fst in Hdocs.
      assert (docs = take 5 (m :: ms)) as -> by congruence. split.
      * rewrite length_take. lia.
      * intros _. by apply Forall_take.
    + exact Hall.
Qed.

(** C5 as stated fails: asked for [a.pdf], the filter also keeps a chunk of
    [ya.pdf], whose base name is another, although a chunk of [a.pdf] is
    among the candidates. *)
Lemma suffix_match_keeps_other_document :
  let d1 := Sample.doc "first" "docs/a.pdf" in
  let d2 := Sample.doc "second" "docs/ya.pdf" in
  let w := Sample.with_ranking [d1; d2]
             (Sample.with_store Sample.stored_a Sample.quiet_world) in
  fst (retrieve_current_pdf (u "in/a.pdf") (u "question") w) = inr [d1; d2] /\
  basename (source_of d1) = basename (u "in/a.pdf") /\
  basename (source_of d2) <> basename (u "in/a.pdf").
Proof. vm_compute. repeat split; try reflexivity. discriminate. Qed.

(** The value [legal_analyst_tool] returns is the same whether the chunk it
    used came through the filter or through the fallback: the fallback is
    told on standard output only. *)
Example fallback_leaves_no_mark_on_answer :
  let filtered := Sample.with_ranking [Sample.doc "clause" "docs/a.pdf"] Sample.echo_world in
  let fallen_back := Sample.with_ranking [Sample.doc "clause" "docs/b.pdf"] Sample.echo_world in
  let run w := legal_analyst_tool (u "in/a.pdf") (u "question") None true w in
  fst (run filtered) = fst (run fallen_back) /\
  (exists answer, fst (run filtered) = inr answer) /\
  (~ Print no_chunks_message ∈ trace (snd (run filtered))) /\
  (Print no_chunks_message ∈ trace (snd (run fallen_back))).
Proof.
  intros filtered fallen_back run. split; [|split; [|split]].
  - vm_compute. reflexivity.
  - vm_compute. eauto.
  - intros H. apply list_elem_of_In in H. vm_compute in H.
    intuition discriminate.
  - apply list_elem_of_In. vm_compute. tauto.
Qed.

End RetrievalFacts.

(** ** query_all_pdfs *)

Section QueryFacts.

Lemma dict_total_put (d : list (pystr * Z)) (key : pystr) (value : Z) :
  dict_total (dict_set d key value) = dict_total d - dict_get d key 0 + value.
Proof.
  unfold dict_total. induction d as [|[k v] r IH]; [simpl; lia|].
  cbn [dict_set dict_get].
  destruct (decide (k = key)); rewrite !fmap_cons; cbn [foldr snd];
    [lia|rewrite IH; lia].
Qed.

Lemma dict_total_set (d : list (pystr * Z)) (key : pystr) :
  dict_total (dict_set d key (dict_get d key 0 + 1)) = dict_total d + 1.
Proof. rewrite dict_total_put. lia. Qed.

Lemma count_sources_from (acc : list (pystr * Z)) (docs : list Document) :
  dict_total
    (foldl (fun source_files doc =>
              match metadata doc !! u "source" with
              | Some s =>
                  dict_set source_files (basename s)
                           (dict_get source_files (basename s) 0 + 1)
              | None => source_files
              end) acc docs) =
  dict_total acc + len (filter has_source docs).
Proof.
  revert acc. induction docs as [|d docs IH]; intros acc; simpl.
  - unfold len. simpl. lia.
  - rewrite IH, filter_cons.
    destruct (decide (has_source d)) as [[s Hs]|Hn].
    + rewrite Hs, dict_total_set. unfold len. simpl. lia.
    + destruct (metadata d !! u "source") as [s|] eqn:Hs; [|reflexivity].
      exfalso. apply Hn. unfold has_source. rewrite Hs. eauto.
Qed.

(** The counts add up to the number of chunks that carry a source. *)
Lemma count_sources_total (docs : list Document) :
  dict_total (count_sources docs) = len (filter has_source docs).
Proof. unfold count_sources. rewrite count_sources_from. reflexivity. Qed.

Lemma run_print_each (lines : list pystr) (w : World) :
  exists w', print_each lines w = (inr tt, w') /\
             fs w' = fs w /\ faults w' = faults w /\ llm w' = llm w /\
             exists evs, trace w' = trace w ++ evs /\ searches evs = [].
Proof.
  revert w. induction lines as [|l r IH]; intros w; simpl.
  - exists w. repeat split; try reflexivity. exists []. by rewrite app_nil_r.
  - rewrite run_bind, run_print.
    destruct (IH (log (Print l) w)) as (w' & -> & Hfs & Hfaults & Hllm & evs & Htr & Hs).
    exists w'. repeat split; try assumption.
    exists (Print l :: evs). simpl in Htr. rewrite Htr, <- app_assoc.
    split; [reflexivity|exact Hs].
Qed.

Lemma filter_keep_all_in {A : Type} (P : A -> Prop)
      `{forall x, Decision (P x)} (l : list A) :
  (forall x, x ∈ l -> P x) -> filter P l = l.
Proof.
  induction l as [|a l IH]; intros HP; [reflexivity|].
  rewrite filter_cons, IH by (intros x Hx; apply HP; by right).
  destruct (decide (P a)) as [|Hn]; [reflexivity|].
  exfalso. apply Hn, HP. by left.
Qed.

Lemma searches_app (a b : list Event) : searches (a ++ b) = searches a ++ searches b.
Proof. unfold searches. apply omap_app. Qed.

Lemma run_llm_invoke (prompt : pystr) (w : World) :
  llm_invoke prompt w = (llm w prompt, log (LlmInvoke prompt) w).
Proof. reflexivity. Qed.

(** What [query_all_pdfs] does once the store is there and answers. *)
Lemma run_query_store (w : World) (st : Store) (question : pystr) (k : nat) :
  fs w !! CHROMA_DB_DIR = Some st ->
  embeddings_fault (faults w) = None ->
  open_fault (faults w) = None ->
  search_fault (faults w) = None ->
  let docs := take k (ranking w question) in
  let distribution := count_sources docs in
  exists (pre post : list Event) (w' : World),
    query_store question k w =
      (match llm w (all_pdfs_prompt docs question) with
       | inl e => inl e
       | inr content =>
           inr (docs, mkQueryResult content (fst <$> distribution)
                                    (Some distribution))
       end, w') /\
    trace w' = trace w ++ pre ++ [Search k question] ++ post /\
    searches pre = [] /\ searches post = [].
Proof.
  intros Hst Hemb Hopen Hsearch docs distribution.
  unfold query_store. rewrite run_bind, run_print, run_bind.
  set (w1 := log (Print _) w).
  assert (Hst1 : fs w1 !! CHROMA_DB_DIR = Some st) by exact Hst.
  assert (new_embeddings w1 = (inr tt, w1)) as ->.
  { unfold new_embeddings, fault. rewrite run_bind. simpl.
    change (embeddings_fault (faults w1)) with (embeddings_fault (faults w)).
    by rewrite Hemb. }
  rewrite run_bind, (run_chroma_open _ _ Hst1).
  change (open_fault (faults w1)) with (open_fault (faults w)). rewrite Hopen.
  rewrite run_bind.
  assert (collection_count CHROMA_DB_DIR w1 =
          (inr (Z.of_nat (size (entries st))), w1)) as ->.
  { unfold collection_count. rewrite run_bind. simpl.
    unfold collection_at. by rewrite Hst1. }
  rewrite run_bind, run_print, run_bind, run_retriever_invoke.
  set (w2 := log (Print _) w1).
  change (search_fault (faults w2)) with (search_fault (faults w)).
  rewrite Hsearch.
  change (ranking w2 question) with (ranking w question).
  fold docs. fold distribution.
  rewrite run_bind, run_print, run_bind.
  set (w3 := log (Print _) (log (Search k question) w2)).
  destruct (run_print_each
              ((fun sc => u "   " ++ [0x2022] ++ u " " ++ fst sc ++ u ": " ++
                          str_int (snd sc) ++ u " chunks") <$> distribution) w3)
    as (w4 & -> & _ & _ & Hllm & evs & Htr & Hevs).
  rewrite run_bind, run_llm_invoke, Hllm. change (llm w3) with (llm w).
  eexists [_; _], (_ :: evs ++ [LlmInvoke (all_pdfs_prompt docs question)]), _.
  split; [|split; [|split]].
  - destruct (llm w (all_pdfs_prompt docs question)) as [e|content]; reflexivity.
  - simpl. rewrite Htr. simpl. by rewrite <- !app_assoc.
  - reflexivity.
  - simpl. by rewrite searches_app, Hevs.
Qed.

(** C8, amended: when the store exists and can be opened and searched,
    all-documents retrieval makes one similarity search, with limit [k],
    and uses its result unfiltered: at most [k] chunks; the counts of
    [chunk_distribution] add up to the number of those chunks that carry a
    source, hence to the number of chunks when each carries one. *)
Theorem query_all_pdfs_spec (w : World) (st : Store) (question : pystr) (k : nat) :
  fs w !! CHROMA_DB_DIR = Some st ->
  embeddings_fault (faults w) = None ->
  open_fault (faults w) = None ->
  search_fault (faults w) = None ->
  let out := query_all_pdfs_docs question k w in
  let docs := take k (ranking w question) in
  let distribution := count_sources docs in
  fst out =
    match llm w (all_pdfs_prompt docs question) with
    | inl e => inl e
    | inr content =>
        inr (docs, mkQueryResult content (fst <$> distribution) (Some distribution))
    end /\
  fst (query_all_pdfs question k w) =
    match llm w (all_pdfs_prompt docs question) with
    | inl e => inl e
    | inr content =>
        inr (mkQueryResult content (fst <$> distribution) (Some distribution))
    end /\
  searches (new_events w (snd out)) = [(k, question)] /\
  (length docs <= k)%nat /\
  dict_total distribution = len (filter has_source docs) /\
  (Forall has_source docs -> dict_total distribution = len docs).
Proof.
  intros Hst Hemb Hopen Hsearch out docs distribution.
  assert (Htotal : dict_total distribution = len (filter has_source docs))
    by apply count_sources_total.
  destruct (run_query_store w st question k Hst Hemb Hopen Hsearch)
    as (pre & post & w' & Hrun & Htr & Hpre & Hpost).
  assert (Hout : out = query_store question k w).
  { unfold out, query_all_pdfs_docs. rewrite run_bind, run_path_exists.
    rewrite bool_decide_eq_true_2 by eauto. reflexivity. }
  assert (Hdict : fst (query_all_pdfs question k w) =
                  match fst out with
                  | inl e => inl e
                  | inr r => inr (snd r)
                  end).
  { unfold query_all_pdfs. rewrite run_bind. fold out.
    by destruct out as [[e|r] w'']. }
  rewrite Hdict, Hout, Hrun. cbn [fst snd]. fold docs distribution.
  split; [reflexivity|].
  split; [by destruct (llm w (all_pdfs_prompt docs question))|].
  split; [|split; [|split]].
  - rewrite (new_events_app _ _ _ Htr), !searches_app, Hpre, Hpost. reflexivity.
  - unfold docs. rewrite length_take. lia.
  - exact Htotal.
  - intros Hall. rewrite Htotal. f_equal.
    apply filter_keep_all_in. by apply Forall_forall.
Qed.

(** C8 as stated fails: a chunk whose metadata has no source is returned by
    the search and used, but line 208 leaves it out of the counts. *)
Lemma chunk_without_source_is_not_counted :
  let w := Sample.with_ranking [Sample.anonymous]
             (Sample.with_store Sample.stored_a Sample.quiet_world) in
  fst (query_all_pdfs_docs (u "question") 10 w) =
    inr ([Sample.anonymous], mkQueryResult (u "ok") [] (Some [])) /\
  fst (query_all_pdfs (u "question") 10 w) =
    inr (mkQueryResult (u "ok") [] (Some [])) /\
  dict_total [] = 0 /\ len [Sample.anonymous] = 1.
Proof. vm_compute. repeat split; reflexivity. Qed.

(** Three chunks ranked, two asked for: two used, each counted. *)
Lemma query_all_pdfs_spec_witness :
  let docs := [Sample.doc "one" "docs/a.pdf"; Sample.doc "two" "lib/b.pdf";
               Sample.doc "three" "old/a.pdf"] in
  let w := Sample.with_ranking docs
             (Sample.with_store Sample.stored_a Sample.quiet_world) in
  let out := query_all_pdfs_docs (u "question") 2 w in
  fst out =
    inr (take 2 docs,
         mkQueryResult (u "ok") [u "a.pdf"; u "b.pdf"]
                       (Some [(u "a.pdf", 1); (u "b.pdf", 1)])) /\
  searches (new_events w (snd out)) = [(2%nat, u "question")] /\
  dict_total (count_sources (take 2 docs)) = 2.
Proof.
  intros docs w out.
  assert (H1 : fs w !! CHROMA_DB_DIR = Some Sample.stored_a)
    by (vm_compute; reflexivity).
  destruct (query_all_pdfs_spec w Sample.stored_a (u "question") 2 H1
              eq_refl eq_refl eq_refl)
    as (Hres & _ & Hsearch & _ & Htotal & _).
  split; [|split].
  - unfold out. rewrite Hres. vm_compute. reflexivity.
  - exact Hsearch.
  - vm_compute. reflexivity.
Defined.

(** Without a store no search is made and the returned [dict] has no
    [chunk_distribution]. *)
Example query_all_pdfs_without_store :
  query_all_pdfs (u "question") 10 Sample.quiet_world =
  (inr (mkQueryResult
          (u "No database found. Please process at least one PDF first.")
          [] None),
   Sample.quiet_world).
Proof. vm_compute. reflexivity. Qed.

End QueryFacts.

(** ** Store introspection *)

Section IntrospectionFacts.

Lemma add_files_from (total : Z) (files : list (pystr * option Z)) :
  foldl add_file total files = total + foldl add_file 0 files.
Proof.
  revert total. induction files as [|f r IH]; intros total; simpl; [lia|].
  rewrite IH, (IH (add_file 0 f)). unfold add_file.
  destruct (getsize f); lia.
Qed.

Lemma add_entries_from (total : Z) (entries : list WalkEntry) :
  foldl (fun total_size entry => foldl add_file total_size (snd entry))
        total entries =
  total + total_size_of entries.
Proof.
  unfold total_size_of.
  revert total. induction entries as [|e r IH]; intros total; simpl; [lia|].
  rewrite IH, (IH (foldl add_file 0 e.2)), (add_files_from total). lia.
Qed.

Lemma total_size_of_app (a b : list WalkEntry) :
  total_size_of (a ++ b) = total_size_of a + total_size_of b.
Proof.
  unfold total_size_of at 1. rewrite foldl_app, add_entries_from. reflexivity.
Qed.

Lemma total_size_of_cons (e : WalkEntry) (r : list WalkEntry) :
  total_size_of (e :: r) = foldl add_file 0 (snd e) + total_size_of r.
Proof. apply (total_size_of_app [e] r). Qed.

Lemma total_size_of_flat_map {A : Type} (f : A -> list WalkEntry) (l : list A) :
  total_size_of (flat_map f l) = foldr Z.add 0 (map (fun x => total_size_of (f x)) l).
Proof.
  induction l as [|x l IH]; [reflexivity|].
  simpl. rewrite total_size_of_app, IH. reflexivity.
Qed.

(** Files lying directly in a directory and the bytes found below its
    sub-directories make up the readable bytes of its children. *)
Lemma children_bytes (cs : list (pystr * Node)) :
  foldl add_file 0 (file_entries cs) +
  foldr Z.add 0 (map (fun c => bytes_under (snd c)) cs) =
  foldr Z.add 0 (map (fun c => readable_bytes (snd c)) cs).
Proof.
  unfold file_entries.
  induction cs as [|[name c] cs IH]; [reflexivity|].
  cbn [map foldr omap list_omap snd fst].
  destruct c as [[sz|]|children]; cbn [bytes_under readable_bytes foldl].
  - rewrite add_files_from. unfold add_file at 1. cbn [getsize snd]. lia.
  - rewrite add_files_from. unfold add_file at 1. cbn [getsize snd]. lia.
  - fold readable_bytes. cbn [readable_bytes] in *. lia.
Qed.

(** What [os.walk] and [os.path.getsize] add up to is the size of the
    readable files below the directory. *)
Lemma total_size_of_walk (n : Node) (dirpath : pystr) :
  total_size_of (walk dirpath n) = bytes_under n.
Proof.
  revert dirpath. induction n as [sz|cs IH] using Node_children_ind;
    intros dirpath; [reflexivity|].
  cbn [walk bytes_under readable_bytes].
  rewrite total_size_of_cons, total_size_of_flat_map. cbn [snd].
  rewrite <- children_bytes. f_equal. f_equal.
  apply map_ext_in. intros c Hc. rewrite Forall_forall in IH.
  apply IH. by apply list_elem_of_In.
Qed.

Lemma run_new_embeddings (w : World) :
  new_embeddings w =
  match embeddings_fault (faults w) with
  | Some e => (inl e, w)
  | None => (inr tt, w)
  end.
Proof.
  unfold new_embeddings, fault. rewrite run_bind. simpl.
  destruct (embeddings_fault (faults w)); reflexivity.
Qed.

(** C9: with no store, [get_database_info] reports [exists] false and size
    0 and [get_database_chunk_count] returns 0; with a store,
    [get_database_info] reports the size computed from the sum of the sizes
    of the readable files under the store path, and
    [get_database_chunk_count] returns the number of entries, or, when the
    embedding client or the store fails to open, the text [Error: ...] in
    place of a count instead of raising. *)
Theorem introspection_spec (w : World) :
  match fs w !! CHROMA_DB_DIR with
  | None =>
      get_database_info w =
        (inr (mkDatabaseInfo false (inl 0) (PyInt 0) None), w) /\
      get_database_chunk_count w = (inr (inl 0), w)
  | Some st =>
      get_database_info w =
        (inr (mkDatabaseInfo true (inr (u "Check after loading"))
                             (PyRoundedMiB (bytes_under (tree st)))
                             (Some CHROMA_DB_DIR)), w) /\
      fst (get_database_chunk_count w) =
        inr match embeddings_fault (faults w), open_fault (faults w) with
            | Some e, _ => inr (u "Error: " ++ str_exn e)
            | None, Some e => inr (u "Error: " ++ str_exn e)
            | None, None => inl (Z.of_nat (size (entries st)))
            end
  end.
Proof.
  destruct (fs w !! CHROMA_DB_DIR) as [st|] eqn:Hst.
  - split.
    + unfold get_database_info. rewrite run_bind, run_path_exists.
      rewrite bool_decide_eq_true_2 by eauto. cbn [negb].
      unfold os_walk. rewrite !run_bind. simpl. rewrite Hst.
      rewrite total_size_of_walk. reflexivity.
    + unfold get_database_chunk_count. rewrite run_bind, run_path_exists.
      rewrite bool_decide_eq_true_2 by eauto. cbn [negb].
      unfold try_except. rewrite run_bind, run_new_embeddings.
      destruct (embeddings_fault (faults w)); [reflexivity|].
      rewrite run_bind, (run_chroma_open _ _ Hst).
      destruct (open_fault (faults w)); [reflexivity|].
      rewrite run_bind. unfold collection_count at 1. rewrite run_bind. simpl.
      unfold collection_at. rewrite Hst. reflexivity.
  - split.
    + unfold get_database_info. rewrite run_bind, run_path_exists.
      rewrite bool_decide_eq_false_2 by (rewrite Hst; intros [? ?]; discriminate).
      reflexivity.
    + unfold get_database_chunk_count. rewrite run_bind, run_path_exists.
      rewrite bool_decide_eq_false_2 by (rewrite Hst; intros [? ?]; discriminate).
      reflexivity.
Qed.

Example introspection_of_sample_store :
  let w := Sample.with_store Sample.stored_ab Sample.quiet_world in
  fst (get_database_info w) =
    inr (mkDatabaseInfo true (inr (u "Check after loading"))
                        (PyRoundedMiB 4196) (Some CHROMA_DB_DIR)) /\
  fst (get_database_chunk_count w) = inr (inl 2).
Proof. vm_compute. split; reflexivity. Qed.

Example chunk_count_when_store_does_not_open :
  let w := Sample.with_faults
             (mkFaults [] None None (Some (Exception_ (u "database is locked")))
                       None None None)
             (Sample.with_store Sample.stored_ab Sample.quiet_world) in
  fst (get_database_chunk_count w) = inr (inr (u "Error: database is locked")).
Proof. vm_compute. reflexivity. Qed.

End IntrospectionFacts.

(** ** What reaches the caller *)

Section PropagationFacts.

Lemma same_oracles_refl (w : World) : same_oracles w w.
Proof. by repeat split. Qed.

Lemma same_oracles_trans (w1 w2 w3 : World) :
  same_oracles w1 w2 -> same_oracles w2 w3 -> same_oracles w1 w3.
Proof. intros (? & ? & ?) (? & ? & ?). repeat split; congruence. Qed.

Lemma same_oracles_log (e : Event) (w : World) : same_oracles w (log e w).
Proof. by repeat split. Qed.

Lemma same_oracles_put (dir : pystr) (c : gmap pystr Document) (w : World) :
  same_oracles w (put_collection dir c w).
Proof. by repeat split. Qed.

Create HintDb oracles.
#[local] Hint Resolve same_oracles_refl same_oracles_log same_oracles_put : oracles.

Lemma run_ingest_from_documents (w : World) (use_existing_db : option bool)
      (chunks : list Document) (chunk_ids : list pystr) :
  bool_decide (is_Some (fs w !! CHROMA_DB_DIR)) && truthy use_existing_db = false ->
  exists w',
    ingest use_existing_db chunks chunk_ids w =
      (match open_fault (faults w), write_failure w chunk_ids with
       | Some e, _ => inl e
       | None, Some e => inl e
       | None, None => inr None
       end, w') /\
    same_oracles w w'.
Proof.
  intros Hmode. unfold ingest.
  rewrite run_bind, run_path_exists, Hmode, run_bind, run_from_documents.
  cbv zeta.
  destruct (open_fault (faults w)); [|destruct (write_failure w chunk_ids)];
    (eexists; split; [reflexivity|]); auto with oracles.
  eapply same_oracles_trans; [apply same_oracles_log|]. auto with oracles.
Qed.

(** Ingestion ends with the failure [ingest_failure] names, or returns, and
    leaves the oracles as they were. *)
Lemma run_ingest (w : World) (use_existing_db : option bool)
      (chunks : list Document) (chunk_ids : list pystr) :
  exists r w',
    ingest use_existing_db chunks chunk_ids w =
      (match ingest_failure w use_existing_db chunks chunk_ids with
       | Some e => inl e
       | None => inr r
       end, w') /\
    same_oracles w w'.
Proof.
  unfold ingest_failure.
  destruct (fs w !! CHROMA_DB_DIR) as [st|] eqn:Hst;
    [destruct (truthy use_existing_db) eqn:Huse|].
  - assert (use_existing_db = Some true) as ->
        by (by destruct use_existing_db as [[|]|]).
    rewrite (run_ingest_accumulate _ _ _ _ Hst), (run_accumulate _ _ _ _ Hst).
    destruct (open_fault (faults w)) as [e|].
    { exists None, w. auto with oracles. }
    cbv zeta.
    set (r := report_for st _ chunks chunk_ids).
    destruct (new_chunks r) as [|c cs].
    { exists (Some r), (log (Print (all_exist_message (len chunks))) w).
      auto with oracles. }
    assert (Hw1 : same_oracles w
                    (if decide (duplicates_skipped r > 0)
                     then log (Print (duplicates_message (duplicates_skipped r))) w
                     else w)).
    { destruct (decide (duplicates_skipped r > 0)); auto with oracles. }
    destruct (write_failure w (new_chunk_ids r)) as [e|].
    + eexists None, _. split; [reflexivity|].
      eapply same_oracles_trans; [exact Hw1|]. auto with oracles.
    + eexists (Some r), _. split; [reflexivity|].
      eapply same_oracles_trans; [exact Hw1|].
      eapply same_oracles_trans; [apply same_oracles_log|]. auto with oracles.
  - destruct (run_ingest_from_documents w use_existing_db chunks chunk_ids)
      as (w' & -> & Hsame); [by rewrite Huse, andb_false_r|].
    exists None, w'. split; [|exact Hsame].
    by destruct (open_fault (faults w)), (write_failure w chunk_ids).
  - destruct (run_ingest_from_documents w use_existing_db chunks chunk_ids)
      as (w' & -> & Hsame).
    { rewrite bool_decide_eq_false_2; [reflexivity|].
      rewrite Hst. intros [? ?]. discriminate. }
    exists None, w'. split; [|exact Hsame].
    by destruct (open_fault (faults w)), (write_failure w chunk_ids).
Qed.

(** Retrieval raises what the search raises, or returns [retrieved]. *)
Lemma run_retrieve (w : World) (pdf_file_path question : pystr)
      (filter_by_current_pdf : bool) :
  exists w',
    retrieve pdf_file_path question filter_by_current_pdf w =
      (match search_fault (faults w) with
       | Some e => inl e
       | None => inr (retrieved w pdf_file_path question filter_by_current_pdf)
       end, w') /\
    same_oracles w w'.
Proof.
  unfold retrieve, retrieved. destruct filter_by_current_pdf.
  - unfold retrieve_current_pdf. rewrite run_bind, run_retriever_invoke.
    destruct (search_fault (faults w)) as [e|].
    { eexists. split; [reflexivity|]. auto with oracles. }
    cbv zeta.
    destruct (filter _ (take 20 (ranking w question))) as [|m ms].
    + rewrite take_nil, run_bind, run_print, run_ret.
      eexists. split; [reflexivity|].
      eapply same_oracles_trans; apply same_oracles_log.
    + assert (take 5 (m :: ms) = m :: take 4 ms) as Htake by reflexivity.
      rewrite Htake, run_bind, run_print, run_ret.
      eexists. split; [reflexivity|].
      eapply same_oracles_trans; apply same_oracles_log.
  - rewrite run_bind, run_retriever_invoke.
    destruct (search_fault (faults w)) as [e|].
    { eexists. split; [reflexivity|]. auto with oracles. }
    rewrite run_bind, run_print, run_ret.
    eexists. split; [reflexivity|].
    eapply same_oracles_trans; apply same_oracles_log.
Qed.

(** Once the mode is settled, [legal_analyst_tool] ends as
    [outcome_after_mode] says. *)
Lemma legal_analyst_tool_outcome (w w1 : World) (use_existing_db mode : option bool)
      (pdf_file_path question : pystr) (filter_by_current_pdf : bool) :
  choose_mode use_existing_db w = (inr mode, w1) ->
  fst (legal_analyst_tool pdf_file_path question use_existing_db
                          filter_by_current_pdf w) =
  outcome_after_mode w1 mode pdf_file_path question filter_by_current_pdf.
Proof.
  intros Hmode. unfold legal_analyst_tool, outcome_after_mode.
  rewrite run_bind, Hmode, run_bind.
  assert (load_pdf pdf_file_path w1 = (pdf_loader w1 pdf_file_path, w1)) as ->
      by reflexivity.
  destruct (pdf_loader w1 pdf_file_path) as [e|documents]; [reflexivity|].
  rewrite run_bind.
  assert (split_documents documents w1 = (inr (text_splitter w1 documents), w1))
    as -> by reflexivity.
  cbv zeta. set (chunks := text_splitter w1 documents).
  rewrite run_bind, run_print, run_bind.
  set (w2 := log (Print _) w1).
  assert (lift (compute_chunk_ids chunks) w2 = (compute_chunk_ids chunks, w2))
    as -> by reflexivity.
  destruct (compute_chunk_ids chunks) as [e|chunk_ids]; [reflexivity|].
  rewrite run_bind, run_new_embeddings.
  change (embeddings_fault (faults w2)) with (embeddings_fault (faults w1)).
  destruct (embeddings_fault (faults w1)) as [e|]; [reflexivity|].
  rewrite run_bind.
  destruct (run_ingest w2 mode chunks chunk_ids) as (r & w3 & -> & Hf3 & Hr3 & Hl3).
  change (ingest_failure w2 mode chunks chunk_ids)
    with (ingest_failure w1 mode chunks chunk_ids).
  destruct (ingest_failure w1 mode chunks chunk_ids) as [e|]; [reflexivity|].
  rewrite run_bind. unfold collection_count at 1. rewrite run_bind.
  cbn [get_world]. rewrite run_ret, run_bind, run_print, run_bind.
  set (w4 := log (Print _) w3).
  destruct (run_retrieve w4 pdf_file_path question filter_by_current_pdf)
    as (w5 & -> & Hf5 & Hr5 & Hl5).
  change (faults w4) with (faults w3). rewrite Hf3.
  change (faults w2) with (faults w1).
  destruct (search_fault (faults w1)) as [e|]; [reflexivity|].
  assert (retrieved w4 pdf_file_path question filter_by_current_pdf =
          retrieved w1 pdf_file_path question filter_by_current_pdf) as ->.
  { unfold retrieved. change (ranking w4) with (ranking w3). by rewrite Hr3. }
  rewrite run_bind.
  set (docs := retrieved w1 pdf_file_path question filter_by_current_pdf).
  destruct (decide (source_set docs = ∅)).
  - rewrite run_ret, run_llm_invoke. cbn [fst].
    rewrite Hl5. change (llm w4) with (llm w3). by rewrite Hl3.
  - rewrite run_print, run_llm_invoke. cbn [fst].
    change (llm (log (Print ([0x1F4C4] ++ u " Sources used: " ++
                             join (u ", ") (elements (source_set docs)))) w5))
      with (llm w5).
    rewrite Hl5. change (llm w4) with (llm w3). by rewrite Hl3.
Qed.

(** A failure while the mode is settled (no answer on the console, a
    deletion that fails for another reason than a lock, a rename that
    fails) ends the whole run. *)
Lemma mode_failure_is_raised (w w1 : World) (use_existing_db : option bool)
      (pdf_file_path question : pystr) (filter_by_current_pdf : bool) (e : exn) :
  choose_mode use_existing_db w = (inl e, w1) ->
  legal_analyst_tool pdf_file_path question use_existing_db
                     filter_by_current_pdf w = (inl e, w1).
Proof.
  intros Hmode. unfold legal_analyst_tool. by rewrite run_bind, Hmode.
Qed.

(** C6, amended: once lines 16-64 have settled the mode, every failure on
    the way of [legal_analyst_tool] reaches the caller as the exception
    raised, the first one met: loading the document, encoding a chunk,
    creating the embedding client, opening the store, the insert, the
    search, the call of the language model.  Not so a failure of the
    membership lookup in accumulate mode: the set of existing ids becomes
    empty and every chunk is handed to the store as new; nor a failure of
    [os.path.getsize] in [get_database_info]: the file adds nothing. *)
Theorem failure_policy (w w1 : World) (use_existing_db mode : option bool)
        (pdf_file_path question : pystr) (filter_by_current_pdf : bool) :
  choose_mode use_existing_db w = (inr mode, w1) ->
  fst (legal_analyst_tool pdf_file_path question use_existing_db
                          filter_by_current_pdf w) =
    outcome_after_mode w1 mode pdf_file_path question filter_by_current_pdf /\
  (forall st chunks chunk_ids e,
     fs w1 !! CHROMA_DB_DIR = Some st ->
     length chunk_ids = length chunks ->
     get_fault (faults w1) = Some e ->
     lookup_existing_ids chunk_ids w1 = (inr ∅, w1) /\
     insert_calls (new_events w1 (snd (ingest (Some true) chunks chunk_ids w1))) =
       match open_fault (faults w1), chunks with
       | None, _ :: _ => [(chunks, chunk_ids)]
       | _, _ => []
       end) /\
  (forall total name, add_file total (name, None) = total).
Proof.
  intros Hmode. split; [|split].
  - by apply legal_analyst_tool_outcome.
  - intros st chunks chunk_ids e Hst Hlen Hget.
    destruct (lookup_failure_defaults w1 st chunks chunk_ids e Hst Hlen Hget)
      as (Hlookup & _ & Hcalls).
    split; assumption.
  - reflexivity.
Qed.

(** C6 as stated fails: the membership lookup raises while the store holds
    the chunk id; the exception is replaced by the empty set and
    the ingestion returns normally. *)
Lemma lookup_failure_is_swallowed :
  let w := Sample.with_faults Sample.lookup_broken
             (Sample.with_store Sample.stored_a Sample.quiet_world) in
  let ids := [Sample.id_of Sample.chunk_a] in
  get_fault (faults w) = Some (Exception_ (u "lookup failed")) /\
  fst (collection_get CHROMA_DB_DIR ids w) = inl (Exception_ (u "lookup failed")) /\
  fst (lookup_existing_ids ids w) = inr ∅ /\
  match fst (ingest (Some true) [Sample.chunk_a] ids w) with
  | inr (Some r) => existing_ids r = ∅
  | _ => False
  end.
Proof. vm_compute. repeat split; reflexivity. Qed.


(** The lookup fails and the run still returns the answer. *)
Lemma failure_policy_witness :
  let w := Sample.with_faults Sample.lookup_broken
             (Sample.with_store Sample.stored_a Sample.reading_world) in
  let ids := [Sample.id_of Sample.chunk_a; Sample.id_of Sample.chunk_b] in
  exists w1,
    choose_mode (Some true) w = (inr (Some true), w1) /\
    fst (legal_analyst_tool (u "docs/a.pdf") (u "question") (Some true) true w) =
      inr (u "ok") /\
    lookup_existing_ids ids w1 = (inr ∅, w1).
Proof.
  intros w ids. eexists. split; [reflexivity|].
  match goal with
  | |- context [lookup_existing_ids ids ?x] => set (w1 := x)
  end.
  assert (Hmode : choose_mode (Some true) w = (inr (Some true), w1)) by reflexivity.
  destruct (failure_policy w w1 (Some true) (Some true) (u "docs/a.pdf")
              (u "question") true Hmode) as (Hout & Hlookup & _).
  split.
  - rewrite Hout. vm_compute. reflexivity.
  - assert (Hst : fs w1 !! CHROMA_DB_DIR = Some Sample.stored_a)
      by (vm_compute; reflexivity).
    apply (Hlookup Sample.stored_a [Sample.chunk_a; Sample.chunk_b] ids
                   (Exception_ (u "lookup failed")) Hst eq_refl eq_refl).
Defined.

(** An exception of the embedding client, of the search or of the language
    model is what the caller gets. *)
Example other_failures_are_raised :
  let run f := fst (legal_analyst_tool (u "docs/a.pdf") (u "question") (Some true) true
                      (Sample.with_faults f
                         (Sample.with_store Sample.stored_a Sample.reading_world))) in
  let boom := Exception_ (u "boom") in
  run (mkFaults [] None (Some boom) None None None None) = inl boom /\
  run (mkFaults [] None None (Some boom) None None None) = inl boom /\
  run (mkFaults [] None None None None (Some boom) None) = inl boom /\
  run (mkFaults [] None None None None None (Some boom)) = inl boom /\
  run (mkFaults [] None None None (Some boom) None None) = inr (u "ok").
Proof. vm_compute. repeat split; reflexivity. Qed.

End PropagationFacts.

(** ** The model at work *)

Section Scenarios.

(** The padded message is cut into whole blocks, and the fuel of [blocks]
    is enough to cut all of it. *)
Lemma pad_length (msg : list Z) : (Z.of_nat (length (Sha256.pad msg))) mod 64 = 0.
Proof.
  unfold Sha256.pad. rewrite !length_app, length_replicate. simpl length.
  set (n := Z.of_nat (length msg)).
  pose proof (Z.mod_pos_bound (55 - n) 64 ltac:(lia)) as Hr.
  pose proof (Z.div_mod (55 - n) 64 ltac:(lia)) as Hq.
  rewrite !Nat2Z.inj_add, Z2Nat.id by lia. fold n.
  apply Z.mod_divide; [lia|]. exists (1 - (55 - n) / 64). lia.
Qed.

Lemma blocks_concat (fuel : nat) (bs : list Z) :
  (length bs <= fuel)%nat -> concat (Sha256.blocks fuel bs) = bs.
Proof.
  revert bs. induction fuel as [|f IH]; intros bs Hlen.
  - destruct bs; [reflexivity|simpl in Hlen; lia].
  - destruct bs as [|b r]; [reflexivity|].
    cbn [Sha256.blocks concat]. rewrite IH.
    + apply take_drop.
    + rewrite length_drop. simpl length in *. lia.
Qed.

(** The scenario of the design document: a document of three chunks is
    ingested into a new store, then again in accumulate mode, then a
    document of two other chunks. *)
Example three_then_none_then_two :
  let a := [Sample.doc "one" "a.pdf"; Sample.doc "two" "a.pdf"; Sample.doc "three" "a.pdf"] in
  let b := [Sample.doc "four" "b.pdf"; Sample.doc "five" "b.pdf"] in
  let ids l := Sample.id_of <$> l in
  let first := ingest None a (ids a) Sample.quiet_world in
  let again := ingest (Some true) a (ids a) (snd first) in
  let other := ingest (Some true) b (ids b) (snd again) in
  fst (collection_count CHROMA_DB_DIR (snd first)) = inr 3 /\
  (exists r, fst again = inr (Some r) /\
             new_chunks r = [] /\ duplicates_skipped r = 3) /\
  fst (collection_count CHROMA_DB_DIR (snd again)) = inr 3 /\
  (exists r, fst other = inr (Some r) /\
             new_chunks r = b /\ duplicates_skipped r = 0) /\
  fst (collection_count CHROMA_DB_DIR (snd other)) = inr 5.
Proof.
  vm_compute. repeat split; try reflexivity; eexists; repeat split; reflexivity.
Qed.

(** Asked on the console, the user first mistypes, then answers no: the
    store is deleted and the run goes on in fresh mode. *)
Example asked_then_deleted :
  let w := set_stdin [u "maybe"; u " n "]
             (Sample.with_store Sample.stored_a Sample.quiet_world) in
  fst (choose_mode None w) = inr (Some false) /\
  fs (snd (choose_mode None w)) !! CHROMA_DB_DIR = None /\
  stdin (snd (choose_mode None w)) = [].
Proof. vm_compute. repeat split; reflexivity. Qed.

(** With no answer left on the console the question ends in [EOFError]. *)
Example asked_without_answer :
  let w := Sample.with_store Sample.stored_a Sample.quiet_world in
  fst (choose_mode None w) = inl (EOFError (u "EOF when reading a line")).
Proof. vm_compute. reflexivity. Qed.

End Scenarios.

(** * More properties of legal_tool.py *)

(** ** The question put to the user *)

Section PromptFacts.

Lemma run_input_line (prompt line : pystr) (rest : list pystr) (w : World) :
  stdin w = line :: rest ->
  input prompt w = (inr line, set_stdin rest (log (Print prompt) w)).
Proof. intros H. unfold input. by rewrite H. Qed.

Lemma run_input_eof (prompt : pystr) (w : World) :
  stdin w = [] ->
  input prompt w = (inl (EOFError (u "EOF when reading a line")), log (Print prompt) w).
Proof. intros H. unfold input. by rewrite H. Qed.

(** One turn of the loop on an answer it accepts. *)
Lemma ask_accepted (fuel : nat) (line : pystr) (rest : list pystr) (w : World) :
  stdin w = line :: rest -> accepts line ->
  ask_keep_existing (S fuel) w =
  (inr (is_yes line), set_stdin rest (log (Print ask_message) w)).
Proof.
  intros Hin Hacc. cbn [ask_keep_existing].
  rewrite run_bind. fold ask_message. rewrite (run_input_line _ _ _ _ Hin).
  rewrite bool_decide_eq_true_2 by exact Hacc. reflexivity.
Qed.

(** One turn of the loop on any other answer. *)
Lemma ask_refused (fuel : nat) (line : pystr) (rest : list pystr) (w : World) :
  stdin w = line :: rest -> ~ accepts line ->
  ask_keep_existing (S fuel) w =
  ask_keep_existing fuel
    (log (Print please_message) (set_stdin rest (log (Print ask_message) w))).
Proof.
  intros Hin Hacc. cbn [ask_keep_existing].
  rewrite run_bind. fold ask_message. rewrite (run_input_line _ _ _ _ Hin).
  rewrite bool_decide_eq_false_2 by exact Hacc. reflexivity.
Qed.

(** The loop skips the answers it does not accept, one warning each. *)
Lemma ask_skips (bad : list pystr) (fuel : nat) (tail : list pystr) (w : World) :
  stdin w = bad ++ tail -> Forall (fun l => ~ accepts l) bad ->
  exists w',
    ask_keep_existing (length bad + fuel) w = ask_keep_existing fuel w' /\
    stdin w' = tail /\ fs w' = fs w /\ faults w' = faults w /\
    trace w' = trace w ++ refusals bad.
Proof.
  revert w. induction bad as [|b bad IH]; intros w Hin Hbad.
  - exists w. repeat split; try done. unfold refusals. simpl. by rewrite app_nil_r.
  - apply Forall_cons in Hbad as [Hb Hbad]. simpl in Hin.
    cbn [length Nat.add]. rewrite (ask_refused _ _ _ _ Hin Hb).
    destruct (IH (log (Print please_message)
                      (set_stdin (bad ++ tail) (log (Print ask_message) w))))
      as (w' & Hrun & Hstdin & Hfs & Hfaults & Htrace); [reflexivity|exact Hbad|].
    exists w'. repeat split; try assumption.
    rewrite Htrace. unfold refusals. simpl. by rewrite <- !app_assoc.
Qed.


Lemma run_prompt_for_mode (w : World) :
  prompt_for_mode w =
  ask_keep_existing (S (length (stdin w))) (foldl (fun w e => log e w) w banner).
Proof. reflexivity. Qed.

Lemma after_banner (w : World) :
  let w0 := foldl (fun w e => log e w) w banner in
  stdin w0 = stdin w /\ fs w0 = fs w /\ faults w0 = faults w /\
  trace w0 = trace w ++ banner.
Proof.
  repeat split. unfold banner. cbn [foldl]. simpl trace.
  by rewrite <- !app_assoc.
Qed.

Lemma run_prompt_accepted (w : World) (bad : list pystr)
      (good : pystr) (rest : list pystr) :
  stdin w = bad ++ good :: rest ->
  Forall (fun l => ~ accepts l) bad ->
  accepts good ->
  exists w1,
    prompt_for_mode w = (inr (is_yes good), w1) /\
    stdin w1 = rest /\ fs w1 = fs w /\ faults w1 = faults w /\
    trace w1 = trace w ++ banner ++ refusals bad ++ [Print ask_message].
Proof.
  intros Hin Hbad Hgood. rewrite run_prompt_for_mode.
  destruct (after_banner w) as (Hs0 & Hf0 & Hx0 & Ht0).
  set (w0 := foldl (fun w e => log e w) w banner) in *.
  assert (Hfuel : S (length (stdin w)) = (length bad + S (S (length rest)))%nat).
  { rewrite Hin, length_app. simpl. lia. }
  rewrite Hfuel.
  destruct (ask_skips bad (S (S (length rest))) (good :: rest) w0)
    as (w' & -> & Hs & Hf & Hx & Ht); [congruence|exact Hbad|].
  rewrite (ask_accepted _ _ _ _ Hs Hgood).
  eexists. split; [reflexivity|]. split; [reflexivity|].
  split; [simpl; congruence|]. split; [simpl; congruence|].
  simpl. rewrite Ht, Ht0. by rewrite <- !app_assoc.
Qed.

(** X1: asked on the console (lines 19-33), the tool skips every line that
    is not an accepted answer, printing one warning for each, takes the
    first accepted one, and leaves the lines after it unread and the files
    untouched. *)
Theorem prompt_takes_first_accepted (w : World) (bad : list pystr)
        (good : pystr) (rest : list pystr) :
  stdin w = bad ++ good :: rest ->
  Forall (fun l => ~ accepts l) bad ->
  accepts good ->
  let out := prompt_for_mode w in
  fst out = inr (is_yes good) /\
  stdin (snd out) = rest /\
  fs (snd out) = fs w /\
  new_events w (snd out) = banner ++ refusals bad ++ [Print ask_message].
Proof.
  intros Hin Hbad Hgood. cbv zeta.
  destruct (run_prompt_accepted w bad good rest Hin Hbad Hgood)
    as (w1 & -> & Hs & Hf & _ & Ht).
  cbn [fst snd]. repeat split; try assumption.
  by apply new_events_app.
Qed.

(** X2: when no line left on the console is an accepted answer, the
    question ends in [EOFError] after reading them all; no mode is chosen
    by default and the files are untouched. *)
Theorem prompt_without_answer (w : World) :
  Forall (fun l => ~ accepts l) (stdin w) ->
  let out := prompt_for_mode w in
  fst out = inl (EOFError (u "EOF when reading a line")) /\
  stdin (snd out) = [] /\
  fs (snd out) = fs w /\
  new_events w (snd out) = banner ++ refusals (stdin w) ++ [Print ask_message].
Proof.
  intros Hbad. cbv zeta. rewrite run_prompt_for_mode.
  destruct (after_banner w) as (Hs0 & Hf0 & _ & Ht0).
  set (w0 := foldl (fun w e => log e w) w banner) in *.
  assert (Hfuel : S (length (stdin w)) = (length (stdin w) + 1)%nat) by lia.
  rewrite Hfuel.
  destruct (ask_skips (stdin w) 1 [] w0)
    as (w' & -> & Hs & Hf & _ & Ht); [by rewrite app_nil_r|exact Hbad|].
  cbn [ask_keep_existing]. rewrite run_bind. fold ask_message.
  rewrite (run_input_eof _ _ Hs). cbn [fst snd].
  split; [reflexivity|]. split; [exact Hs|]. split.
  - simpl. congruence.
  - apply new_events_app. simpl. rewrite Ht, Ht0. by rewrite <- !app_assoc.
Qed.

Lemma prompt_takes_first_accepted_witness :
  let w := set_stdin [u "maybe"; u "  y "; u "N"] Sample.quiet_world in
  fst (prompt_for_mode w) = inr true /\
  stdin (snd (prompt_for_mode w)) = [u "N"].
Proof.
  intros w.
  assert (H1 : stdin w = [u "maybe"] ++ u "  y " :: [u "N"]) by reflexivity.
  assert (H2 : Forall (fun l => ~ accepts l) [u "maybe"]).
  { constructor; [|constructor]. unfold accepts. vm_compute.
    intros H. apply list_elem_of_In in H. simpl in H. intuition discriminate. }
  assert (H3 : accepts (u "  y ")).
  { unfold accepts. vm_compute. left. }
  destruct (prompt_takes_first_accepted w _ _ _ H1 H2 H3) as (Hres & Hrest & _).
  split; [exact Hres|exact Hrest].
Defined.

Lemma prompt_without_answer_witness :
  let w := set_stdin [u "maybe"; u "yes"] Sample.quiet_world in
  fst (prompt_for_mode w) = inl (EOFError (u "EOF when reading a line")) /\
  stdin (snd (prompt_for_mode w)) = [].
Proof.
  intros w.
  assert (H : Forall (fun l => ~ accepts l) (stdin w)).
  { repeat (constructor;
            [unfold accepts; vm_compute; intros H; apply list_elem_of_In in H;
             simpl in H; intuition discriminate|]).
    constructor. }
  destruct (prompt_without_answer w H) as (Hres & Hrest & _).
  split; [exact Hres|exact Hrest].
Defined.

Lemma upper_is_Y (s : pystr) : upper s = u "Y" <-> s = u "y" \/ s = u "Y".
Proof.
  change (u "Y") with [89]. change (u "y") with [121].
  destruct s as [|c [|c' s]]; simpl; split; intros H;
    try discriminate; try (destruct H; discriminate).
  - injection H as H. destruct (decide (97 <= c <= 122)); [left|right]; f_equal; lia.
  - destruct H as [H|H]; injection H as ->; reflexivity.
Qed.

Lemma upper_is_N (s : pystr) : upper s = u "N" <-> s = u "n" \/ s = u "N".
Proof.
  change (u "N") with [78]. change (u "n") with [110].
  destruct s as [|c [|c' s]]; simpl; split; intros H;
    try discriminate; try (destruct H; discriminate).
  - injection H as H. destruct (decide (97 <= c <= 122)); [left|right]; f_equal; lia.
  - destruct H as [H|H]; injection H as ->; reflexivity.
Qed.

Lemma lstrip_spaces (pre s : pystr) :
  Forall space pre -> lstrip (pre ++ s) = lstrip s.
Proof.
  induction 1 as [|c pre Hc _ IH]; [reflexivity|].
  simpl. unfold space in Hc. by rewrite Hc.
Qed.

Lemma lstrip_keeps (s : pystr) :
  (forall c, head s = Some c -> ~ space c) -> lstrip s = s.
Proof.
  destruct s as [|c r]; [reflexivity|]. intros H. simpl.
  destruct (is_space c) eqn:Hc; [|reflexivity].
  exfalso. by apply (H c).
Qed.

(** [strip] removes the white space around a trimmed text and nothing
    else. *)
Lemma strip_surrounded (pre core post : pystr) :
  Forall space pre -> Forall space post -> trimmed core ->
  strip (pre ++ core ++ post) = core.
Proof.
  intros Hpre Hpost [Hhead Hlast]. unfold strip.
  rewrite (lstrip_spaces _ _ Hpre).
  destruct core as [|a mid].
  - simpl. assert (lstrip post = []) as ->.
    { rewrite <- (app_nil_r post). rewrite (lstrip_spaces _ _ Hpost). reflexivity. }
    reflexivity.
  - rewrite (lstrip_keeps ((a :: mid) ++ post))
      by (intros c Hc; apply Hhead; exact Hc).
    rewrite reverse_app, (lstrip_spaces (reverse post))
      by (by apply Forall_reverse).
    rewrite lstrip_keeps; [apply reverse_involutive|].
    intros c Hc. apply Hlast. by rewrite <- head_reverse.
Qed.

(** X3: an answer on the console is accepted exactly when, white space at
    both ends removed, it is one of y, Y, n, N, and it means yes exactly
    for y and Y; white space around the letter never matters. *)
Theorem answers_accepted :
  (forall line, accepts line <->
                strip line ∈ [u "y"; u "Y"; u "n"; u "N"]) /\
  (forall line, is_yes line = true <-> strip line ∈ [u "y"; u "Y"]) /\
  (forall pre core post,
     Forall space pre -> Forall space post -> trimmed core ->
     strip (pre ++ core ++ post) = core).
Proof.
  split; [|split].
  - intros line. unfold accepts.
    rewrite !elem_of_cons, !elem_of_nil, upper_is_Y, upper_is_N. tauto.
  - intros line. unfold is_yes.
    rewrite bool_decide_eq_true, !elem_of_cons, elem_of_nil, upper_is_Y. tauto.
  - apply strip_surrounded.
Qed.

End PromptFacts.

(** * What a run leaves alone *)

Section Frames.

Variable P : Event -> Prop.
Variable F : relation (gmap pystr Store).
Hypothesis F_refl : forall f, F f f.
Hypothesis F_trans : forall f g h, F f g -> F g h -> F f h.
Hypothesis P_reads : forall e, reads_only e -> P e.

Lemma evolves_refl (w : World) : evolves P F w w.
Proof.
  split; [reflexivity|]. split; [apply F_refl|].
  exists []. split; [by rewrite app_nil_r|constructor].
Qed.

Lemma evolves_trans (w1 w2 w3 : World) :
  evolves P F w1 w2 -> evolves P F w2 w3 -> evolves P F w1 w3.
Proof.
  intros (Hs1 & Hf1 & evs1 & Ht1 & Hp1) (Hs2 & Hf2 & evs2 & Ht2 & Hp2).
  split; [congruence|]. split; [eapply F_trans; eassumption|].
  exists (evs1 ++ evs2). split.
  - rewrite Ht2, Ht1. by rewrite app_assoc.
  - by apply Forall_app.
Qed.

Lemma evolves_log (e : Event) (w : World) : P e -> evolves P F w (log e w).
Proof.
  intros He. split; [reflexivity|]. split; [apply F_refl|].
  exists [e]. split; [reflexivity|]. by constructor.
Qed.

Lemma evolves_clock (f : Z -> Z) (w : World) : evolves P F w (set_clock f w).
Proof.
  split; [reflexivity|]. split; [apply F_refl|].
  exists []. split; [simpl; by rewrite app_nil_r|constructor].
Qed.

Lemma steps_ret {A : Type} (a : A) : steps (evolves P F) (mret a : M A).
Proof. intros w. apply evolves_refl. Qed.

Lemma steps_raise {A : Type} (e : exn) : steps (evolves P F) (raise e : M A).
Proof. intros w. apply evolves_refl. Qed.

Lemma steps_lift {A : Type} (r : exn + A) : steps (evolves P F) (lift r).
Proof. intros w. apply evolves_refl. Qed.

Lemma steps_get_world : steps (evolves P F) get_world.
Proof. intros w. apply evolves_refl. Qed.

Lemma steps_modify (f : World -> World) :
  (forall w, evolves P F w (f w)) -> steps (evolves P F) (modify f).
Proof. intros H w. apply H. Qed.

(** A run that starts within the frame stays within it. *)
Lemma steps_from {A B : Type} (m : M A) (f : A -> M B) (w : World) :
  evolves P F w (snd (m w)) -> (forall a, steps (evolves P F) (f a)) ->
  evolves P F w (snd ((m ≫= f) w)).
Proof.
  intros Hm Hf. unfold mbind, M_bind.
  destruct (m w) as [[e|a] w']; [exact Hm|].
  eapply evolves_trans; [exact Hm|apply Hf].
Qed.

Lemma steps_bind {A B : Type} (m : M A) (f : A -> M B) :
  steps (evolves P F) m -> (forall a, steps (evolves P F) (f a)) ->
  steps (evolves P F) (m ≫= f).
Proof. intros Hm Hf w. apply steps_from; [apply Hm|exact Hf]. Qed.

Lemma steps_try_except {A : Type} (body : M A) (handler : exn -> option (M A)) :
  steps (evolves P F) body ->
  (forall e h, handler e = Some h -> steps (evolves P F) h) ->
  steps (evolves P F) (try_except body handler).
Proof.
  intros Hb Hh w. unfold try_except. specialize (Hb w).
  destruct (body w) as [[e|a] w']; [|exact Hb].
  destruct (handler e) as [h|] eqn:He; [|exact Hb].
  eapply evolves_trans; [exact Hb|]. eapply Hh; eassumption.
Qed.

Lemma steps_fault {A : Type} (sel : Faults -> option exn) (ok : M A) :
  steps (evolves P F) ok -> steps (evolves P F) (fault sel ok).
Proof.
  intros Hok. unfold fault. apply steps_bind; [apply steps_get_world|].
  intros w. destruct (sel (faults w)); [apply steps_raise|exact Hok].
Qed.

Lemma steps_print (line : pystr) : steps (evolves P F) (print line).
Proof. apply steps_modify. intros w. apply evolves_log, P_reads. exact I. Qed.

Lemma steps_sleep (ms : Z) : steps (evolves P F) (sleep ms).
Proof.
  apply steps_modify. intros w.
  eapply evolves_trans; [apply evolves_clock|apply evolves_log, P_reads; exact I].
Qed.

Lemma steps_gc_collect : steps (evolves P F) gc_collect.
Proof. apply steps_modify. intros w. apply evolves_log, P_reads. exact I. Qed.

Lemma steps_time_time : steps (evolves P F) time_time.
Proof. apply steps_bind; [apply steps_get_world|intros; apply steps_ret]. Qed.

Lemma steps_path_exists (p : pystr) : steps (evolves P F) (path_exists p).
Proof. apply steps_bind; [apply steps_get_world|intros; apply steps_ret]. Qed.

Lemma steps_new_embeddings : steps (evolves P F) new_embeddings.
Proof. apply steps_fault, steps_ret. Qed.

Lemma steps_collection_count (dir : pystr) :
  steps (evolves P F) (collection_count dir).
Proof. apply steps_bind; [apply steps_get_world|intros; apply steps_ret]. Qed.

Lemma steps_collection_get (dir : pystr) (ids : list pystr) :
  steps (evolves P F) (collection_get dir ids).
Proof.
  apply steps_fault, steps_bind; [apply steps_get_world|intros; apply steps_ret].
Qed.

Lemma steps_retriever_invoke (k : nat) (question : pystr) :
  steps (evolves P F) (retriever_invoke k question).
Proof.
  apply steps_bind.
  - apply steps_modify. intros w. apply evolves_log, P_reads. exact I.
  - intros _. apply steps_fault, steps_bind; [apply steps_get_world|].
    intros; apply steps_ret.
Qed.

Lemma steps_llm_invoke (prompt : pystr) : steps (evolves P F) (llm_invoke prompt).
Proof.
  apply steps_bind.
  - apply steps_modify. intros w. apply evolves_log, P_reads. exact I.
  - intros _. apply steps_bind; [apply steps_get_world|intros; apply steps_lift].
Qed.

Lemma steps_load_pdf (path : pystr) : steps (evolves P F) (load_pdf path).
Proof. apply steps_bind; [apply steps_get_world|intros; apply steps_lift]. Qed.

Lemma steps_split_documents (documents : list Document) :
  steps (evolves P F) (split_documents documents).
Proof. apply steps_bind; [apply steps_get_world|intros; apply steps_ret]. Qed.

Lemma steps_lookup_existing_ids (chunk_ids : list pystr) :
  steps (evolves P F) (lookup_existing_ids chunk_ids).
Proof.
  apply steps_try_except.
  - apply steps_bind; [apply steps_collection_get|intros; apply steps_ret].
  - intros e h [= <-]. apply steps_ret.
Qed.

Lemma steps_retrieve (pdf_file_path question : pystr) (filter_by_current_pdf : bool) :
  steps (evolves P F) (retrieve pdf_file_path question filter_by_current_pdf).
Proof.
  destruct filter_by_current_pdf; unfold retrieve, retrieve_current_pdf.
  - apply steps_bind; [apply steps_retriever_invoke|]. intros pool.
    destruct (take 5 _);
      (apply steps_bind; [apply steps_print|intros; apply steps_ret]).
  - apply steps_bind; [apply steps_retriever_invoke|]. intros docs.
    apply steps_bind; [apply steps_print|intros; apply steps_ret].
Qed.

(** Lines 122-172, after the ingestion: counting, searching and asking the
    model stay within any frame. *)
Lemma steps_answer (pdf_file_path question : pystr) (filter_by_current_pdf : bool) :
  steps (evolves P F)
        (total_chunks ← collection_count CHROMA_DB_DIR;
         print ([0x1F4CA] ++ u " Total chunks in database: " ++ str_int total_chunks);;
         relevant_docs ← retrieve pdf_file_path question filter_by_current_pdf;
         let source_files := source_set relevant_docs in
         (if decide (source_files = ∅) then mret tt
          else print ([0x1F4C4] ++ u " Sources used: " ++
                      join (u ", ") (elements source_files)));;
         llm_invoke (current_pdf_prompt relevant_docs question)).
Proof.
  apply steps_bind; [apply steps_collection_count|]. intros n.
  apply steps_bind; [apply steps_print|]. intros _.
  apply steps_bind; [apply steps_retrieve|]. intros docs. cbv zeta.
  apply steps_bind; [|intros _; apply steps_llm_invoke].
  destruct (decide _); [apply steps_ret|apply steps_print].
Qed.

(** The whole of [legal_analyst_tool] after the mode is settled stays within
    a frame that the two writing calls of the store stay within. *)
Lemma steps_after_mode (pdf_file_path question : pystr)
      (mode : option bool) (filter_by_current_pdf : bool) :
  steps (evolves P F) (chroma_open CHROMA_DB_DIR) ->
  (forall d i, steps (evolves P F) (add_documents CHROMA_DB_DIR d i)) ->
  (forall d i, steps (evolves P F) (from_documents CHROMA_DB_DIR d i)) ->
  steps (evolves P F)
        (documents ← load_pdf pdf_file_path;
         chunks ← split_documents documents;
         print (u "Created " ++ str_int (len chunks) ++ u " chunks from the document");;
         chunk_ids ← lift (compute_chunk_ids chunks);
         new_embeddings;;
         ingest mode chunks chunk_ids;;
         total_chunks ← collection_count CHROMA_DB_DIR;
         print ([0x1F4CA] ++ u " Total chunks in database: " ++ str_int total_chunks);;
         relevant_docs ← retrieve pdf_file_path question filter_by_current_pdf;
         let source_files := source_set relevant_docs in
         (if decide (source_files = ∅) then mret tt
          else print ([0x1F4C4] ++ u " Sources used: " ++
                      join (u ", ") (elements source_files)));;
         llm_invoke (current_pdf_prompt relevant_docs question)).
Proof.
  intros Hopen Hadd Hfrom.
  apply steps_bind; [apply steps_load_pdf|]. intros documents.
  apply steps_bind; [apply steps_split_documents|]. intros chunks.
  apply steps_bind; [apply steps_print|]. intros _.
  apply steps_bind; [apply steps_lift|]. intros chunk_ids.
  apply steps_bind; [apply steps_new_embeddings|]. intros _.
  apply steps_bind; [|intros _; apply steps_answer].
  unfold ingest. apply steps_bind; [apply steps_path_exists|]. intros db_exists.
  destruct (db_exists && truthy mode).
  - apply steps_bind; [|intros; apply steps_ret].
    unfold accumulate.
    apply steps_bind; [exact Hopen|]. intros _.
    apply steps_bind; [apply steps_collection_count|]. intros before.
    apply steps_bind; [apply steps_lookup_existing_ids|]. intros existing.
    cbv zeta. apply steps_bind; [|intros; apply steps_ret].
    destruct (fst (select_new existing chunks chunk_ids)).
    + apply steps_print.
    + apply steps_bind; [|intros _; apply Hadd].
      destruct (decide _); [apply steps_print|apply steps_ret].
  - apply steps_bind; [apply Hfrom|intros; apply steps_ret].
Qed.

End Frames.

Section FrameFacts.

Lemma paths_kept_refl (f : gmap pystr Store) : paths_kept f f.
Proof. intros p Hp. exact Hp. Qed.

Lemma paths_kept_trans (f g h : gmap pystr Store) :
  paths_kept f g -> paths_kept g h -> paths_kept f h.
Proof. intros H1 H2 p Hp. apply H2, H1, Hp. Qed.

Lemma reads_keep_directory (e : Event) : reads_only e -> keeps_directory e.
Proof. destruct e; simpl; tauto. Qed.

Ltac kept :=
  try exact paths_kept_refl; try exact paths_kept_trans;
  try exact reads_keep_directory.

Lemma put_collection_keeps_paths (dir : pystr) (c : gmap pystr Document) (w : World) :
  paths_kept (fs w) (fs (put_collection dir c w)).
Proof.
  intros p Hp. unfold put_collection. simpl.
  destruct (fs w !! dir); apply lookup_insert_is_Some;
    (destruct (decide (dir = p)); [by left|by right]).
Qed.

Lemma put_collection_undisturbed (dir : pystr) (c : gmap pystr Document) (w : World) :
  undisturbed w (put_collection dir c w).
Proof.
  split; [reflexivity|]. split; [apply put_collection_keeps_paths|].
  exists []. split; [simpl; by rewrite app_nil_r|constructor].
Qed.

Lemma log_undisturbed (e : Event) (w : World) :
  keeps_directory e -> undisturbed w (log e w).
Proof. intros He. apply evolves_log; kept. exact He. Qed.

Lemma chroma_open_undisturbed (dir : pystr) : steps undisturbed (chroma_open dir).
Proof.
  apply steps_fault; kept.
  intros w. apply put_collection_undisturbed.
Qed.

Lemma collection_upsert_undisturbed (dir : pystr) (d : list Document)
      (i : list pystr) :
  steps undisturbed (collection_upsert dir d i).
Proof.
  apply steps_fault; kept.
  destruct (validate_ids i); [apply steps_raise; kept|].
  intros w. apply put_collection_undisturbed.
Qed.

Lemma add_documents_undisturbed (dir : pystr) (d : list Document) (i : list pystr) :
  steps undisturbed (add_documents dir d i).
Proof.
  apply steps_bind; kept.
  - intros w. by apply log_undisturbed.
  - intros _. apply collection_upsert_undisturbed.
Qed.

Lemma from_documents_undisturbed (dir : pystr) (d : list Document) (i : list pystr) :
  steps undisturbed (from_documents dir d i).
Proof.
  apply steps_bind; kept.
  - intros w. by apply log_undisturbed.
  - intros _. apply steps_fault; kept. apply collection_upsert_undisturbed.
Qed.

(** With the store kept, or none there, settling the mode deletes nothing. *)
Lemma choose_mode_undisturbed (w : World) (use_existing_db : option bool) :
  use_existing_db = Some true \/ fs w !! CHROMA_DB_DIR = None ->
  undisturbed w (snd (choose_mode use_existing_db w)).
Proof.
  intros H. unfold choose_mode. rewrite run_bind, run_path_exists.
  destruct (fs w !! CHROMA_DB_DIR) as [st|] eqn:Hst.
  - destruct H as [->|H]; [|discriminate].
    rewrite bool_decide_eq_true_2 by eauto.
    simpl. by apply log_undisturbed.
  - rewrite bool_decide_eq_false_2 by (intros [? ?]; discriminate).
    simpl. by apply log_undisturbed.
Qed.

Lemma no_directory_calls (evs : list Event) :
  Forall keeps_directory evs -> rmtree_calls evs = [] /\ rename_calls evs = [].
Proof.
  induction 1 as [|e evs He _ [IH1 IH2]]; [done|].
  destruct e; simpl in *; try done.
Qed.

Lemma adds_only_new_events (P : Event -> Prop) (w w' : World) :
  adds_only P w w' -> Forall P (new_events w w').
Proof.
  intros (evs & Ht & HP). by rewrite (new_events_app _ _ _ Ht).
Qed.

(** X4: called to keep the store ([use_existing_db=True]), or with no store
    there, [legal_analyst_tool] never calls [shutil.rmtree] or [os.rename],
    reads nothing from the console, and leaves every path that existed in
    place, whichever of its steps fails. *)
Theorem keeping_never_deletes (w : World) (pdf_file_path question : pystr)
        (use_existing_db : option bool) (filter_by_current_pdf : bool) :
  use_existing_db = Some true \/ fs w !! CHROMA_DB_DIR = None ->
  let w' := snd (legal_analyst_tool pdf_file_path question use_existing_db
                                    filter_by_current_pdf w) in
  rmtree_calls (new_events w w') = [] /\
  rename_calls (new_events w w') = [] /\
  stdin w' = stdin w /\
  forall p, is_Some (fs w !! p) -> is_Some (fs w' !! p).
Proof.
  intros H w'.
  assert (Hrun : undisturbed w w').
  { apply steps_from; kept; [by apply choose_mode_undisturbed|].
    intros mode.
    apply steps_after_mode; kept;
      [apply chroma_open_undisturbed|intros; apply add_documents_undisturbed|
       intros; apply from_documents_undisturbed]. }
  destruct Hrun as (Hin & Hfs & Hev).
  apply adds_only_new_events, no_directory_calls in Hev as [Hrm Hrn].
  auto.
Qed.

Lemma keeping_never_deletes_witness :
  let w := Sample.with_store Sample.stored_a Sample.reading_world in
  let w' := snd (legal_analyst_tool (u "docs/a.pdf") (u "What applies?")
                                    (Some true) true w) in
  rmtree_calls (new_events w w') = [] /\
  is_Some (fs w' !! CHROMA_DB_DIR).
Proof.
  intros w w'.
  destruct (keeping_never_deletes w (u "docs/a.pdf") (u "What applies?")
                                  (Some true) true (or_introl eq_refl))
    as (Hrm & _ & _ & Hfs).
  split; [exact Hrm|]. apply Hfs. vm_compute. eauto.
Defined.

End FrameFacts.

Section ConsoleFacts.

Ltac free :=
  try exact (fun _ => I); try exact (fun _ _ => I);
  try exact (fun _ _ _ _ _ => I).

(** Any run that reads nothing from the console and only adds to the trace. *)
Lemma unasked_intro (w w' : World) (evs : list Event) :
  stdin w' = stdin w -> trace w' = trace w ++ evs -> unasked w w'.
Proof.
  intros Hs Ht. split; [exact Hs|]. split; [exact I|].
  exists evs. split; [exact Ht|]. apply Forall_forall. done.
Qed.

Lemma rmtree_unasked (p : pystr) : steps unasked (rmtree p).
Proof.
  intros w. unfold rmtree. cbv zeta.
  destruct (fs (log (Rmtree p) w) !! p);
    [destruct (rmtree_script (faults (log (Rmtree p) w))) as [|[e residue] tl]|];
    by apply (unasked_intro _ _ [Rmtree p]).
Qed.

Lemma rename_unasked (src dst : pystr) : steps unasked (rename src dst).
Proof.
  intros w. unfold rename. cbv zeta.
  destruct (rename_fault (faults (log (Rename src dst) w)));
    [|destruct (fs (log (Rename src dst) w) !! src)];
    by apply (unasked_intro _ _ [Rename src dst]).
Qed.

Lemma put_collection_unasked (dir : pystr) (c : gmap pystr Document) (w : World) :
  unasked w (put_collection dir c w).
Proof. apply (unasked_intro _ _ []); [reflexivity|simpl; by rewrite app_nil_r]. Qed.

Lemma chroma_open_unasked (dir : pystr) : steps unasked (chroma_open dir).
Proof. apply steps_fault; free. intros w. apply put_collection_unasked. Qed.

Lemma collection_upsert_unasked (dir : pystr) (d : list Document) (i : list pystr) :
  steps unasked (collection_upsert dir d i).
Proof.
  apply steps_fault; free.
  destruct (validate_ids i); [apply steps_raise; free|].
  intros w. apply put_collection_unasked.
Qed.

Lemma add_documents_unasked (dir : pystr) (d : list Document) (i : list pystr) :
  steps unasked (add_documents dir d i).
Proof.
  apply steps_bind; free.
  - intros w. by apply (unasked_intro _ _ [AddDocuments d i]).
  - intros _. apply collection_upsert_unasked.
Qed.

Lemma from_documents_unasked (dir : pystr) (d : list Document) (i : list pystr) :
  steps unasked (from_documents dir d i).
Proof.
  apply steps_bind; free.
  - intros w. by apply (unasked_intro _ _ [FromDocuments d i]).
  - intros _. apply steps_fault; free. apply collection_upsert_unasked.
Qed.

Lemma rename_aside_unasked (e : exn) : steps unasked (rename_aside e).
Proof.
  unfold rename_aside.
  apply steps_bind; free; [apply steps_print; free|]. intros _.
  apply steps_bind; free; [apply steps_time_time; free|]. intros t. cbv zeta.
  apply steps_try_except; free.
  - apply steps_bind; free; [apply rename_unasked|]. intros _.
    apply steps_bind; free; [apply steps_print; free|]. intros _.
    apply steps_print; free.
  - intros x h [= <-]. apply steps_raise; free.
Qed.

Lemma delete_attempts_unasked (attempts : list Z) :
  steps unasked (delete_attempts attempts).
Proof.
  induction attempts as [|attempt rest IH]; [apply steps_ret; free|].
  cbn [delete_attempts]. apply steps_bind; free.
  - apply steps_try_except; free.
    + apply steps_bind; free; [apply rmtree_unasked|]. intros _.
      apply steps_bind; free; [apply steps_print; free|]. intros _.
      apply steps_ret; free.
    + intros e h. destruct (is_PermissionError e); [|discriminate].
      intros [= <-]. destruct (decide _).
      * apply steps_bind; free; [apply steps_print; free|]. intros _.
        apply steps_bind; free; [apply steps_sleep; free|]. intros _.
        apply steps_ret; free.
      * apply steps_bind; free; [apply rename_aside_unasked|]. intros _.
        apply steps_ret; free.
  - intros [|]; [apply steps_ret; free|exact IH].
Qed.

Lemma delete_database_unasked : steps unasked delete_database.
Proof.
  unfold delete_database.
  apply steps_bind; free; [apply steps_print; free|]. intros _.
  apply steps_bind; free; [apply steps_gc_collect; free|]. intros _.
  apply steps_bind; free; [apply steps_sleep; free|]. intros _.
  apply delete_attempts_unasked.
Qed.

(** Lines 64-172 read nothing from the console. *)
Lemma after_mode_unasked (pdf_file_path question : pystr)
      (mode : option bool) (filter_by_current_pdf : bool) :
  steps unasked
        (documents ← load_pdf pdf_file_path;
         chunks ← split_documents documents;
         print (u "Created " ++ str_int (len chunks) ++ u " chunks from the document");;
         chunk_ids ← lift (compute_chunk_ids chunks);
         new_embeddings;;
         ingest mode chunks chunk_ids;;
         total_chunks ← collection_count CHROMA_DB_DIR;
         print ([0x1F4CA] ++ u " Total chunks in database: " ++ str_int total_chunks);;
         relevant_docs ← retrieve pdf_file_path question filter_by_current_pdf;
         let source_files := source_set relevant_docs in
         (if decide (source_files = ∅) then mret tt
          else print ([0x1F4C4] ++ u " Sources used: " ++
                      join (u ", ") (elements source_files)));;
         llm_invoke (current_pdf_prompt relevant_docs question)).
Proof.
  apply steps_after_mode; free;
    [apply chroma_open_unasked|intros; apply add_documents_unasked|
     intros; apply from_documents_unasked].
Qed.

(** The mode is settled without a question when the caller gave it, or
    when no store is there. *)
Lemma choose_mode_unasked (w : World) (use_existing_db : option bool) :
  is_Some use_existing_db \/ fs w !! CHROMA_DB_DIR = None ->
  unasked w (snd (choose_mode use_existing_db w)).
Proof.
  intros H. unfold choose_mode. rewrite run_bind, run_path_exists.
  destruct (fs w !! CHROMA_DB_DIR) as [st|] eqn:Hst.
  - destruct H as [[b ->]|H]; [|discriminate].
    rewrite bool_decide_eq_true_2 by eauto.
    rewrite run_bind, run_ret.
    apply (steps_bind (fun _ => True) (fun _ _ => True)); free;
      [|intros; apply steps_ret; free].
    destruct (truthy (Some b)); [apply steps_print; free|apply delete_database_unasked].
  - rewrite bool_decide_eq_false_2 by (intros [? ?]; discriminate).
    simpl. by eapply unasked_intro.
Qed.

(** X5: [legal_analyst_tool] reads the console only to ask for the mode:
    when the caller gives [use_existing_db], or when no store is there, no
    line is read, whichever step fails. *)
Theorem mode_given_reads_no_console (w : World) (pdf_file_path question : pystr)
        (use_existing_db : option bool) (filter_by_current_pdf : bool) :
  is_Some use_existing_db \/ fs w !! CHROMA_DB_DIR = None ->
  stdin (snd (legal_analyst_tool pdf_file_path question use_existing_db
                                 filter_by_current_pdf w)) = stdin w.
Proof.
  intros H.
  assert (Hrun : unasked w (snd (legal_analyst_tool pdf_file_path question
                                   use_existing_db filter_by_current_pdf w))).
  { apply steps_from; free; [by apply choose_mode_unasked|].
    intros mode. apply after_mode_unasked. }
  apply Hrun.
Qed.

Lemma mode_given_reads_no_console_witness :
  let w := set_stdin [u "N"]
             (Sample.with_store Sample.stored_a Sample.reading_world) in
  stdin (snd (legal_analyst_tool (u "docs/a.pdf") (u "What applies?")
                                 (Some false) false w)) = [u "N"].
Proof.
  intros w.
  apply (mode_given_reads_no_console w (u "docs/a.pdf") (u "What applies?")
                                     (Some false) false).
  left. eauto.
Defined.

End ConsoleFacts.

(** * More on the reset of the store (lines 38-62) *)

Section ResetMore.

Ltac trace_of :=
  unfold new_events; simpl; rewrite <- ?app_assoc; rewrite drop_app_length;
  reflexivity.

(** A deletion failure other than a [PermissionError] leaves the loop at
    once, as the exception raised. *)
Lemma attempt_propagates (w : World) (s residue : Store) (e : exn)
      (tl : list (exn * Store)) (attempt : Z) (rest : list Z) :
  fs w !! CHROMA_DB_DIR = Some s ->
  rmtree_script (faults w) = (e, residue) :: tl ->
  is_PermissionError e = false ->
  delete_attempts (attempt :: rest) w =
  (inl e, set_rmtree_script tl
            (set_fs (insert CHROMA_DB_DIR residue)
                    (log (Rmtree CHROMA_DB_DIR) w))).
Proof.
  intros Hs Hf He. simpl. rewrite run_bind. unfold try_except.
  rewrite run_bind, (run_rmtree_fail _ _ _ _ _ _ Hs Hf), He. reflexivity.
Qed.

Lemma attempt_without_directory (w : World) (attempt : Z) (rest : list Z) :
  fs w !! CHROMA_DB_DIR = None ->
  delete_attempts (attempt :: rest) w =
  (inl (FileNotFoundError CHROMA_DB_DIR), log (Rmtree CHROMA_DB_DIR) w).
Proof.
  intros Hs. simpl. rewrite run_bind. unfold try_except.
  rewrite run_bind. unfold rmtree. simpl. rewrite Hs. reflexivity.
Qed.

Lemma backup_is_elsewhere (t : Z) : backup_name_at t <> CHROMA_DB_DIR.
Proof.
  unfold backup_name_at. intros H.
  rewrite <- (app_nil_r CHROMA_DB_DIR) in H at 2.
  apply app_inv_head in H. discriminate H.
Qed.

(** X6: a failure of [shutil.rmtree] that is not a [PermissionError] is
    not retried, whenever it comes: it reaches the caller as it is, after
    one wait for each lock failure before it, with no rename, and with the
    directory still in place. *)
Theorem delete_database_other_error (w : World) (st residue : Store) (e : exn)
        (locks rest : list (exn * Store)) :
  fs w !! CHROMA_DB_DIR = Some st ->
  rmtree_script (faults w) = locks ++ (e, residue) :: rest ->
  Forall is_lock locks ->
  (length locks < 3)%nat ->
  is_PermissionError e = false ->
  let out := delete_database w in
  let evs := new_events w (snd out) in
  fst out = inl e /\
  rmtree_calls evs = replicate (S (length locks)) CHROMA_DB_DIR /\
  sleeps evs = 500 :: replicate (length locks) 1000 /\
  rename_calls evs = [] /\
  fs (snd out) !! CHROMA_DB_DIR = Some residue.
Proof.
  intros Hst Hscript Hlocks Hlen He. cbv zeta.
  rewrite run_delete_database.
  set (w0 := log (Sleep 500) _).
  assert (H0 : fs w0 !! CHROMA_DB_DIR = Some st) by exact Hst.
  assert (Hs0 : rmtree_script (faults w0) = locks ++ (e, residue) :: rest)
    by exact Hscript.
  destruct locks as [|[e1 s1] [|[e2 s2] [|l3 locks]]]; simpl in Hlen, Hs0;
    [| | |lia].
  - rewrite (attempt_propagates _ _ _ _ _ _ _ H0 Hs0 He).
    split; [reflexivity|]. split; [trace_of|]. split; [trace_of|].
    split; [trace_of|]. simpl. apply lookup_insert_eq.
  - apply Forall_cons in Hlocks as [He1 _]. unfold is_lock in He1.
    rewrite (attempt_waits _ _ _ _ _ _ _ H0 Hs0 He1) by (vm_compute; reflexivity).
    set (w1 := log (Sleep 1000) _).
    assert (H1 : fs w1 !! CHROMA_DB_DIR = Some s1) by (simpl; apply lookup_insert_eq).
    rewrite (attempt_propagates _ _ _ _ _ _ _ H1 eq_refl He).
    split; [reflexivity|]. split; [trace_of|]. split; [trace_of|].
    split; [trace_of|]. simpl. apply lookup_insert_eq.
  - apply Forall_cons in Hlocks as [He1 [He2 _]%Forall_cons].
    unfold is_lock in He1, He2.
    rewrite (attempt_waits _ _ _ _ _ _ _ H0 Hs0 He1) by (vm_compute; reflexivity).
    set (w1 := log (Sleep 1000) _).
    assert (H1 : fs w1 !! CHROMA_DB_DIR = Some s1) by (simpl; apply lookup_insert_eq).
    rewrite (attempt_waits _ _ _ _ _ _ _ H1 eq_refl He2) by (vm_compute; reflexivity).
    set (w2 := log (Sleep 1000) _).
    assert (H2 : fs w2 !! CHROMA_DB_DIR = Some s2) by (simpl; apply lookup_insert_eq).
    rewrite (attempt_propagates _ _ _ _ _ _ _ H2 eq_refl He).
    split; [reflexivity|]. split; [trace_of|]. split; [trace_of|].
    split; [trace_of|]. simpl. apply lookup_insert_eq.
Qed.

Lemma delete_database_other_error_witness :
  let disk_full := OSError (u "[Errno 28] No space left on device") in
  let w := Sample.with_faults
             (mkFaults [(Sample.locked, Sample.stored_a);
                        (disk_full, Sample.stored_a)]
                       None None None None None None)
             (Sample.with_store Sample.stored_a Sample.quiet_world) in
  fst (delete_database w) = inl disk_full /\
  rmtree_calls (new_events w (snd (delete_database w))) =
    [CHROMA_DB_DIR; CHROMA_DB_DIR] /\
  sleeps (new_events w (snd (delete_database w))) = [500; 1000].
Proof.
  intros disk_full w.
  assert (H1 : fs w !! CHROMA_DB_DIR = Some Sample.stored_a)
    by (vm_compute; reflexivity).
  assert (H2 : rmtree_script (faults w) =
               [(Sample.locked, Sample.stored_a)] ++
               (disk_full, Sample.stored_a) :: []) by reflexivity.
  assert (H3 : Forall is_lock [(Sample.locked, Sample.stored_a)]).
  { constructor; [reflexivity|constructor]. }
  destruct (delete_database_other_error w _ _ _ _ _ H1 H2 H3
              ltac:(simpl; lia) eq_refl)
    as (Hres & Hrm & Hsl & _).
  split; [exact Hres|]. split; [exact Hrm|exact Hsl].
Defined.

(** X7: whatever [shutil.rmtree] and [os.rename] do, the reset makes at most
    three deletion attempts, at most one rename and at most three waits,
    and when it returns the store path is free. *)
Theorem delete_database_bounds (w : World) :
  let out := delete_database w in
  let evs := new_events w (snd out) in
  (length (rmtree_calls evs) <= 3)%nat /\
  (length (rename_calls evs) <= 1)%nat /\
  (length (sleeps evs) <= 3)%nat /\
  (fst out = inr tt -> fs (snd out) !! CHROMA_DB_DIR = None).
Proof.
  cbv zeta. rewrite run_delete_database.
  set (w0 := log (Sleep 500) _).
  assert (Ht0 : trace w0 = trace w ++ [Print deleting_message; GcCollect; Sleep 500]).
  { unfold w0. simpl. by rewrite <- !app_assoc. }
  destruct (fs w0 !! CHROMA_DB_DIR) as [st|] eqn:H0.
  2:{ rewrite (attempt_without_directory _ _ _ H0).
      repeat split; try (intros; discriminate);
        unfold new_events; simpl; rewrite <- ?app_assoc, drop_app_length;
        simpl; lia. }
  destruct (rmtree_script (faults w0)) as [|[e1 s1] tl1] eqn:Hs0.
  { rewrite (attempt_deletes _ _ _ _ H0 Hs0).
    repeat split; try (intros _; simpl; apply lookup_delete_eq);
      unfold new_events; simpl; rewrite <- ?app_assoc, drop_app_length;
      simpl; lia. }
  destruct (is_PermissionError e1) eqn:He1.
  2:{ rewrite (attempt_propagates _ _ _ _ _ _ _ H0 Hs0 He1).
      repeat split; try (intros; discriminate);
        unfold new_events; simpl; rewrite <- ?app_assoc, drop_app_length;
        simpl; lia. }
  rewrite (attempt_waits _ _ _ _ _ _ _ H0 Hs0 He1) by (vm_compute; reflexivity).
  set (w1 := log (Sleep 1000) _).
  assert (H1 : fs w1 !! CHROMA_DB_DIR = Some s1) by (simpl; apply lookup_insert_eq).
  destruct tl1 as [|[e2 s2] tl2].
  { rewrite (attempt_deletes _ _ _ _ H1 eq_refl).
    repeat split; try (intros _; simpl; apply lookup_delete_eq);
      unfold new_events; simpl; rewrite <- ?app_assoc, drop_app_length;
      simpl; lia. }
  destruct (is_PermissionError e2) eqn:He2.
  2:{ rewrite (attempt_propagates _ _ _ _ _ _ _ H1 eq_refl He2).
      repeat split; try (intros; discriminate);
        unfold new_events; simpl; rewrite <- ?app_assoc, drop_app_length;
        simpl; lia. }
  rewrite (attempt_waits _ _ _ _ _ _ _ H1 eq_refl He2) by (vm_compute; reflexivity).
  set (w2 := log (Sleep 1000) _).
  assert (H2 : fs w2 !! CHROMA_DB_DIR = Some s2) by (simpl; apply lookup_insert_eq).
  destruct tl2 as [|[e3 s3] tl3].
  { rewrite (attempt_deletes _ _ _ _ H2 eq_refl).
    repeat split; try (intros _; simpl; apply lookup_delete_eq);
      unfold new_events; simpl; rewrite <- ?app_assoc, drop_app_length;
      simpl; lia. }
  destruct (is_PermissionError e3) eqn:He3.
  2:{ rewrite (attempt_propagates _ _ _ _ _ _ _ H2 eq_refl He3).
      repeat split; try (intros; discriminate);
        unfold new_events; simpl; rewrite <- ?app_assoc, drop_app_length;
        simpl; lia. }
  rewrite (attempt_renames _ _ _ _ _ _ _ H2 eq_refl He3) by (vm_compute; discriminate).
  set (w3 := set_rmtree_script tl3 _).
  assert (H3 : fs w3 !! CHROMA_DB_DIR = Some s3) by (simpl; apply lookup_insert_eq).
  rewrite (run_rename_aside _ _ e3 H3). cbv zeta.
  destruct (rename_fault (faults w3)).
  - repeat split; try (intros; discriminate);
      unfold new_events; simpl; rewrite <- ?app_assoc, drop_app_length;
      simpl; lia.
  - repeat split;
      try (intros _; simpl;
           rewrite lookup_insert_ne by apply backup_is_elsewhere;
           apply lookup_delete_eq);
      unfold new_events; simpl; rewrite <- ?app_assoc, drop_app_length;
      simpl; lia.
Qed.

End ResetMore.

(** * The mode question and what follows from the answer *)

Section AskedFacts.

Ltac free :=
  try exact (fun _ => I); try exact (fun _ _ => I);
  try exact (fun _ _ _ _ _ => I).

Ltac kept :=
  try exact paths_kept_refl; try exact paths_kept_trans;
  try exact reads_keep_directory.

Lemma starts_bind {A B : Type} (pre : list Event) (m : M A) (f : A -> M B) :
  starts_with pre m -> (forall a, steps unasked (f a)) ->
  starts_with pre (m ≫= f).
Proof.
  intros Hm Hf w. rewrite run_bind. destruct (Hm w) as (evs & Ht).
  destruct (m w) as [[e|a] w1]; [by exists evs|].
  destruct (Hf a w1) as (_ & _ & evs' & Ht' & _).
  exists (evs ++ evs'). rewrite Ht'. simpl in Ht. rewrite Ht.
  by rewrite <- !app_assoc.
Qed.

Lemma starts_try_except {A : Type} (pre : list Event) (body : M A)
      (handler : exn -> option (M A)) :
  starts_with pre body ->
  (forall e h, handler e = Some h -> steps unasked h) ->
  starts_with pre (try_except body handler).
Proof.
  intros Hb Hh w. unfold try_except. destruct (Hb w) as (evs & Ht).
  destruct (body w) as [[e|a] w1]; [|by exists evs].
  destruct (handler e) as [h|] eqn:He; [|by exists evs].
  destruct (Hh e h He w1) as (_ & _ & evs' & Ht' & _).
  exists (evs ++ evs'). rewrite Ht'. simpl in Ht. rewrite Ht.
  by rewrite <- !app_assoc.
Qed.

Lemma starts_rmtree (p : pystr) : starts_with [Rmtree p] (rmtree p).
Proof.
  intros w. exists []. unfold rmtree. cbv zeta.
  destruct (fs (log (Rmtree p) w) !! p);
    [destruct (rmtree_script (faults (log (Rmtree p) w))) as [|[e residue] tl]|];
    reflexivity.
Qed.

(** Every turn of the loop begins with a call of [shutil.rmtree]. *)
Lemma delete_attempts_starts (attempt : Z) (rest : list Z) :
  starts_with [Rmtree CHROMA_DB_DIR] (delete_attempts (attempt :: rest)).
Proof.
  cbn [delete_attempts]. apply starts_bind.
  - apply starts_try_except.
    + apply starts_bind; [apply starts_rmtree|]. intros _.
      apply steps_bind; free; [apply steps_print; free|].
      intros _. apply steps_ret; free.
    + intros e h. destruct (is_PermissionError e); [|discriminate].
      intros [= <-]. destruct (decide _).
      * apply steps_bind; free; [apply steps_print; free|]. intros _.
        apply steps_bind; free; [apply steps_sleep; free|]. intros _.
        apply steps_ret; free.
      * apply steps_bind; free; [apply rename_aside_unasked|]. intros _.
        apply steps_ret; free.
  - intros [|]; [apply steps_ret; free|apply delete_attempts_unasked].
Qed.

Lemma delete_database_starts :
  starts_with [Print deleting_message; GcCollect; Sleep 500; Rmtree CHROMA_DB_DIR]
              delete_database.
Proof.
  intros w. rewrite run_delete_database.
  destruct (delete_attempts_starts 0 [1; 2]
              (log (Sleep 500)
                 (set_clock (Z.add 500)
                    (log GcCollect (log (Print deleting_message) w)))))
    as (evs & Ht).
  exists evs. unfold deleting_message in *. rewrite Ht. simpl.
  by rewrite <- !app_assoc.
Qed.

Lemma refusals_read_only (bad : list pystr) : Forall reads_only (refusals bad).
Proof.
  induction bad as [|b bad IH]; [constructor|].
  unfold refusals. simpl. by repeat constructor.
Qed.

Lemma question_reads_only (bad : list pystr) :
  Forall reads_only (banner ++ refusals bad ++ [Print ask_message]).
Proof.
  apply Forall_app. split; [by repeat constructor|].
  apply Forall_app. split; [apply refusals_read_only|by repeat constructor].
Qed.

Lemma rmtree_calls_app (a b : list Event) :
  rmtree_calls (a ++ b) = rmtree_calls a ++ rmtree_calls b.
Proof. apply omap_app. Qed.

Lemma read_only_no_rmtree (evs : list Event) :
  Forall reads_only evs -> rmtree_calls evs = [].
Proof.
  intros H. apply no_directory_calls.
  eapply Forall_impl; [exact H|]. apply reads_keep_directory.
Qed.

(** Lines 16-64 when the question is put and answered. *)
Lemma run_choose_mode_asked (w : World) (st : Store) (bad : list pystr)
      (good : pystr) (rest : list pystr) :
  fs w !! CHROMA_DB_DIR = Some st ->
  stdin w = bad ++ good :: rest ->
  Forall (fun l => ~ accepts l) bad ->
  accepts good ->
  exists w1,
    stdin w1 = rest /\ fs w1 = fs w /\ faults w1 = faults w /\
    trace w1 = trace w ++ banner ++ refusals bad ++ [Print ask_message] /\
    choose_mode None w =
    ((if is_yes good then
        print (nl ++ [0x2705] ++
               u " Keeping existing database - will add new PDF to existing knowledge")
      else delete_database);;
     mret (Some (is_yes good))) w1.
Proof.
  intros Hst Hin Hbad Hgood.
  destruct (run_prompt_accepted w bad good rest Hin Hbad Hgood)
    as (w1 & Hrun & Hs & Hf & Hx & Ht).
  exists w1. repeat (split; [assumption|]).
  unfold choose_mode. rewrite run_bind, run_path_exists.
  rewrite bool_decide_eq_true_2 by eauto.
  rewrite run_bind, run_bind, Hrun, run_ret. reflexivity.
Qed.

(** X8: with a store there and no [use_existing_db] given,
    [legal_analyst_tool] reads the console up to the first accepted answer
    and no further; on a yes it never calls [shutil.rmtree] and the store
    path stays, on a no the deletion is attempted. *)
Theorem answer_decides_deletion (w : World) (st : Store) (bad : list pystr)
        (good : pystr) (rest : list pystr) (pdf_file_path question : pystr)
        (filter_by_current_pdf : bool) :
  fs w !! CHROMA_DB_DIR = Some st ->
  stdin w = bad ++ good :: rest ->
  Forall (fun l => ~ accepts l) bad ->
  accepts good ->
  let w' := snd (legal_analyst_tool pdf_file_path question None
                                    filter_by_current_pdf w) in
  stdin w' = rest /\
  if is_yes good then
    rmtree_calls (new_events w w') = [] /\ is_Some (fs w' !! CHROMA_DB_DIR)
  else head (rmtree_calls (new_events w w')) = Some CHROMA_DB_DIR.
Proof.
  intros Hst Hin Hbad Hgood w'.
  destruct (run_choose_mode_asked w st bad good rest Hst Hin Hbad Hgood)
    as (w1 & Hs & Hf & _ & Ht & Hmode).
  assert (Hrun : legal_analyst_tool pdf_file_path question None
                                    filter_by_current_pdf w =
                 (((if is_yes good then
                      print (nl ++ [0x2705] ++
                             u " Keeping existing database - will add new PDF to existing knowledge")
                    else delete_database);;
                   mret (Some (is_yes good))) ≫=
                  (fun mode =>
                     documents ← load_pdf pdf_file_path;
                     chunks ← split_documents documents;
                     print (u "Created " ++ str_int (len chunks) ++
                            u " chunks from the document");;
                     chunk_ids ← lift (compute_chunk_ids chunks);
                     new_embeddings;;
                     ingest mode chunks chunk_ids;;
                     total_chunks ← collection_count CHROMA_DB_DIR;
                     print ([0x1F4CA] ++ u " Total chunks in database: " ++
                            str_int total_chunks);;
                     relevant_docs ← retrieve pdf_file_path question
                                              filter_by_current_pdf;
                     let source_files := source_set relevant_docs in
                     (if decide (source_files = ∅) then mret tt
                      else print ([0x1F4C4] ++ u " Sources used: " ++
                                  join (u ", ") (elements source_files)));;
                     llm_invoke (current_pdf_prompt relevant_docs question))) w1).
  { unfold legal_analyst_tool. rewrite run_bind, Hmode. reflexivity. }
  unfold w'. rewrite Hrun. clear Hrun Hmode w'.
  split.
  - match goal with |- context [snd (?m w1)] =>
      assert (Hk : unasked w1 (snd (m w1))) end.
    { apply steps_bind; free; [|intros; apply after_mode_unasked].
      apply steps_bind; free; [|intros; apply steps_ret; free].
      destruct (is_yes good);
        [apply steps_print; free|apply delete_database_unasked]. }
    rewrite <- Hs. apply Hk.
  - destruct (is_yes good).
    + match goal with |- context [snd (?m w1)] =>
        assert (Hk : undisturbed w1 (snd (m w1))) end.
      { apply steps_bind; kept.
        - apply steps_bind; kept; [apply steps_print; kept|].
          intros; apply steps_ret; kept.
        - intros mode. apply steps_after_mode; kept;
            [apply chroma_open_undisturbed|intros; apply add_documents_undisturbed|
             intros; apply from_documents_undisturbed]. }
      destruct Hk as (_ & Hpaths & evs & Hevs & Hkeep).
      split.
      * rewrite (new_events_app w _ ((banner ++ refusals bad ++ [Print ask_message]) ++ evs))
          by (rewrite Hevs, Ht; by rewrite <- !app_assoc).
        rewrite rmtree_calls_app, (read_only_no_rmtree _ (question_reads_only bad)).
        by apply no_directory_calls.
      * apply Hpaths. rewrite Hf, Hst. eauto.
    + match goal with |- context [snd (?m w1)] =>
        assert (Hk : exists evs,
                   trace (snd (m w1)) =
                   trace w1 ++ [Print deleting_message; GcCollect; Sleep 500;
                                Rmtree CHROMA_DB_DIR] ++ evs) end.
      { apply starts_bind; [|intros; apply after_mode_unasked].
        apply starts_bind; [apply delete_database_starts|].
        intros; apply steps_ret; free. }
      destruct Hk as (evs & Hevs).
      rewrite (new_events_app w _
                 ((banner ++ refusals bad ++ [Print ask_message]) ++
                  [Print deleting_message; GcCollect; Sleep 500;
                   Rmtree CHROMA_DB_DIR] ++ evs))
        by (rewrite Hevs, Ht; by rewrite <- !app_assoc).
      rewrite rmtree_calls_app, (read_only_no_rmtree _ (question_reads_only bad)).
      reflexivity.
Qed.

Lemma answer_decides_deletion_witness :
  let w := set_stdin [u "perhaps"; u " n"; u "later"]
             (Sample.with_store Sample.stored_a Sample.reading_world) in
  let w' := snd (legal_analyst_tool (u "docs/a.pdf") (u "What applies?")
                                    None false w) in
  stdin w' = [u "later"] /\
  head (rmtree_calls (new_events w w')) = Some CHROMA_DB_DIR.
Proof.
  intros w w'.
  assert (H1 : fs w !! CHROMA_DB_DIR = Some Sample.stored_a)
    by (vm_compute; reflexivity).
  assert (H2 : stdin w = [u "perhaps"] ++ u " n" :: [u "later"]) by reflexivity.
  assert (H3 : Forall (fun l => ~ accepts l) [u "perhaps"]).
  { constructor; [|constructor]. unfold accepts. vm_compute.
    intros H. apply list_elem_of_In in H. simpl in H. intuition discriminate. }
  assert (H4 : accepts (u " n")).
  { unfold accepts. vm_compute. right. left. }
  exact (answer_decides_deletion w _ _ _ _ (u "docs/a.pdf") (u "What applies?")
                                 false H1 H2 H3 H4).
Defined.

End AskedFacts.

(** * What ingestion leaves in the store (lines 84-120) *)

Section StoreFacts.

Lemma upsert_pairs_lookup_ne (pairs : list (Document * pystr))
      (c : gmap pystr Document) (i : pystr) :
  i ∉ pairs.*2 ->
  foldl (fun acc p => <[snd p := fst p]> acc) c pairs !! i = c !! i.
Proof.
  revert c. induction pairs as [|[d j] pairs IH]; intros c Hi; [reflexivity|].
  simpl in *. apply not_elem_of_cons in Hi as [Hne Hi].
  rewrite IH by exact Hi. by apply lookup_insert_ne.
Qed.

Lemma upsert_pairs_dom (pairs : list (Document * pystr)) (c : gmap pystr Document) :
  dom (foldl (fun acc p => <[snd p := fst p]> acc) c pairs) =
  dom c ∪ list_to_set pairs.*2.
Proof.
  revert c. induction pairs as [|[d j] pairs IH]; intros c; simpl.
  - by rewrite (right_id_L ∅ (∪)).
  - rewrite IH, dom_insert_L.
    by rewrite (comm_L (∪) {[j]}), (assoc_L (∪)).
Qed.

Lemma upsert_filtered (c : gmap pystr Document) (pairs : list (Document * pystr)) :
  upsert c pairs.*1 pairs.*2 =
  foldl (fun acc p => <[snd p := fst p]> acc) c pairs.
Proof. unfold upsert. by rewrite zip_fst_snd. Qed.

Lemma collection_at_put (dir : pystr) (c : gmap pystr Document) (w : World) :
  collection_at dir (put_collection dir c w) = c.
Proof.
  unfold collection_at, put_collection. simpl.
  destruct (fs w !! dir); by rewrite lookup_insert_eq.
Qed.

Lemma found_ids_stored (st : Store) (chunk_ids : list pystr) (i : pystr) :
  i ∈ found_ids st chunk_ids <-> i ∈ chunk_ids /\ is_Some (entries st !! i).
Proof.
  unfold found_ids. rewrite elem_of_list_to_set, list_elem_of_filter. tauto.
Qed.

(** The world the accumulate branch leaves: the store as it was, or with the
    selected chunks written under their ids. *)
Lemma accumulate_collection (w : World) (st : Store)
      (chunks : list Document) (chunk_ids : list pystr) :
  fs w !! CHROMA_DB_DIR = Some st ->
  let existing := match get_fault (faults w) with
                  | Some _ => ∅
                  | None => found_ids st chunk_ids
                  end in
  let novel := filter (fun p => snd p ∉ existing) (zip chunks chunk_ids) in
  let out := accumulate chunks chunk_ids w in
  (collection_at CHROMA_DB_DIR (snd out) = entries st \/
   collection_at CHROMA_DB_DIR (snd out) =
   foldl (fun acc p => <[snd p := fst p]> acc) (entries st) novel) /\
  (forall r, fst out = inr r ->
     r = report_for st existing chunks chunk_ids /\
     collection_at CHROMA_DB_DIR (snd out) =
     foldl (fun acc p => <[snd p := fst p]> acc) (entries st) novel).
Proof.
  intros Hst existing novel out.
  assert (Hsame : forall w0, fs w0 = fs w ->
                             collection_at CHROMA_DB_DIR w0 = entries st).
  { intros w0 H0. unfold collection_at. by rewrite H0, Hst. }
  unfold out. rewrite (run_accumulate _ _ _ _ Hst). fold existing.
  destruct (open_fault (faults w)) as [e|].
  { split; [left; by apply Hsame|intros; discriminate]. }
  cbv zeta. unfold report_for. rewrite select_new_filter. fold novel.
  cbn [new_chunks new_chunk_ids duplicates_skipped fst snd].
  destruct (novel.*1) as [|c cs] eqn:Hnovel.
  - assert (novel = []) as Hnil by (by destruct novel).
    split; [left; by apply Hsame|]. intros r [= <-].
    split; [reflexivity|]. rewrite Hnil. by apply Hsame.
  - destruct (write_failure w novel.*2) as [e|].
    + split; [left|intros; discriminate]. apply Hsame. by destruct (decide _).
    + cbn [fst snd]. rewrite collection_at_put, <- Hnovel, upsert_filtered.
      split; [by right|]. intros r [= <-]. split; reflexivity.
Qed.


Lemma novel_ids_fresh (st : Store) (chunks : list Document)
      (chunk_ids : list pystr) (i : pystr) :
  i ∈ (filter (fun p => snd p ∉ found_ids st chunk_ids) (zip chunks chunk_ids)).*2 ->
  entries st !! i = None.
Proof.
  intros Hi. apply list_elem_of_fmap in Hi as ([d j] & -> & Hp).
  apply list_elem_of_filter in Hp as [Hnew Hzip]. simpl in *.
  apply elem_of_zip_r in Hzip.
  apply eq_None_not_Some. intros Hsome. apply Hnew.
  by apply found_ids_stored.
Qed.

(** The collection any ingestion leaves: the one before, with some of the
    pairs of chunk and id written into it; when the ingestion returns,
    every pair it did not write has its id stored already. *)
Lemma ingest_collection (w : World) (mode : option bool)
      (chunks : list Document) (chunk_ids : list pystr) :
  let out := ingest mode chunks chunk_ids w in
  let before := collection_at CHROMA_DB_DIR w in
  let after := collection_at CHROMA_DB_DIR (snd out) in
  exists pairs,
    (forall p, p ∈ pairs -> p ∈ zip chunks chunk_ids) /\
    (after = before \/
     after = foldl (fun acc p => <[snd p := fst p]> acc) before pairs) /\
    (forall r, fst out = inr r ->
       after = foldl (fun acc p => <[snd p := fst p]> acc) before pairs /\
       is_Some (fs (snd out) !! CHROMA_DB_DIR) /\
       open_fault (faults w) = None /\
       forall p, p ∈ zip chunks chunk_ids ->
                 p ∈ pairs \/ is_Some (before !! snd p)).
Proof.
  cbv zeta.
  destruct (fs w !! CHROMA_DB_DIR) as [st|] eqn:Hst;
    [destruct (truthy mode) eqn:Hmode|].
  - assert (mode = Some true) as -> by (by destruct mode as [[|]|]).
    rewrite (run_ingest_accumulate _ _ _ _ Hst).
    destruct (accumulate_collection w st chunks chunk_ids Hst) as [Hany Hret].
    assert (Hbefore : collection_at CHROMA_DB_DIR w = entries st).
    { unfold collection_at. by rewrite Hst. }
    rewrite Hbefore.
    eexists. split; [|split].
    + intros p Hp. apply list_elem_of_filter in Hp as [_ Hp]. exact Hp.
    + destruct (accumulate chunks chunk_ids w) as [[e|r] w']; exact Hany.
    + intros r Hr.
      assert (Hopen : open_fault (faults w) = None).
      { rewrite (run_accumulate _ _ _ _ Hst) in Hr.
        destruct (open_fault (faults w)); [discriminate|reflexivity]. }
      assert (Hdir : forall w0, fs w0 = fs w -> is_Some (fs w0 !! CHROMA_DB_DIR)).
      { intros w0 ->. rewrite Hst. eauto. }
      assert (Hsome : is_Some (fs (snd (accumulate chunks chunk_ids w)) !! CHROMA_DB_DIR)).
      { rewrite (run_accumulate _ _ _ _ Hst), Hopen. cbv zeta.
        destruct (new_chunks _); [by apply Hdir|].
        destruct (write_failure w _).
        - apply Hdir. by destruct (decide _).
        - simpl. unfold put_collection. simpl.
          destruct (decide _); simpl; rewrite Hst, lookup_insert_eq; eauto. }
      destruct (accumulate chunks chunk_ids w) as [[e|r'] w']; [discriminate|].
      destruct (Hret r' eq_refl) as [_ Hafter].
      split; [exact Hafter|]. split; [exact Hsome|]. split; [exact Hopen|].
      intros [d i] Hp. simpl.
      destruct (get_fault (faults w)).
      * left. apply list_elem_of_filter. split; [|exact Hp]. simpl. set_solver.
      * destruct (decide (i ∈ found_ids st chunk_ids)) as [Hin|Hout].
        -- right. by apply found_ids_stored in Hin as [_ ?].
        -- left. by apply list_elem_of_filter.
  - exists (zip chunks chunk_ids). unfold ingest.
    rewrite run_bind, run_path_exists, Hmode, andb_false_r, run_bind,
      run_from_documents.
    cbv zeta. split; [done|].
    destruct (open_fault (faults w)); [|destruct (write_failure w chunk_ids)];
      (split; [|intros; try discriminate]); try (by left).
    + right. simpl. by rewrite collection_at_put.
    + simpl. rewrite collection_at_put. split; [reflexivity|].
      split; [|split; [reflexivity|by left]].
      unfold put_collection. simpl. rewrite Hst, lookup_insert_eq. eauto.
  - exists (zip chunks chunk_ids). unfold ingest.
    rewrite run_bind, run_path_exists.
    rewrite bool_decide_eq_false_2 by (rewrite Hst; intros [? ?]; discriminate).
    rewrite andb_false_l, run_bind, run_from_documents.
    cbv zeta. split; [done|].
    destruct (open_fault (faults w)); [|destruct (write_failure w chunk_ids)];
      (split; [|intros; try discriminate]); try (by left).
    + right. simpl. by rewrite collection_at_put.
    + simpl. rewrite collection_at_put. split; [reflexivity|].
      split; [|split; [reflexivity|by left]].
      unfold put_collection. simpl. rewrite Hst, lookup_insert_eq. eauto.
Qed.

Lemma in_zip_of_id (chunks : list Document) (chunk_ids : list pystr) (i : pystr) :
  length chunk_ids = length chunks -> i ∈ chunk_ids ->
  exists d, (d, i) ∈ zip chunks chunk_ids.
Proof.
  intros Hlen Hi. rewrite <- (snd_zip chunks chunk_ids) in Hi by lia.
  apply list_elem_of_fmap in Hi as ([d j] & -> & Hp). eauto.
Qed.

Lemma upsert_pairs_is_Some (pairs : list (Document * pystr))
      (c : gmap pystr Document) (i : pystr) :
  is_Some (foldl (fun acc p => <[snd p := fst p]> acc) c pairs !! i) <->
  is_Some (c !! i) \/ i ∈ pairs.*2.
Proof.
  rewrite <- !elem_of_dom, upsert_pairs_dom, elem_of_union, elem_of_list_to_set.
  reflexivity.
Qed.

(** X9: when an ingestion returns, in either mode, the store exists and
    holds an entry under the id of every chunk of the document, and every
    entry under another id is as it was. *)
Theorem ingest_stores_every_chunk (w : World) (mode : option bool)
        (chunks : list Document) (chunk_ids : list pystr)
        (r : option IngestReport) :
  length chunk_ids = length chunks ->
  fst (ingest mode chunks chunk_ids w) = inr r ->
  let w' := snd (ingest mode chunks chunk_ids w) in
  is_Some (fs w' !! CHROMA_DB_DIR) /\
  (forall i, i ∈ chunk_ids -> is_Some (collection_at CHROMA_DB_DIR w' !! i)) /\
  (forall i, i ∉ chunk_ids ->
             collection_at CHROMA_DB_DIR w' !! i = collection_at CHROMA_DB_DIR w !! i).
Proof.
  intros Hlen Hret w'.
  destruct (ingest_collection w mode chunks chunk_ids) as (pairs & Hsub & _ & Hr).
  destruct (Hr r Hret) as (Hafter & Hdir & _ & Hcover).
  split; [exact Hdir|]. unfold w'. rewrite Hafter. split.
  - intros i Hi. destruct (in_zip_of_id chunks chunk_ids i Hlen Hi) as [d Hd].
    apply upsert_pairs_is_Some.
    destruct (Hcover _ Hd) as [Hp|Hs]; [right|by left].
    apply list_elem_of_fmap. by exists (d, i).
  - intros i Hi. apply upsert_pairs_lookup_ne. intros Hin. apply Hi.
    apply list_elem_of_fmap in Hin as ([d j] & -> & Hp).
    apply Hsub in Hp. by apply elem_of_zip_r in Hp.
Qed.

Lemma ingest_stores_every_chunk_witness :
  let w := Sample.with_store Sample.stored_a Sample.quiet_world in
  let chunks := [Sample.chunk_a; Sample.chunk_b] in
  let ids := [Sample.id_of Sample.chunk_a; Sample.id_of Sample.chunk_b] in
  let w' := snd (ingest (Some true) chunks ids w) in
  is_Some (collection_at CHROMA_DB_DIR w' !! Sample.id_of Sample.chunk_b).
Proof.
  intros w chunks ids w'.
  set (r := match fst (ingest (Some true) chunks ids w) with
            | inr r => r
            | inl _ => None
            end).
  assert (Hret : fst (ingest (Some true) chunks ids w) = inr r)
    by (vm_compute; reflexivity).
  destruct (ingest_stores_every_chunk w (Some true) chunks ids r eq_refl Hret)
    as (_ & Hall & _).
  apply Hall. right. left.
Defined.


(** X10: in accumulate mode, when the membership lookup returns, no entry
    of the store is replaced or lost, whether the ingestion returns or
    raises; and when it returns, the number of entries has grown by the
    number of distinct ids it inserted. *)
Theorem accumulate_keeps_entries (w : World) (st : Store)
        (chunks : list Document) (chunk_ids : list pystr) :
  fs w !! CHROMA_DB_DIR = Some st ->
  get_fault (faults w) = None ->
  let out := accumulate chunks chunk_ids w in
  let after := collection_at CHROMA_DB_DIR (snd out) in
  (forall i d, entries st !! i = Some d -> after !! i = Some d) /\
  (forall r, fst out = inr r ->
     Z.of_nat (size after) =
     chunks_before r +
     Z.of_nat (size (list_to_set (new_chunk_ids r) : gset pystr))).
Proof.
  intros Hst Hget. cbv zeta.
  destruct (accumulate_collection w st chunks chunk_ids Hst) as [Hany Hret].
  rewrite Hget in Hany, Hret.
  split.
  - intros i d Hi. destruct Hany as [->| ->]; [exact Hi|].
    rewrite upsert_pairs_lookup_ne; [exact Hi|].
    intros Hin. apply novel_ids_fresh in Hin. congruence.
  - intros r Hr. destruct (Hret r Hr) as [-> ->].
    unfold report_for. rewrite select_new_filter.
    cbn [chunks_before new_chunk_ids snd].
    rewrite <- Nat2Z.inj_add. f_equal.
    rewrite <- size_dom, upsert_pairs_dom, size_union, size_dom; [reflexivity|].
    intros i Hi Hin. apply elem_of_list_to_set, novel_ids_fresh in Hin.
    apply elem_of_dom in Hi as [d Hd]. congruence.
Qed.

Lemma accumulate_keeps_entries_witness :
  let w := Sample.with_store Sample.stored_a Sample.quiet_world in
  let out := accumulate [Sample.chunk_a; Sample.chunk_b]
                        [Sample.id_of Sample.chunk_a; Sample.id_of Sample.chunk_b] w in
  collection_at CHROMA_DB_DIR (snd out) !! Sample.id_of Sample.chunk_a =
  Some Sample.chunk_a.
Proof.
  intros w out.
  assert (H1 : fs w !! CHROMA_DB_DIR = Some Sample.stored_a)
    by (vm_compute; reflexivity).
  destruct (accumulate_keeps_entries w Sample.stored_a
              [Sample.chunk_a; Sample.chunk_b]
              [Sample.id_of Sample.chunk_a; Sample.id_of Sample.chunk_b]
              H1 eq_refl) as [Hkeep _].
  apply Hkeep. vm_compute. reflexivity.
Defined.

Lemma ingest_keeps_faults (w : World) (mode : option bool)
      (chunks : list Document) (chunk_ids : list pystr) :
  faults (snd (ingest mode chunks chunk_ids w)) = faults w.
Proof.
  destruct (run_ingest w mode chunks chunk_ids) as (r & w' & -> & Hsame & _).
  exact Hsame.
Qed.

(** X11: an ingestion that follows one that returned for the same chunks,
    in accumulate mode and with the membership lookup returning, inserts
    nothing: it reports every chunk as a duplicate and leaves the files as
    they are. *)
Theorem second_ingestion_adds_nothing (w : World) (mode : option bool)
        (chunks : list Document) (chunk_ids : list pystr)
        (r1 : option IngestReport) :
  length chunk_ids = length chunks ->
  get_fault (faults w) = None ->
  fst (ingest mode chunks chunk_ids w) = inr r1 ->
  let w1 := snd (ingest mode chunks chunk_ids w) in
  let out := ingest (Some true) chunks chunk_ids w1 in
  insert_calls (new_events w1 (snd out)) = [] /\
  fs (snd out) = fs w1 /\
  exists r2, fst out = inr (Some r2) /\
             new_chunks r2 = [] /\ duplicates_skipped r2 = len chunks.
Proof.
  intros Hlen Hget Hret w1.
  destruct (ingest_collection w mode chunks chunk_ids) as (pairs & Hsub & _ & Hr).
  destruct (Hr r1 Hret) as (Hafter & [st1 Hst1] & Hopen & Hcover).
  fold w1 in Hst1, Hafter.
  assert (Hfaults : faults w1 = faults w) by apply ingest_keeps_faults.
  assert (Hall : forall p, p ∈ zip chunks chunk_ids ->
                           snd p ∈ found_ids st1 chunk_ids).
  { intros [d i] Hp. apply found_ids_stored. simpl.
    split; [by apply elem_of_zip_r in Hp|].
    assert (Hst : collection_at CHROMA_DB_DIR w1 = entries st1)
      by (unfold collection_at; by rewrite Hst1).
    rewrite <- Hst, Hafter. apply upsert_pairs_is_Some.
    destruct (Hcover _ Hp) as [Hin|Hs]; [right|by left].
    apply list_elem_of_fmap. by exists (d, i). }
  assert (Hnone : filter (fun p => snd p ∉ found_ids st1 chunk_ids)
                         (zip chunks chunk_ids) = []).
  { destruct (filter _ (zip chunks chunk_ids)) as [|p ps] eqn:Hf; [reflexivity|].
    assert (Hp : p ∈ p :: ps) by left.
    rewrite <- Hf in Hp. apply list_elem_of_filter in Hp as [Hnew Hp].
    exfalso. by apply Hnew, Hall. }
  cbv zeta.
  rewrite (run_ingest_accumulate _ _ _ _ Hst1), (run_accumulate _ _ _ _ Hst1).
  rewrite Hfaults, Hopen, Hget. cbv zeta.
  unfold report_for. rewrite select_new_filter, Hnone.
  cbn [new_chunks fst snd fmap list_fmap].
  split; [|split; [reflexivity|]].
  - unfold new_events. simpl. by rewrite drop_app_length.
  - eexists. split; [reflexivity|]. split; [reflexivity|].
    cbn [duplicates_skipped]. unfold len. simpl. lia.
Qed.

Lemma second_ingestion_adds_nothing_witness :
  let chunks := [Sample.chunk_a; Sample.chunk_b] in
  let ids := [Sample.id_of Sample.chunk_a; Sample.id_of Sample.chunk_b] in
  let w1 := snd (ingest None chunks ids Sample.quiet_world) in
  insert_calls (new_events w1 (snd (ingest (Some true) chunks ids w1))) = [].
Proof.
  intros chunks ids w1.
  set (r1 := match fst (ingest None chunks ids Sample.quiet_world) with
             | inr r => r
             | inl _ => None
             end).
  assert (Hret : fst (ingest None chunks ids Sample.quiet_world) = inr r1)
    by (vm_compute; reflexivity).
  exact (proj1 (second_ingestion_adds_nothing Sample.quiet_world None chunks ids
                  r1 eq_refl eq_refl Hret)).
Defined.

End StoreFacts.

(** * A fresh start, end to end *)

Section FreshFacts.

Ltac free :=
  try exact (fun _ => I); try exact (fun _ _ => I);
  try exact (fun _ _ _ _ _ => I);
  try exact (@eq_refl (gmap pystr Store));
  try exact (@eq_trans (gmap pystr Store)).

Lemma run_load_pdf (path : pystr) (w : World) :
  load_pdf path w = (pdf_loader w path, w).
Proof. reflexivity. Qed.

Lemma run_split_documents (documents : list Document) (w : World) :
  split_documents documents w = (inr (text_splitter w documents), w).
Proof. reflexivity. Qed.

Lemma run_lift {A : Type} (r : exn + A) (w : World) : lift r w = (r, w).
Proof. reflexivity. Qed.

(** Lines 16-64 with [use_existing_db=False] and a store that can be
    deleted. *)
Lemma run_choose_mode_fresh (w : World) (st : Store) :
  fs w !! CHROMA_DB_DIR = Some st ->
  rmtree_script (faults w) = [] ->
  choose_mode (Some false) w = (inr (Some false), after_fresh_reset w).
Proof.
  intros Hst Hscript. unfold choose_mode.
  rewrite run_bind, run_path_exists, bool_decide_eq_true_2 by eauto.
  rewrite run_bind, run_ret. cbn [truthy default].
  rewrite run_bind, run_delete_database.
  erewrite attempt_deletes; [reflexivity|exact Hst|exact Hscript].
Qed.

(** X12: called for a fresh start ([use_existing_db=False]) on a store
    that can be deleted, [legal_analyst_tool] has deleted the store before
    it loads the document: when loading, encoding a chunk or creating the
    embedding client fails, that failure is raised, nothing has been
    inserted, and the old store is gone. *)
Theorem fresh_start_failure_loses_store (w : World) (st : Store) (e : exn)
        (pdf_file_path question : pystr) (filter_by_current_pdf : bool) :
  fs w !! CHROMA_DB_DIR = Some st ->
  rmtree_script (faults w) = [] ->
  fails_before_ingest w pdf_file_path = Some e ->
  let out := legal_analyst_tool pdf_file_path question (Some false)
                                filter_by_current_pdf w in
  fst out = inl e /\
  fs (snd out) = delete CHROMA_DB_DIR (fs w) /\
  insert_calls (new_events w (snd out)) = [].
Proof.
  intros Hst Hscript Hfail. cbv zeta. unfold legal_analyst_tool.
  rewrite run_bind, (run_choose_mode_fresh _ _ Hst Hscript).
  unfold fails_before_ingest in Hfail.
  rewrite run_bind, run_load_pdf.
  change (pdf_loader (after_fresh_reset w)) with (pdf_loader w).
  destruct (pdf_loader w pdf_file_path) as [e0|documents].
  { injection Hfail as ->. split; [reflexivity|]. split; [reflexivity|].
    unfold new_events. simpl. rewrite <- !app_assoc. by rewrite drop_app_length. }
  rewrite run_bind, run_split_documents.
  change (text_splitter (after_fresh_reset w)) with (text_splitter w).
  rewrite run_bind, run_print, run_bind, run_lift.
  destruct (compute_chunk_ids (text_splitter w documents)) as [e0|chunk_ids].
  { injection Hfail as ->. split; [reflexivity|]. split; [reflexivity|].
    unfold new_events. simpl. rewrite <- !app_assoc. by rewrite drop_app_length. }
  rewrite run_bind, run_new_embeddings.
  cbn [faults log after_fresh_reset set_fs set_clock].
  rewrite Hfail.
  split; [reflexivity|]. split; [reflexivity|].
  unfold new_events. simpl. rewrite <- !app_assoc. by rewrite drop_app_length.
Qed.

Lemma fresh_start_failure_loses_store_witness :
  let unreadable := Exception_ (u "invalid pdf header") in
  let w := mkWorld {[ CHROMA_DB_DIR := Sample.stored_ab ]} 0 Sample.no_faults []
                   (fun _ => inl unreadable) (fun d => d) (fun _ => [])
                   (fun _ => inr (u "ok")) [] in
  let out := legal_analyst_tool (u "docs/b.pdf") (u "What applies?")
                                (Some false) true w in
  fst out = inl unreadable /\ fs (snd out) !! CHROMA_DB_DIR = None.
Proof.
  intros unreadable w out.
  assert (H1 : fs w !! CHROMA_DB_DIR = Some Sample.stored_ab)
    by (vm_compute; reflexivity).
  destruct (fresh_start_failure_loses_store w Sample.stored_ab unreadable
              (u "docs/b.pdf") (u "What applies?") true H1 eq_refl eq_refl)
    as (Hres & Hfs & _).
  split; [exact Hres|]. unfold out. rewrite Hfs. apply lookup_delete_eq.
Defined.

Lemma put_collection_files_same_elsewhere (dir p : pystr)
      (c : gmap pystr Document) (w : World) :
  p <> dir -> fs (put_collection dir c w) !! p = fs w !! p.
Proof.
  intros Hp. unfold put_collection. simpl.
  destruct (fs w !! dir); by rewrite lookup_insert_ne.
Qed.



(** Lines 16-64 when the store is kept or there is none: one line is
    printed. *)
Lemma run_choose_mode_kept (w : World) (use_existing_db : option bool) :
  use_existing_db = Some true \/ fs w !! CHROMA_DB_DIR = None ->
  exists line,
    choose_mode use_existing_db w = (inr use_existing_db, log (Print line) w).
Proof.
  intros H. unfold choose_mode. rewrite run_bind, run_path_exists.
  destruct (fs w !! CHROMA_DB_DIR) as [st|] eqn:Hst.
  - destruct H as [->|H]; [|discriminate].
    rewrite bool_decide_eq_true_2 by eauto. eexists. reflexivity.
  - rewrite bool_decide_eq_false_2 by (intros [? ?]; discriminate).
    eexists. reflexivity.
Qed.

(** X14: with the store kept, or none there, a failure to load the
    document, to encode a chunk or to create the embedding client is
    raised before the store is opened: the files are as they were, and
    nothing but lines of output has happened - no insert, no search, no
    call of the model. *)
Theorem early_failure_leaves_store (w : World) (e : exn)
        (pdf_file_path question : pystr) (use_existing_db : option bool)
        (filter_by_current_pdf : bool) :
  use_existing_db = Some true \/ fs w !! CHROMA_DB_DIR = None ->
  fails_before_ingest w pdf_file_path = Some e ->
  let out := legal_analyst_tool pdf_file_path question use_existing_db
                                filter_by_current_pdf w in
  fst out = inl e /\
  fs (snd out) = fs w /\
  Forall is_print (new_events w (snd out)).
Proof.
  intros Hkeep Hfail. cbv zeta. unfold legal_analyst_tool.
  destruct (run_choose_mode_kept w use_existing_db Hkeep) as (line & Hmode).
  rewrite run_bind, Hmode.
  set (w1 := log (Print line) w).
  unfold fails_before_ingest in Hfail.
  rewrite run_bind, run_load_pdf.
  change (pdf_loader w1) with (pdf_loader w).
  destruct (pdf_loader w pdf_file_path) as [e0|documents].
  { injection Hfail as ->. split; [reflexivity|]. split; [reflexivity|].
    cbn [snd]. rewrite (new_events_app w w1 [Print line]) by reflexivity.
    by repeat constructor. }
  rewrite run_bind, run_split_documents.
  change (text_splitter w1) with (text_splitter w).
  rewrite run_bind, run_print, run_bind, run_lift.
  set (w2 := log (Print _) w1).
  assert (Hev : exists l2, new_events w w2 = [Print line; Print l2]).
  { eexists. apply new_events_app. unfold w2, w1. simpl.
    by rewrite <- !app_assoc. }
  destruct Hev as (l2 & Hev).
  destruct (compute_chunk_ids (text_splitter w documents)) as [e0|chunk_ids].
  { injection Hfail as ->. split; [reflexivity|]. split; [reflexivity|].
    cbn [snd]. rewrite Hev. by repeat constructor. }
  rewrite run_bind, run_new_embeddings.
  change (faults w2) with (faults w). rewrite Hfail.
  split; [reflexivity|]. split; [reflexivity|].
  cbn [snd]. rewrite Hev. by repeat constructor.
Qed.

Lemma early_failure_leaves_store_witness :
  let w := OrchestratorSample.broken_text_world in
  let out := legal_analyst_tool (u "docs/b.pdf") (u "What applies?") None true w in
  fs (snd out) = fs w /\ Forall is_print (new_events w (snd out)).
Proof.
  intros w out.
  set (e := match fails_before_ingest w (u "docs/b.pdf") with
            | Some e => e
            | None => Exception_ []
            end).
  assert (Hfail : fails_before_ingest w (u "docs/b.pdf") = Some e)
    by (vm_compute; reflexivity).
  destruct (early_failure_leaves_store w e (u "docs/b.pdf") (u "What applies?")
              None true (or_intror eq_refl) Hfail) as (_ & Hfs & Hev).
  split; [exact Hfs|exact Hev].
Defined.

End FreshFacts.

(** * More on query_all_pdfs (lines 185-238) *)

Section QueryMore.

Lemma dict_get_set (d : list (pystr * Z)) (key key' : pystr) (value dflt : Z) :
  dict_get (dict_set d key value) key' dflt =
  if decide (key = key') then value else dict_get d key' dflt.
Proof.
  induction d as [|[k v] r IH]; cbn [dict_set dict_get].
  - destruct (decide (key = key')); reflexivity.
  - destruct (decide (k = key)) as [->|Hk]; cbn [dict_get].
    + destruct (decide (key = key')); reflexivity.
    + destruct (decide (k = key')) as [->|Hk'].
      * destruct (decide (key = key')); [congruence|reflexivity].
      * exact IH.
Qed.

Lemma dict_set_keys (d : list (pystr * Z)) (key : pystr) (value : Z) :
  (dict_set d key value).*1 =
  if decide (key ∈ d.*1) then d.*1 else d.*1 ++ [key].
Proof.
  induction d as [|[k v] r IH]; cbn [dict_set].
  - destruct (decide _) as [H|_]; [by apply elem_of_nil in H|reflexivity].
  - destruct (decide (k = key)) as [->|Hk]; rewrite !fmap_cons; cbn [fst].
    + rewrite decide_True by left. reflexivity.
    + rewrite IH. destruct (decide (key ∈ r.*1)) as [Hin|Hout].
      * rewrite decide_True by (by right). reflexivity.
      * rewrite decide_False; [reflexivity|].
        intros H. apply elem_of_cons in H as [H|H]; congruence.
Qed.

(** The loop of lines 206-210, from any counts so far. *)
Lemma count_sources_step (acc : list (pystr * Z)) (docs : list Document)
      (name : pystr) :
  let counts := foldl (fun source_files doc =>
                         match metadata doc !! u "source" with
                         | Some s =>
                             dict_set source_files (basename s)
                                      (dict_get source_files (basename s) 0 + 1)
                         | None => source_files
                         end) acc docs in
  dict_get counts name 0 = dict_get acc name 0 + len (filter (from_file name) docs) /\
  (NoDup acc.*1 -> NoDup counts.*1) /\
  (name ∈ counts.*1 <-> name ∈ acc.*1 \/ Exists (from_file name) docs).
Proof.
  revert acc. induction docs as [|d docs IH]; intros acc; cbn [foldl].
  - split; [unfold len; simpl; lia|]. split; [done|].
    rewrite Exists_nil. tauto.
  - cbv zeta in IH. rewrite filter_cons, Exists_cons.
    destruct (metadata d !! u "source") as [s|] eqn:Hs.
    + assert (Hd : from_file name d <-> basename s = name).
      { unfold from_file. rewrite Hs. simpl. split; congruence. }
      destruct (IH (dict_set acc (basename s) (dict_get acc (basename s) 0 + 1)))
        as (Hget & Hnodup & Hkeys).
      rewrite Hget, dict_get_set. clear Hget.
      rewrite dict_set_keys in Hnodup, Hkeys.
      split; [|split].
      * destruct (decide (basename s = name)) as [Heq|Hne].
        -- rewrite decide_True by tauto. rewrite Heq. unfold len. simpl length. lia.
        -- rewrite decide_False by tauto. reflexivity.
      * intros Hacc. apply Hnodup.
        destruct (decide (basename s ∈ acc.*1)); [exact Hacc|].
        apply NoDup_app. split; [exact Hacc|].
        split; [|apply NoDup_singleton].
        intros x Hx Hx'. apply list_elem_of_singleton in Hx'. congruence.
      * rewrite Hkeys, Hd.
        destruct (decide (basename s ∈ acc.*1)) as [Hin|Hout].
        -- split; [tauto|]. intros [H|[H|H]]; [tauto|subst; tauto|tauto].
        -- rewrite elem_of_app, list_elem_of_singleton.
           split; [intros [[H|H]|H]; [tauto|subst; tauto|tauto]|].
           intros [H|[H|H]]; [tauto|subst; tauto|tauto].
    + assert (Hd : ~ from_file name d).
      { unfold from_file. rewrite Hs. discriminate. }
      destruct (IH acc) as (Hget & Hnodup & Hkeys).
      rewrite Hget, Hkeys, decide_False by exact Hd.
      split; [reflexivity|]. split; [exact Hnodup|]. tauto.
Qed.

(** X15: the counts [query_all_pdfs] returns as [chunk_distribution] give,
    for every file name, the number of retrieved chunks whose source has
    that base name; no name is listed twice, and a name is listed exactly
    when some retrieved chunk comes from that file. *)
Theorem count_sources_counts (docs : list Document) (name : pystr) :
  dict_get (count_sources docs) name 0 = len (filter (from_file name) docs) /\
  NoDup (count_sources docs).*1 /\
  (name ∈ (count_sources docs).*1 <-> Exists (from_file name) docs).
Proof.
  destruct (count_sources_step [] docs name) as (Hget & Hnodup & Hkeys).
  unfold count_sources. split; [|split].
  - rewrite Hget. simpl. lia.
  - apply Hnodup. constructor.
  - rewrite Hkeys. split; [intros [H|H]; [by apply elem_of_nil in H|exact H]|tauto].
Qed.

Lemma source_set_from (acc : gset pystr) (docs : list Document) (name : pystr) :
  name ∈ foldl (fun acc doc =>
                  match metadata doc !! u "source" with
                  | Some s => acc ∪ {[ basename s ]}
                  | None => acc
                  end) acc docs <->
  name ∈ acc \/ Exists (from_file name) docs.
Proof.
  revert acc. induction docs as [|d docs IH]; intros acc; cbn [foldl].
  - rewrite Exists_nil. tauto.
  - rewrite IH, Exists_cons.
    destruct (metadata d !! u "source") as [s|] eqn:Hs.
    + assert (Hd : from_file name d <-> basename s = name).
      { unfold from_file. rewrite Hs. simpl. split; congruence. }
      rewrite Hd, elem_of_union, elem_of_singleton.
      split; [intros [[H|H]|H]; [tauto|subst; tauto|tauto]|].
      intros [H|[H|H]]; [tauto|subst; tauto|tauto].
    + assert (Hd : ~ from_file name d).
      { unfold from_file. rewrite Hs. discriminate. }
      tauto.
Qed.

(** X16: for the same retrieved chunks, the source names
    [legal_analyst_tool] prints (lines 151-154) are the names
    [query_all_pdfs] returns as [sources] (lines 206-210). *)
Theorem sources_agree (docs : list Document) :
  source_set docs = list_to_set (count_sources docs).*1.
Proof.
  apply set_eq. intros name. unfold source_set.
  rewrite source_set_from, elem_of_list_to_set.
  destruct (count_sources_step [] docs name) as (_ & _ & Hkeys).
  unfold count_sources. rewrite Hkeys, elem_of_empty.
  split; [tauto|]. intros [H|H]; [by apply elem_of_nil in H|tauto].
Qed.

End QueryMore.

Section QueryRun.

Lemma run_print_each_exact (lines : list pystr) (w : World) :
  print_each lines w = (inr tt, foldl (fun w l => log (Print l) w) w lines).
Proof.
  revert w. induction lines as [|l r IH]; intros w; [reflexivity|].
  cbn [print_each foldl]. by rewrite run_bind, run_print, IH.
Qed.

Lemma after_prints (lines : list pystr) (w : World) :
  let w' := foldl (fun w l => log (Print l) w) w lines in
  trace w' = trace w ++ (Print <$> lines) /\
  fs w' = fs w /\ stdin w' = stdin w /\ llm w' = llm w.
Proof.
  revert w. induction lines as [|l r IH]; intros w; cbn [foldl].
  - by rewrite app_nil_r.
  - destruct (IH (log (Print l) w)) as (Ht & Hf & Hs & Hl).
    cbv zeta. rewrite Ht, Hf, Hs, Hl. simpl. by rewrite <- app_assoc.
Qed.

(** X17: [query_all_pdfs] changes no file and reads no console line; what
    it does is always a beginning of: announce, count, search once with
    limit [k], list the sources, ask the model once with the prompt built
    from the chunks found.  Whichever step fails ends the run there, and
    with a store a run that returns has done all of it. *)
Theorem query_runs_in_order (w : World) (question : pystr) (k : nat) :
  let out := query_all_pdfs question k w in
  let evs := new_events w (snd out) in
  fs (snd out) = fs w /\
  stdin (snd out) = stdin w /\
  evs `prefix_of` query_script w question k /\
  (fs w !! CHROMA_DB_DIR = None -> evs = []) /\
  (is_Some (fs w !! CHROMA_DB_DIR) ->
   forall r, fst out = inr r -> evs = query_script w question k).
Proof.
  cbv zeta. unfold query_all_pdfs, query_all_pdfs_docs.
  rewrite run_bind, run_bind, run_path_exists.
  destruct (fs w !! CHROMA_DB_DIR) as [st|] eqn:Hst.
  2:{ rewrite bool_decide_eq_false_2 by (intros [? ?]; discriminate).
      cbn [negb]. rewrite run_ret, run_ret. cbn [fst snd].
      assert (Hnone : new_events w w = []).
      { apply new_events_app. by rewrite app_nil_r. }
      rewrite Hnone. repeat split; try done; try apply prefix_nil.
      all: intros [? ?]; discriminate. }
  rewrite bool_decide_eq_true_2 by eauto. cbn [negb].
  unfold query_script, collection_at. rewrite Hst.
  set (docs := take k (ranking w question)).
  unfold query_store. rewrite run_bind, run_print, run_bind.
  set (w1 := log (Print _) w).
  assert (Hst1 : fs w1 !! CHROMA_DB_DIR = Some st) by exact Hst.
  rewrite run_new_embeddings.
  destruct (embeddings_fault (faults w1)).
  { cbn [fst snd]. split; [reflexivity|]. split; [reflexivity|].
    rewrite (new_events_app w w1 [Print ([0x1F50D] ++
               u " Querying all PDFs in database (retrieving top " ++
               str_int (Z.of_nat k) ++ u " chunks)")]) by reflexivity.
    split; [eexists; reflexivity|]. split; [discriminate|].
    intros; discriminate. }
  rewrite run_bind, (run_chroma_open _ _ Hst1).
  destruct (open_fault (faults w1)).
  { cbn [fst snd]. split; [reflexivity|]. split; [reflexivity|].
    rewrite (new_events_app w w1 [Print ([0x1F50D] ++
               u " Querying all PDFs in database (retrieving top " ++
               str_int (Z.of_nat k) ++ u " chunks)")]) by reflexivity.
    split; [eexists; reflexivity|]. split; [discriminate|].
    intros; discriminate. }
  rewrite run_bind.
  assert (collection_count CHROMA_DB_DIR w1 =
          (inr (Z.of_nat (size (entries st))), w1)) as ->.
  { unfold collection_count. rewrite run_bind. simpl.
    unfold collection_at. by rewrite Hst1. }
  rewrite run_bind, run_print, run_bind, run_retriever_invoke.
  set (w2 := log (Print _) w1).
  change (ranking w2 question) with (ranking w question). fold docs.
  destruct (search_fault (faults w2)).
  { cbn [fst snd]. split; [reflexivity|]. split; [reflexivity|].
    erewrite (new_events_app w (log (Search k question) w2));
      [|unfold w2, w1; simpl; rewrite <- !app_assoc; reflexivity].
    split; [eexists; reflexivity|]. split; [discriminate|].
    intros; discriminate. }
  rewrite run_bind, run_print, run_bind.
  set (w3 := log (Print _) (log (Search k question) w2)).
  rewrite run_print_each_exact.
  destruct (after_prints (source_line <$> count_sources docs) w3)
    as (Ht & Hf & Hs & Hl).
  fold source_line.
  set (w4 := foldl _ w3 _) in *.
  rewrite run_bind, run_llm_invoke, Hl.
  change (llm w3) with (llm w).
  assert (Hfinal : forall (res : exn + QueryResult) (w5 : World),
             w5 = log (LlmInvoke (all_pdfs_prompt docs question)) w4 ->
             fs w5 = fs w /\ stdin w5 = stdin w /\
             new_events w w5 =
             [Print ([0x1F50D] ++
                     u " Querying all PDFs in database (retrieving top " ++
                     str_int (Z.of_nat k) ++ u " chunks)");
              Print ([0x1F4CA] ++ u " Searching across " ++
                     str_int (Z.of_nat (size (entries st))) ++ u " total chunks");
              Search k question;
              Print ([0x1F4C4] ++ u " Sources contributing to answer:")] ++
             (Print <$> (source_line <$> count_sources docs)) ++
             [LlmInvoke (all_pdfs_prompt docs question)]).
  { intros res w5 ->. split; [exact Hf|]. split; [exact Hs|].
    apply new_events_app. simpl. rewrite Ht. unfold w3, w2, w1. simpl.
    by rewrite <- !app_assoc. }
  destruct (llm w (all_pdfs_prompt docs question)) as [e|content];
    cbv beta iota; rewrite ?run_bind, ?run_ret; cbv beta iota; cbn [fst snd];
    (destruct (Hfinal (inl (Exception_ [])) _ eq_refl) as (H1 & H2 & H3);
     rewrite H3; split; [exact H1|]; split; [exact H2|];
     split; [reflexivity|]; split; [discriminate|reflexivity]).
Qed.

End QueryRun.

(** * clear_database and the calls that follow it *)

Section ClearFacts.

Lemma run_clear_database (w : World) :
  clear_database w =
  match fs w !! CHROMA_DB_DIR with
  | None =>
      (inr false,
       log (Print ([0x2139; 0xFE0F] ++ u "  No database found at: " ++ CHROMA_DB_DIR)) w)
  | Some _ =>
      match rmtree_script (faults w) with
      | [] =>
          (inr true,
           log (Print ([0x2705] ++ u " Database cleared: " ++ CHROMA_DB_DIR))
               (set_fs (delete CHROMA_DB_DIR) (log (Rmtree CHROMA_DB_DIR) w)))
      | (e, residue) :: tl =>
          (inl e, set_rmtree_script tl
                    (set_fs (insert CHROMA_DB_DIR residue)
                            (log (Rmtree CHROMA_DB_DIR) w)))
      end
  end.
Proof.
  unfold clear_database. rewrite run_bind, run_path_exists.
  destruct (fs w !! CHROMA_DB_DIR) as [st|] eqn:Hst.
  - rewrite bool_decide_eq_true_2 by eauto. rewrite run_bind.
    destruct (rmtree_script (faults w)) as [|[e residue] tl] eqn:Hs.
    + by rewrite (run_rmtree_ok _ _ _ Hst Hs).
    + by rewrite (run_rmtree_fail _ _ _ _ _ _ Hst Hs).
  - rewrite bool_decide_eq_false_2 by (intros [? ?]; discriminate).
    reflexivity.
Qed.

(** X18: whenever [clear_database] returns, no store is left at the path,
    and it has returned [True] exactly when there was one; clearing again
    then returns [False], the chunk count is 0, and [query_all_pdfs]
    answers that there is no database without searching or asking the
    model. *)
Theorem cleared_store_is_gone (w : World) (cleared : bool)
        (question : pystr) (k : nat) :
  fst (clear_database w) = inr cleared ->
  let w1 := snd (clear_database w) in
  cleared = bool_decide (is_Some (fs w !! CHROMA_DB_DIR)) /\
  fs w1 !! CHROMA_DB_DIR = None /\
  fst (clear_database w1) = inr false /\
  fst (get_database_chunk_count w1) = inr (inl 0) /\
  query_all_pdfs question k w1 = (inr no_database_answer, w1).
Proof.
  intros Hret w1.
  assert (Hgone : fs w1 !! CHROMA_DB_DIR = None /\
                  cleared = bool_decide (is_Some (fs w !! CHROMA_DB_DIR))).
  { unfold w1. rewrite run_clear_database in *.
    destruct (fs w !! CHROMA_DB_DIR) as [st|] eqn:Hst.
    - destruct (rmtree_script (faults w)) as [|[e residue] tl]; [|discriminate].
      injection Hret as <-. split; [simpl; apply lookup_delete_eq|].
      by rewrite bool_decide_eq_true_2 by eauto.
    - injection Hret as <-. split; [exact Hst|].
      by rewrite bool_decide_eq_false_2 by (intros [? ?]; discriminate). }
  destruct Hgone as [Hgone Hcleared].
  assert (Hno : bool_decide (is_Some (fs w1 !! CHROMA_DB_DIR)) = false).
  { rewrite bool_decide_eq_false_2; [reflexivity|].
    rewrite Hgone. intros [? ?]. discriminate. }
  split; [exact Hcleared|]. split; [exact Hgone|]. split; [|split].
  - rewrite run_clear_database, Hgone. reflexivity.
  - unfold get_database_chunk_count. rewrite run_bind, run_path_exists, Hno.
    reflexivity.
  - unfold query_all_pdfs, query_all_pdfs_docs.
    rewrite run_bind, run_bind, run_path_exists, Hno. reflexivity.
Qed.

Lemma cleared_store_is_gone_witness :
  let w := Sample.with_store Sample.stored_ab Sample.quiet_world in
  let w1 := snd (clear_database w) in
  fst (clear_database w1) = inr false /\
  fst (get_database_chunk_count w1) = inr (inl 0).
Proof.
  intros w w1.
  assert (H : fst (clear_database w) = inr true) by (vm_compute; reflexivity).
  destruct (cleared_store_is_gone w true (u "What applies?") 10 H)
    as (_ & _ & Hagain & Hcount & _).
  split; [exact Hagain|exact Hcount].
Defined.

(** X19: the two introspection calls change nothing that the model
    follows.  [get_database_info] only reads, and leaves the world as it
    is.  [get_database_chunk_count] reads no console line, leaves the
    entries of the store and the set of existing paths as they are, makes
    no insert, search, deletion, rename or call of the model, and runs the
    garbage collector once exactly when the store is there and the
    embedding client and the store both open.  The files chromadb keeps
    under the store path, which opening the store may write, are outside
    the model and outside this statement. *)
Theorem introspection_changes_nothing (w : World) :
  snd (get_database_info w) = w /\
  let w' := snd (get_database_chunk_count w) in
  stdin w' = stdin w /\
  collection_at CHROMA_DB_DIR w' = collection_at CHROMA_DB_DIR w /\
  (forall p, is_Some (fs w' !! p) <-> is_Some (fs w !! p)) /\
  new_events w w' =
    match fs w !! CHROMA_DB_DIR,
          embeddings_fault (faults w), open_fault (faults w) with
    | Some _, None, None => [GcCollect]
    | _, _, _ => []
    end.
Proof.
  assert (Hnone : new_events w w = []).
  { apply new_events_app. by rewrite app_nil_r. }
  split.
  - unfold get_database_info. rewrite run_bind, run_path_exists.
    destruct (bool_decide _); reflexivity.
  - cbv zeta. unfold get_database_chunk_count.
    rewrite run_bind, run_path_exists.
    destruct (fs w !! CHROMA_DB_DIR) as [st|] eqn:Hst.
    + rewrite bool_decide_eq_true_2 by eauto. cbn [negb].
      unfold try_except. rewrite run_bind, run_new_embeddings.
      destruct (embeddings_fault (faults w)); [by repeat split|].
      rewrite run_bind, (run_chroma_open _ _ Hst).
      destruct (open_fault (faults w)); [by repeat split|].
      repeat split; try done. by apply new_events_app.
    + rewrite bool_decide_eq_false_2 by (intros [? ?]; discriminate).
      by repeat split.
Qed.

End ClearFacts.

(** * main.py *)

Section OrchestratorFacts.

Import Orchestrator.

Variable legal_analyst_tool : pystr -> pystr -> IO pystr.
Variable code_auditor_agent : pystr -> pystr -> IO pystr.
Variable json : Type.
Variable json_loads : pystr -> pyexn + json.
Variable json_dumps : report json -> pystr.
Variable GoogleGenerativeAI : pystr -> IO unit.

Abbreviation orchestrate := (orchestrate_compliance_check legal_analyst_tool
                                                           code_auditor_agent).
Abbreviation audit := (run_compliance_audit legal_analyst_tool code_auditor_agent
                                            json json_loads).
Abbreviation main_block := (main legal_analyst_tool code_auditor_agent
                                 json json_loads json_dumps).

Lemma io_bind {A B : Type} (m : IO A) (f : A -> IO B) (w : World) :
  (m ≫= f) w =
  match m w with
  | (inl e, w') => (inl e, w')
  | (inr a, w') => f a w'
  end.
Proof. reflexivity. Qed.

(** What [json.loads] and the inner [except json.JSONDecodeError] make of
    the text the auditor returned. *)
Lemma run_parse (violations_json : pystr) (w : World) :
  Orchestrator.try_except
    (value ← Orchestrator.lift (json_loads violations_json); mret (Parsed value))
    (fun e => if is_JSONDecodeError e
              then Some (mret (RawOutput violations_json))
              else None) w =
  (match json_loads violations_json with
   | inr value => inr (Parsed value)
   | inl e => if is_JSONDecodeError e then inr (RawOutput violations_json)
              else inl e
   end, w).
Proof.
  unfold Orchestrator.try_except. rewrite io_bind. unfold Orchestrator.lift.
  destruct (json_loads violations_json) as [e|value]; [|reflexivity].
  destruct (is_JSONDecodeError e); reflexivity.
Qed.

(** What [run_compliance_audit] returns or raises, from what its body
    does. *)
Lemma run_audit (regulation_pdf repository_url : pystr) (w : World) :
  audit regulation_pdf repository_url w =
  match orchestrate regulation_pdf repository_url w with
  | (inl e, w') => (inl (passed_on e), w')
  | (inr violations_json, w') =>
      (match json_loads violations_json with
       | inr value => inr (Parsed value)
       | inl e => if is_JSONDecodeError e then inr (RawOutput violations_json)
                  else inl (passed_on e)
       end, w')
  end.
Proof.
  unfold run_compliance_audit. unfold Orchestrator.try_except at 1.
  rewrite io_bind.
  destruct (orchestrate regulation_pdf repository_url w) as [[e|s] w'].
  - unfold passed_on.
    destruct (is_ValueError e); [reflexivity|].
    destruct (is_Exception e); reflexivity.
  - rewrite run_parse.
    destruct (json_loads s) as [e|value]; [|reflexivity].
    destruct (is_JSONDecodeError e) eqn:Hj; [reflexivity|].
    unfold passed_on.
    destruct (is_ValueError e); [reflexivity|].
    destruct (is_Exception e); reflexivity.
Qed.


(** X20: every [Exception] that [run_compliance_audit] raises is a
    [ValueError] whose text starts with [Configuration error: ] or a
    [RuntimeError] whose text starts with [Error during compliance audit: ],
    followed by the text of its cause and chained to it; the first when the
    cause is a [ValueError] (a [UnicodeEncodeError] is one), the second
    otherwise. *)
Theorem audit_raises_by_class (regulation_pdf repository_url : pystr)
        (w : World) (e : pyexn) :
  fst (audit regulation_pdf repository_url w) = inl e ->
  is_Exception e = true ->
  exists cause,
    is_Exception cause = true /\
    e = if is_ValueError cause
        then ValueError (u "Configuration error: " ++ str_pyexn cause) (Some cause)
        else RuntimeError (u "Error during compliance audit: " ++ str_pyexn cause)
                          (Some cause).
Proof.
  intros Hraise He. rewrite run_audit in Hraise.
  assert (Hcause : exists cause, e = passed_on cause).
  { destruct (orchestrate regulation_pdf repository_url w) as [[c|s] w'].
    - cbn [fst] in Hraise. injection Hraise as <-. eauto.
    - cbn [fst] in Hraise. destruct (json_loads s) as [c|v]; [|discriminate].
      destruct (is_JSONDecodeError c); [discriminate|].
      injection Hraise as <-. eauto. }
  destruct Hcause as [cause ->]. exists cause.
  unfold passed_on in *.
  destruct (is_ValueError cause) eqn:Hv.
  - split; [by destruct cause as [[]| | | | | |]|reflexivity].
  - destruct (is_Exception cause) eqn:Hx; [by split|]. congruence.
Qed.

(** X21: a reply of the auditor that [json.loads] rejects with a
    [JSONDecodeError] is returned under [raw_output] and nothing is raised,
    although a [JSONDecodeError] is a [ValueError]. *)
Theorem invalid_json_is_returned (regulation_pdf repository_url : pystr)
        (w : World) (violations_json msg : pystr) :
  fst (orchestrate regulation_pdf repository_url w) = inr violations_json ->
  json_loads violations_json = inl (JSONDecodeError msg) ->
  audit regulation_pdf repository_url w =
  (inr (RawOutput violations_json),
   snd (orchestrate regulation_pdf repository_url w)).
Proof.
  intros Hret Hjson. rewrite run_audit.
  destruct (orchestrate regulation_pdf repository_url w) as [[c|s] w'];
    [discriminate|].
  injection Hret as ->. by rewrite Hjson.
Qed.

Lemma audit_exception_is_caught (regulation_pdf repository_url : pystr)
      (w : World) (e : pyexn) :
  fst (audit regulation_pdf repository_url w) = inl e ->
  is_ValueError e || is_RuntimeError e = is_Exception e.
Proof.
  intros Hraise. rewrite run_audit in Hraise.
  assert (Hcause : exists cause, e = passed_on cause).
  { destruct (orchestrate regulation_pdf repository_url w) as [[c|s] w'].
    - cbn [fst] in Hraise. injection Hraise as <-. eauto.
    - cbn [fst] in Hraise. destruct (json_loads s) as [c|v]; [|discriminate].
      destruct (is_JSONDecodeError c); [discriminate|].
      injection Hraise as <-. eauto. }
  destruct Hcause as [cause ->]. unfold passed_on.
  destruct (is_ValueError cause) eqn:Hv; [reflexivity|].
  destruct (is_Exception cause) eqn:Hx; [reflexivity|].
  rewrite Hv, Hx. by destruct cause as [[]| | | | | |].
Qed.

(** X22: the [__main__] block prints the report when the audit returns;
    when the audit raises an [Exception] it prints [Error: ] and the text
    of that exception and ends with exit status 1; anything else the audit
    raises ([KeyboardInterrupt], [SystemExit]) it lets through. *)
Theorem main_reports_failures (w : World) :
  let run := audit (u "C:\Users\Karthik Sagar P\OneDrive\Desktop\GuardianAI\sample_regulation.pdf")
                   (u "https://github.com/your-repo/to-audit") w in
  main_block w =
  match fst run with
  | inr report =>
      (inr tt, log (Print (json_dumps report))
                   (log (Print (nl ++ u "Final Compliance Report:")) (snd run)))
  | inl e =>
      if is_Exception e then
        (inl (SystemExit 1), log (Print (u "Error: " ++ str_pyexn e)) (snd run))
      else (inl e, snd run)
  end.
Proof.
  cbv zeta. unfold main. cbv zeta. unfold Orchestrator.try_except.
  rewrite io_bind.
  pose proof (audit_exception_is_caught
                (u "C:\Users\Karthik Sagar P\OneDrive\Desktop\GuardianAI\sample_regulation.pdf")
                (u "https://github.com/your-repo/to-audit") w) as Hcaught.
  destruct (audit _ _ w) as [[e|r] w'].
  - cbn [fst snd]. rewrite (Hcaught e eq_refl).
    destruct (is_Exception e); reflexivity.
  - reflexivity.
Qed.

(** X23: run as a script without [GOOGLE_API_KEY], or with an empty one,
    main.py raises the [ValueError] of line 12 while the module is loaded:
    nothing is printed, no tool is called, and the handler of the
    [__main__] block, which would print [Error: ...] and exit with 1, is
    not reached. *)
Theorem script_without_key (api_key : option pystr) (w : World) :
  api_key = None \/ api_key = Some [] ->
  script legal_analyst_tool code_auditor_agent json json_loads json_dumps
         GoogleGenerativeAI api_key w =
  (inl (ValueError (u "Please set the GOOGLE_API_KEY environment variable") None), w).
Proof. intros [-> | ->]; reflexivity. Qed.

(** What [orchestrate_compliance_check] does when the analyst raises. *)
Lemma orchestrate_stops_at_step1 (regulation_pdf repository_url : pystr)
      (w w1 : World) (e : pyexn) :
  legal_analyst_tool regulation_pdf brief_question
    (log (Print (nl ++ u "=== STEP 1: Analyzing Regulatory Document ===")) w) =
    (inl e, w1) ->
  orchestrate regulation_pdf repository_url w = (inl e, w1).
Proof.
  intros Hstep1. unfold orchestrate_compliance_check.
  rewrite io_bind. unfold Orchestrator.print at 1. cbv zeta.
  rewrite io_bind, Hstep1. reflexivity.
Qed.

(** X24: when the analyst raises an exception of the kinds legal_tool.py
    raises, the audit stops there, the auditor is not run, and the
    [__main__] block prints one line and exits with 1.  The line is
    [Error: Configuration error: ] and the text of the exception when it is
    a [ValueError] (the [UnicodeEncodeError] of a chunk with a lone
    surrogate is one, and so is what [PyPDFLoader] raises for a path that
    is no file), and [Error: Error during compliance audit: ] and the text
    of the exception when it is not. *)
Theorem analyst_failure_reaches_console (w w1 : World) (e : exn) :
  legal_analyst_tool
    (u "C:\Users\Karthik Sagar P\OneDrive\Desktop\GuardianAI\sample_regulation.pdf")
    brief_question
    (log (Print (nl ++ u "=== STEP 1: Analyzing Regulatory Document ===")) w) =
    (inl (FromTool e), w1) ->
  main_block w =
  (inl (SystemExit 1),
   log (Print (u "Error: " ++
               (if is_ValueError (FromTool e)
                then u "Configuration error: "
                else u "Error during compliance audit: ") ++ str_exn e)) w1).
Proof.
  intros Hstep1.
  pose proof (orchestrate_stops_at_step1 _ (u "https://github.com/your-repo/to-audit")
                                         _ _ _ Hstep1) as Horch.
  unfold main. cbv zeta. unfold Orchestrator.try_except at 1.
  rewrite io_bind, run_audit, Horch.
  destruct e; reflexivity.
Qed.

End OrchestratorFacts.

Section OrchestratorRuns.

Import Orchestrator.

Lemma audit_raises_by_class_witness :
  let e := match fst (run_compliance_audit
                        OrchestratorSample.analyst
                        (OrchestratorSample.auditor (u "[]"))
                        (list pystr) OrchestratorSample.json_loads
                        (u "rules.pdf") (u "https://example.org/repo")
                        OrchestratorSample.broken_text_world) with
           | inl e => e
           | inr _ => KeyboardInterrupt
           end in
  exists cause,
    is_Exception cause = true /\
    e = if is_ValueError cause
        then ValueError (u "Configuration error: " ++ str_pyexn cause) (Some cause)
        else RuntimeError (u "Error during compliance audit: " ++ str_pyexn cause)
                          (Some cause).
Proof.
  intros e.
  apply (audit_raises_by_class
           OrchestratorSample.analyst (OrchestratorSample.auditor (u "[]"))
           (list pystr) OrchestratorSample.json_loads
           (u "rules.pdf") (u "https://example.org/repo")
           OrchestratorSample.broken_text_world e);
    vm_compute; reflexivity.
Defined.

Lemma invalid_json_is_returned_witness :
  fst (run_compliance_audit
         OrchestratorSample.analyst (OrchestratorSample.auditor (u "not json"))
         (list pystr) OrchestratorSample.json_loads
         (u "rules.pdf") (u "https://example.org/repo") Sample.reading_world) =
  inr (RawOutput (u "not json")).
Proof.
  rewrite (invalid_json_is_returned
             OrchestratorSample.analyst (OrchestratorSample.auditor (u "not json"))
             (list pystr) OrchestratorSample.json_loads
             (u "rules.pdf") (u "https://example.org/repo") Sample.reading_world
             (u "not json") (u "Expecting value: line 1 column 1 (char 0)"));
    [reflexivity|vm_compute; reflexivity|vm_compute; reflexivity].
Defined.

Lemma script_without_key_witness :
  fst (script OrchestratorSample.analyst (OrchestratorSample.auditor (u "[]"))
              (list pystr) OrchestratorSample.json_loads
              OrchestratorSample.json_dumps OrchestratorSample.client
              (Some []) Sample.reading_world) =
  inl (ValueError (u "Please set the GOOGLE_API_KEY environment variable") None).
Proof.
  rewrite (script_without_key
             OrchestratorSample.analyst (OrchestratorSample.auditor (u "[]"))
             (list pystr) OrchestratorSample.json_loads
             OrchestratorSample.json_dumps OrchestratorSample.client
             (Some []) Sample.reading_world (or_intror eq_refl)).
  reflexivity.
Defined.

(** A chunk with a lone surrogate: the line says configuration error. *)
Lemma analyst_failure_reaches_console_witness :
  let out := main OrchestratorSample.analyst (OrchestratorSample.auditor (u "[]"))
                  (list pystr) OrchestratorSample.json_loads
                  OrchestratorSample.json_dumps
                  OrchestratorSample.broken_text_world in
  fst out = inl (SystemExit 1) /\
  last (trace (snd out)) =
  Some (Print (u "Error: Configuration error: 'utf-8' codec can't encode character '\ud800' in position 0: surrogates not allowed")).
Proof.
  intros out. unfold out.
  set (r := OrchestratorSample.analyst
              (u "C:\Users\Karthik Sagar P\OneDrive\Desktop\GuardianAI\sample_regulation.pdf")
              brief_question
              (log (Print (nl ++ u "=== STEP 1: Analyzing Regulatory Document ==="))
                   OrchestratorSample.broken_text_world)).
  set (e := match fst r with
            | inl (FromTool e) => e
            | _ => Exception_ []
            end).
  assert (Hstep1 : r = (inl (FromTool e), snd r)) by (vm_compute; reflexivity).
  rewrite (analyst_failure_reaches_console
             OrchestratorSample.analyst (OrchestratorSample.auditor (u "[]"))
             (list pystr) OrchestratorSample.json_loads
             OrchestratorSample.json_dumps
             OrchestratorSample.broken_text_world (snd r) e Hstep1).
  split; [reflexivity|]. vm_compute. reflexivity.
Defined.

(** A path that is no file: [PyPDFLoader] raises a [ValueError], and the
    line says configuration error; a store that cannot be opened: the line
    says error during compliance audit. *)
Example analyst_failures_by_class :
  let run w := main OrchestratorSample.analyst (OrchestratorSample.auditor (u "[]"))
                    (list pystr) OrchestratorSample.json_loads
                    OrchestratorSample.json_dumps w in
  (fst (run OrchestratorSample.missing_file_world) = inl (SystemExit 1) /\
   last (trace (snd (run OrchestratorSample.missing_file_world))) =
   Some (Print (u "Error: Configuration error: File path C:\Users\Karthik Sagar P\OneDrive\Desktop\GuardianAI\sample_regulation.pdf is not a valid file or url"))) /\
  (fst (run OrchestratorSample.locked_out_world) = inl (SystemExit 1) /\
   last (trace (snd (run OrchestratorSample.locked_out_world))) =
   Some (Print (u "Error: Error during compliance audit: [Errno 13] Permission denied: './chroma_db'"))).
Proof. vm_compute. repeat split; reflexivity. Qed.

End OrchestratorRuns.
